(** * oom_alloc: committed-memory accounting demo (dnsmasq contrib)

    A shallow embedding of [oom_alloc.c] and the properties of its
    run: argument handling, the [/proc/meminfo] reporter, the
    allocate / initialise / protect / fork / reap / unmap sequence and the
    fatal-error discipline.

    The C program talks to the operating system all the time.  The
    embedding threads an explicit process state through a small monad;
    what the operating system answers (does [fopen] succeed, which address
    does [mmap] return, which children has the process when it starts,
    which of its children does [wait] reap, ...) is read from an oracle
    [os_env], and every library or system call is recorded in the trace
    of the process that made it.  [fork] really forks: the monad
    carries the continuing process together with the processes split off
    it, and a child runs the very same continuation as its parent with
    return value 0. *)

From Stdlib Require Import ZArith Ascii String Lia.
From stdpp Require Import base tactics option list strings numbers gmap pretty.

Local Open Scope Z_scope.

(** ** Machine integers (Linux, LP64) *)

Module CInt.

(** [int] is 32 bits wide, two's complement. *)
Definition INT_MIN : Z := - 2 ^ 31.
Definition INT_MAX : Z := 2 ^ 31 - 1.
Definition wrap_int (z : Z) : Z := (z + 2 ^ 31) mod 2 ^ 32 - 2 ^ 31.

(** [size_t] is 64 bits wide, unsigned; converting an [int] to it
    reduces modulo 2^64. *)
Definition to_size_t (z : Z) : Z := z mod 2 ^ 64.

(** [unsigned int], as [%u] reads its argument. *)
Definition to_unsigned (z : Z) : Z := z mod 2 ^ 32.

(** [sizeof(int)], the size of one slot [*p]. *)
Definition sizeof_int : Z := 4.

End CInt.
Export CInt.

(** ** C strings

    A value of type [string] holds the bytes of a [char] buffer; the
    NUL that ends the buffer is not part of it.  The bytes may come from
    a file and hold NUL bytes themselves: the [str*] functions and [%s]
    read a buffer up to its first NUL, which is [c_str] of it. *)

Module CString.

Definition NUL : ascii := "000"%char.
Definition NL : ascii := "010"%char.

Definition uchar (c : ascii) : Z := Z.of_N (N_of_ascii c).

Fixpoint c_str (buf : string) : string :=
  match buf with
  | EmptyString => EmptyString
  | String c r => if decide (c = NUL) then EmptyString else String c (c_str r)
  end.

Definition strlen (s : string) : nat := String.length (c_str s).

(** [strcmp]: the difference of the first pair of bytes that differ,
    0 when both strings end together. *)
Fixpoint strcmp (a b : string) : Z :=
  match a, b with
  | EmptyString, EmptyString => 0
  | EmptyString, String y _ => 0 - uchar y
  | String x _, EmptyString => uchar x - 0
  | String x a', String y b' =>
      if decide (x = y)
      then (if decide (x = NUL) then 0 else strcmp a' b')
      else uchar x - uchar y
  end.

(** [strncmp]: as [strcmp], over at most [n] bytes. *)
Fixpoint strncmp (a b : string) (n : nat) {struct n} : Z :=
  match n with
  | O => 0
  | S n' =>
      match a, b with
      | EmptyString, EmptyString => 0
      | EmptyString, String y _ => 0 - uchar y
      | String x _, EmptyString => uchar x - 0
      | String x a', String y b' =>
          if decide (x = y)
          then (if decide (x = NUL) then 0 else strncmp a' b' n')
          else uchar x - uchar y
      end
  end.

Fixpoint is_delim (c : ascii) (delims : string) : bool :=
  match delims with
  | EmptyString => false
  | String d r => if decide (c = d) then true else is_delim c r
  end.

Fixpoint skip_delims (delims s : string) : string :=
  match s with
  | EmptyString => EmptyString
  | String c r => if is_delim c delims then skip_delims delims r else s
  end.

Fixpoint take_token (delims s : string) : string :=
  match s with
  | EmptyString => EmptyString
  | String c r =>
        if is_delim c delims then EmptyString else String c (take_token delims r)
  end.

(** The first call [strtok(s, delims)]: leading delimiters are skipped,
    the token runs to the next delimiter; [None] is the NULL returned
    when nothing but delimiters is left. *)
Definition strtok (s delims : string) : option string :=
  match skip_delims delims s with
  | EmptyString => None
  | String c r => Some (take_token delims (String c r))
  end.

(** [%s] given a pointer: the C string there; glibc prints [(null)] for
    NULL. *)
Definition fmt_s (o : option string) : string :=
  match o with
  | Some s => c_str s
  | None => "(null)"
  end.

(** [%u] given an [int]. *)
Definition fmt_u (z : Z) : string := pretty (Z.to_N (to_unsigned z)).

(** The core of [fgets]: at most [n] bytes are taken, and none after a
    newline.  Returns the bytes stored and the unread rest. *)
Fixpoint read_line (n : nat) (s : string) : string * string :=
  match n, s with
  | S n', String c r =>
        if decide (c = NL) then (String c EmptyString, r)
        else let '(l, rest) := read_line n' r in (String c l, rest)
  | _, _ => (EmptyString, s)
  end.

(** [fgets(buf, size, fp)] on a stream whose unread part is [s]:
    NULL ([None]) at end of file, else at most [size - 1] bytes. *)
Definition fgets_bytes (size : nat) (s : string) : option (string * string) :=
  match s with
  | EmptyString => None
  | _ => Some (read_line (size - 1) s)
  end.

End CString.
Export CString.

(** ** The operating system as seen by one process *)

(** The answer of a call that can fail: a value, or the [errno] it sets. *)
Inductive sysres (A : Type) : Type :=
| Ok (a : A)
| Err (errno : Z).
Arguments Ok {A} a.
Arguments Err {A} errno.

(** What a process does, call by call.  [EvWrite] is a [fprintf] or
    [perror] on stream [fd]; [EvStore] is the assignment [*p = v]. *)
Inductive event : Type :=
| EvWrite (fd : Z) (data : string)
| EvFopen (path mode : string) (res : sysres nat)
| EvFclose (fp : nat)
| EvMmap (addr len prot flags fd off : Z) (res : sysres Z)
| EvStore (addr val : Z)
| EvMprotect (addr len prot : Z) (res : sysres unit)
| EvFork (res : sysres positive)
| EvSleep (secs : Z)
| EvWait (res : sysres positive)
| EvMunmap (addr len : Z) (res : sysres unit)
| EvExit (code : Z).

(** The oracle: everything the program cannot decide itself.
    [os_fopen k path] is what the [k]-th [fopen] of the process finds
    (the file's contents at that moment); [os_mmap] is the page number of
    the new mapping; [os_fork k] the pid of the [k]-th child;
    [os_children] the children the process has that this program did
    not create (a program that forks and then executes this one leaves
    its children to it);
    [os_wait k] which of the children not yet reaped the [k]-th [wait]
    collects (an index into them, taken modulo their number). *)
Record os_env : Type := {
  os_fopen : nat -> string -> sysres string;
  os_mmap : sysres N;
  os_mprotect : sysres unit;
  os_fork : nat -> sysres positive;
  os_children : list positive;
  os_wait : nat -> sysres nat;
  os_munmap : sysres unit;
  os_strerror : Z -> string
}.

(** The one mapping the program owns. *)
Record region : Type := {
  rg_base : Z;
  rg_len : Z;
  rg_prot : Z;
  rg_flags : Z
}.

Record state : Type := {
  st_trace : list event;          (* what this process has done so far *)
  st_errno : Z;
  st_files : gmap nat string;     (* open streams: their unread bytes *)
  st_nopen : nat;                 (* calls of fopen, fork, wait so far *)
  st_nfork : nat;
  st_nwait : nat;
  st_region : option region;
  st_mem : gmap Z Z;              (* the [int] cells written, by address *)
  st_children : list positive;    (* children not yet reaped *)
  st_depth : nat                  (* 0 in the process started by the shell *)
}.

Definition init_state : state :=
  {| st_trace := []; st_errno := 0; st_files := ∅; st_nopen := 0;
     st_nfork := 0; st_nwait := 0; st_region := None; st_mem := ∅;
     st_children := []; st_depth := 0 |}.

Definition log (e : event) (s : state) : state :=
  {| st_trace := st_trace s ++ [e]; st_errno := st_errno s;
     st_files := st_files s; st_nopen := st_nopen s; st_nfork := st_nfork s;
     st_nwait := st_nwait s; st_region := st_region s; st_mem := st_mem s;
     st_children := st_children s; st_depth := st_depth s |}.

Definition set_errno (e : Z) (s : state) : state :=
  {| st_trace := st_trace s; st_errno := e;
     st_files := st_files s; st_nopen := st_nopen s; st_nfork := st_nfork s;
     st_nwait := st_nwait s; st_region := st_region s; st_mem := st_mem s;
     st_children := st_children s; st_depth := st_depth s |}.

Definition set_files (f : gmap nat string) (s : state) : state :=
  {| st_trace := st_trace s; st_errno := st_errno s;
     st_files := f; st_nopen := st_nopen s; st_nfork := st_nfork s;
     st_nwait := st_nwait s; st_region := st_region s; st_mem := st_mem s;
     st_children := st_children s; st_depth := st_depth s |}.

Definition set_region (r : option region) (s : state) : state :=
  {| st_trace := st_trace s; st_errno := st_errno s;
     st_files := st_files s; st_nopen := st_nopen s; st_nfork := st_nfork s;
     st_nwait := st_nwait s; st_region := r; st_mem := st_mem s;
     st_children := st_children s; st_depth := st_depth s |}.

Definition set_mem (m : gmap Z Z) (s : state) : state :=
  {| st_trace := st_trace s; st_errno := st_errno s;
     st_files := st_files s; st_nopen := st_nopen s; st_nfork := st_nfork s;
     st_nwait := st_nwait s; st_region := st_region s; st_mem := m;
     st_children := st_children s; st_depth := st_depth s |}.

Definition set_children (c : list positive) (s : state) : state :=
  {| st_trace := st_trace s; st_errno := st_errno s;
     st_files := st_files s; st_nopen := st_nopen s; st_nfork := st_nfork s;
     st_nwait := st_nwait s; st_region := st_region s; st_mem := st_mem s;
     st_children := c; st_depth := st_depth s |}.

Definition tick_open (s : state) : state :=
  {| st_trace := st_trace s; st_errno := st_errno s;
     st_files := st_files s; st_nopen := S (st_nopen s); st_nfork := st_nfork s;
     st_nwait := st_nwait s; st_region := st_region s; st_mem := st_mem s;
     st_children := st_children s; st_depth := st_depth s |}.

Definition tick_fork (s : state) : state :=
  {| st_trace := st_trace s; st_errno := st_errno s;
     st_files := st_files s; st_nopen := st_nopen s; st_nfork := S (st_nfork s);
     st_nwait := st_nwait s; st_region := st_region s; st_mem := st_mem s;
     st_children := st_children s; st_depth := st_depth s |}.

Definition tick_wait (s : state) : state :=
  {| st_trace := st_trace s; st_errno := st_errno s;
     st_files := st_files s; st_nopen := st_nopen s; st_nfork := st_nfork s;
     st_nwait := S (st_nwait s); st_region := st_region s; st_mem := st_mem s;
     st_children := st_children s; st_depth := st_depth s |}.

(** The child of a [fork]: a copy of its parent that has done nothing
    yet and has no children of its own. *)
Definition child_of (s : state) : state :=
  {| st_trace := []; st_errno := st_errno s;
     st_files := st_files s; st_nopen := st_nopen s; st_nfork := st_nfork s;
     st_nwait := st_nwait s; st_region := st_region s; st_mem := st_mem s;
     st_children := []; st_depth := S (st_depth s) |}.

(** ** The process monad

    A computation either returns or stops the process.  Running it from a
    state gives the process that carries on and the processes forked off
    on the way, each with its own outcome and state. *)

Inductive stop : Type :=
| Exited (code : Z)        (* exit(code) *)
| Killed (sig : Z)         (* ended by a signal *)
| OutOfFuel.               (* a loop outran its bound *)

Inductive outcome (A : Type) : Type :=
| Ret (a : A)
| Stop (h : stop).
Arguments Ret {A} a.
Arguments Stop {A} h.

Definition result (A : Type) : Type := outcome A * state.

Definition M (A : Type) : Type := state -> result A * list (result A).

Definition ret {A} (a : A) : M A := fun s => ((Ret a, s), []).

Definition halt {A} (h : stop) : M A := fun s => ((Stop h, s), []).

(** A process that has returned goes on with [k]; one that has stopped
    stays as it is. *)
Definition resume {A B} (k : A -> M B) (r : result A) : result B * list (result B) :=
  match r with
  | (Ret a, s) => k a s
  | (Stop h, s) => ((Stop h, s), [])
  end.

Definition procs {A} (r : result A * list (result A)) : list (result A) :=
  r.1 :: r.2.

Definition bind {A B} (m : M A) (k : A -> M B) : M B := fun s =>
  let '(r, cs) := m s in
  let '(r', cs') := resume k r in
  (r', cs' ++ flat_map (fun c => procs (resume k c)) cs).

Declare Scope proc_scope.
Delimit Scope proc_scope with proc.
Bind Scope proc_scope with M.
Notation "x <- m ;; k" := (bind m (fun x => k))
  (at level 20, m at level 99, k at level 200, only parsing) : proc_scope.
Notation "m ;; k" := (bind m (fun _ => k))
  (at level 100, k at level 200, only parsing, right associativity) : proc_scope.
Local Open Scope proc_scope.

Definition when (b : bool) (m : M unit) : M unit := if b then m else ret tt.

(** A C loop.  [step] tests the condition and, when it holds, runs the
    body and the increment, returning the new loop variables; [None]
    leaves the loop.  [fuel] bounds the number of tests. *)
Fixpoint loop {V} (fuel : nat) (step : V -> M (option V)) (v : V) : M V :=
  match fuel with
  | O => halt OutOfFuel
  | S fuel' =>
      o <- step v ;;
      match o with
      | Some v' => loop fuel' step v'
      | None => ret v
      end
  end.

(** ** Constants of the C library and of Linux *)

Definition STDOUT : Z := 1.
Definition STDERR : Z := 2.
Definition EXIT_SUCCESS : Z := 0.
Definition EXIT_FAILURE : Z := 1.
Definition PROT_READ : Z := 1.
Definition PROT_WRITE : Z := 2.
Definition MAP_SHARED : Z := 1.
Definition MAP_PRIVATE : Z := 2.
Definition MAP_ANONYMOUS : Z := 32.
Definition MAP_FAILED : Z := -1.
Definition PAGE_SIZE : Z := 4096.
Definition SIGSEGV : Z := 11.
Definition ECHILD : Z := 10.

Definition nl : string := String NL EmptyString.

(** ** Library and system calls *)

Section Calls.

Variable env : os_env.

Definition fprintf (fd : Z) (data : string) : M unit := fun s =>
  ((Ret tt, log (EvWrite fd data) s), []).

Definition exit {A} (code : Z) : M A := fun s =>
  ((Stop (Exited code), log (EvExit code) s), []).

(** [perror(msg)]: the message, a colon, and the description of the
    current [errno], on the error stream. *)
Definition perror (msg : string) : M unit := fun s =>
  let pre := match c_str msg with EmptyString => EmptyString | m => m +:+ ": " end in
  fprintf STDERR (pre +:+ os_strerror env (st_errno s) +:+ nl) s.

(** [fopen(path, mode)]: a fresh stream over the file's contents, or
    NULL ([None]) with [errno] set. *)
Definition fopen (path mode : string) : M (option nat) := fun s =>
  let k := st_nopen s in
  match os_fopen env k path with
  | Ok content =>
      ((Ret (Some k),
        log (EvFopen path mode (Ok k))
          (tick_open (set_files (<[k := content]> (st_files s)) s))), [])
  | Err e =>
      ((Ret None, log (EvFopen path mode (Err e)) (tick_open (set_errno e s))), [])
  end.

(** [fgets(buf, size, fp)]: the bytes stored in [buf], or NULL at end of
    file.  Reading through a pointer that is no open stream ends the
    process. *)
Definition fgets (size : nat) (fp : option nat) : M (option string) := fun s =>
  match fp ≫= (fun h => st_files s !! h ≫= (fun rest => Some (h, rest))) with
  | Some (h, rest) =>
      match fgets_bytes size rest with
      | Some (buf, rest') => ((Ret (Some buf), set_files (<[h := rest']> (st_files s)) s), [])
      | None => ((Ret None, s), [])
      end
  | None => ((Stop (Killed SIGSEGV), s), [])
  end.

(** The number of bytes still unread on [fp]: the variant of a loop that
    reads until end of file. *)
Definition unread (fp : option nat) : M nat := fun s =>
  ((Ret (default 0%nat (String.length <$> (fp ≫= (fun h => st_files s !! h)))), s), []).

Definition fclose (fp : option nat) : M unit := fun s =>
  match fp with
  | Some h => ((Ret tt, log (EvFclose h) (set_files (delete h (st_files s)) s)), [])
  | None => ((Stop (Killed SIGSEGV), s), [])
  end.

(** [mmap]: on success the region is mapped (its pages read as zero) and
    its address returned, else [MAP_FAILED] with [errno] set. *)
Definition mmap (addr len prot flags fd off : Z) : M Z := fun s =>
  match os_mmap env with
  | Ok pg =>
      let a := Z.of_N pg * PAGE_SIZE in
      ((Ret a,
        log (EvMmap addr len prot flags fd off (Ok a))
          (set_mem ∅ (set_region (Some {| rg_base := a; rg_len := len;
                                           rg_prot := prot; rg_flags := flags |}) s))), [])
  | Err e =>
      ((Ret MAP_FAILED, log (EvMmap addr len prot flags fd off (Err e)) (set_errno e s)), [])
  end.

(** May the process write the [int] at address [a]? *)
Definition writable (s : state) (a : Z) : bool :=
  match st_region s with
  | Some r =>
      bool_decide (rg_base r <= a /\ a + sizeof_int <= rg_base r + rg_len r)
      && bool_decide (Z.land (rg_prot r) PROT_WRITE <> 0)
  | None => false
  end.

(** The assignment [*p = v] for [int *p]. *)
Definition store_int (p v : Z) : M unit := fun s =>
  if writable s p
  then ((Ret tt, log (EvStore p v) (set_mem (<[p := v]> (st_mem s)) s)), [])
  else ((Stop (Killed SIGSEGV), s), []).

Definition mprotect (addr len prot : Z) : M Z := fun s =>
  match os_mprotect env with
  | Ok _ =>
      let r' :=
        match st_region s with
        | Some r =>
            if bool_decide (rg_base r = addr /\ rg_len r = len)
            then Some {| rg_base := rg_base r; rg_len := rg_len r;
                         rg_prot := prot; rg_flags := rg_flags r |}
            else Some r
        | None => None
        end in
      ((Ret 0, log (EvMprotect addr len prot (Ok tt)) (set_region r' s)), [])
  | Err e => ((Ret (-1), log (EvMprotect addr len prot (Err e)) (set_errno e s)), [])
  end.

Definition munmap (addr len : Z) : M Z := fun s =>
  match os_munmap env with
  | Ok _ =>
      let r' :=
        match st_region s with
        | Some r =>
            if bool_decide (rg_base r = addr /\ rg_len r = len) then None else Some r
        | None => None
        end in
      ((Ret 0, log (EvMunmap addr len (Ok tt)) (set_region r' s)), [])
  | Err e => ((Ret (-1), log (EvMunmap addr len (Err e)) (set_errno e s)), [])
  end.

(** [fork]: the parent gets the child's pid (or -1), the child gets 0
    and goes on from the same point in a copy of the parent's state. *)
Definition fork : M Z := fun s =>
  match os_fork env (st_nfork s) with
  | Ok pid =>
      ((Ret (Z.pos pid),
        log (EvFork (Ok pid)) (tick_fork (set_children (st_children s ++ [pid]) s))),
       [(Ret 0, child_of s)])
  | Err e => ((Ret (-1), log (EvFork (Err e)) (tick_fork (set_errno e s))), [])
  end.

Definition sleep (secs : Z) : M Z := fun s => ((Ret 0, log (EvSleep secs) s), []).

(** [wait(&wstatus)]: without children it fails with [ECHILD]; else the
    oracle picks the child that is reaped, or fails.  The children are
    all those of the process: the ones it had when [main] started as
    well as the ones it created since. *)
Definition wait : M Z := fun s =>
  match st_children s with
  | [] => ((Ret (-1), log (EvWait (Err ECHILD)) (tick_wait (set_errno ECHILD s))), [])
  | c :: cs =>
      match os_wait env (st_nwait s) with
      | Ok j =>
          let i := (j mod List.length (c :: cs))%nat in
          let pid := nth i (c :: cs) c in
          ((Ret (Z.pos pid),
            log (EvWait (Ok pid)) (tick_wait (set_children (delete i (c :: cs)) s))), [])
      | Err e => ((Ret (-1), log (EvWait (Err e)) (tick_wait (set_errno e s))), [])
      end
  end.

End Calls.

(** ** The program *)

Definition ALLOC_MB : Z := 64.
Definition NUM_CHLD : Z := 16.

(** [const size_t length = ALLOC_MB*(1024*1024)]: computed in [int],
    then converted. *)
Definition main_length : Z :=
  to_size_t (wrap_int (ALLOC_MB * wrap_int (1024 * 1024))).

(** [const char *memstr] of [print_mem_commit]. *)
Definition memstr : string := "Committed_AS:".

(** [argv[k]]; past the end it is the NULL that closes the vector. *)
Definition argv_at (argv : list string) (k : nat) : option string := argv !! k.

(** A NULL pointer handed to [strcmp] ends the process. *)
Definition strcmp_ptr (a : option string) (b : string) : M Z :=
  match a with
  | Some s => ret (strcmp s b)
  | None => halt (Killed SIGSEGV)
  end.

Section Program.

Variable env : os_env.

Definition handle_error {A} (msg : string) : M A :=
  perror env msg ;; exit EXIT_FAILURE.

Definition print_mem_commit (msg : string) : M unit :=
  fp <- fopen env "/proc/meminfo" "r" ;;
  when (bool_decide (fp = None)) (handle_error "file open") ;;
  n <- unread fp ;;
  loop (S n) (fun _ : unit =>
    r <- fgets 100 fp ;;
    match r with
    | None => ret None
    | Some buf =>
        when (bool_decide (strncmp buf memstr (strlen memstr) = 0))
          (fprintf STDOUT
             (fmt_s (strtok (c_str buf) nl) +:+ "    (" +:+ fmt_s (Some msg)
              +:+ ")" +:+ nl)) ;;
        ret (Some tt)
    end) tt ;;
  fclose fp.

Definition usage {A} (argv : list string) : M A :=
  fprintf STDERR (fmt_s (argv_at argv 0) +:+ " [ --shared | --private ]" +:+ nl) ;;
  exit EXIT_FAILURE.

(** The loop of lines 98-99: [for (p = addr, i = 0; i < length / sizeof *p;
    p++, i++) *p = i;].  [i] is an [int], compared as a [size_t]. *)
Definition init_loop (addr : Z) : M (Z * Z) :=
  loop (S (Z.to_nat (main_length / sizeof_int)))
    (fun '(p, i) =>
       if bool_decide (to_size_t i < main_length / sizeof_int)
       then store_int p i ;; ret (Some (p + sizeof_int, wrap_int (i + 1)))
       else ret None)
    (addr, 0).

(** The loop of lines 106-113. *)
Definition fork_loop : M Z :=
  loop (S (Z.to_nat NUM_CHLD))
    (fun i =>
       if bool_decide (i < NUM_CHLD)
       then
         chld <- fork env ;;
         when (bool_decide (chld = 0)) (sleep 3 ;; exit EXIT_SUCCESS) ;;
         when (bool_decide (chld = -1)) (handle_error "fork") ;;
         ret (Some (wrap_int (i + 1)))
       else ret None)
    0.

(** The loop of lines 116-119. *)
Definition wait_loop : M Z :=
  loop (S (Z.to_nat NUM_CHLD))
    (fun i =>
       if bool_decide (i < NUM_CHLD)
       then
         w <- wait env ;;
         when (bool_decide (w = -1)) (handle_error "wait") ;;
         ret (Some (wrap_int (i + 1)))
       else ret None)
    0.

Definition main (argv : list string) : M Z :=
  let argc := Z.of_nat (List.length argv) in
  when (bool_decide (argc <> 2)) (usage argv) ;;
  c1 <- strcmp_ptr (argv_at argv 1) "--shared" ;;
  shared <-
    (if bool_decide (c1 = 0) then ret 1
     else
       c2 <- strcmp_ptr (argv_at argv 1) "--private" ;;
       if bool_decide (c2 = 0) then ret 0 else usage argv) ;;
  fprintf STDOUT ("Test dnsmasq OOM: memory allocation and forking" +:+ nl) ;;
  fprintf STDOUT
    ("(allocate " +:+ fmt_u ALLOC_MB +:+ " MB "
     +:+ (if bool_decide (shared <> 0) then "shared" else "private")
     +:+ " anonymous, fork " +:+ fmt_u NUM_CHLD +:+ " processes)" +:+ nl) ;;
  print_mem_commit "initial state" ;;
  addr <- mmap env 0 main_length (Z.lor PROT_READ PROT_WRITE)
            (Z.lor MAP_ANONYMOUS
               (if bool_decide (shared <> 0) then MAP_SHARED else MAP_PRIVATE))
            (-1) 0 ;;
  when (bool_decide (addr = MAP_FAILED)) (handle_error "mmap") ;;
  print_mem_commit "parent mem allocated" ;;
  init_loop addr ;;
  print_mem_commit "parent mem initialized" ;;
  r <- mprotect env addr main_length PROT_READ ;;
  when (bool_decide (r = -1)) (handle_error "mprotect") ;;
  print_mem_commit "parent mem set-readonly" ;;
  fork_loop ;;
  print_mem_commit "parent forked children" ;;
  wait_loop ;;
  print_mem_commit "parent reaped children" ;;
  munmap env addr main_length ;;
  print_mem_commit "parent mem unmapped" ;;
  exit EXIT_SUCCESS.

(** The process when [main] starts: it has done nothing yet, but it may
    have children already. *)
Definition start_state : state := set_children (os_children env) init_state.

(** The program started by the shell. *)
Definition run (argv : list string) : result Z * list (result Z) :=
  main argv start_state.

End Program.

(** ** What an observer sees of a process *)

(** The texts a process wrote on stream [fd], one per [fprintf] or
    [perror], in order. *)
Definition written (fd : Z) (e : event) : option string :=
  match e with
  | EvWrite fd' data => if bool_decide (fd' = fd) then Some data else None
  | _ => None
  end.

Definition writes (fd : Z) (t : list event) : list string := omap (written fd) t.

(** All of it as one text. *)
Definition output (fd : Z) (t : list event) : string :=
  foldr String.app EmptyString (writes fd t).

Definition exit_status {A} (r : result A) : option Z :=
  match r.1 with
  | Stop (Exited c) => Some c
  | _ => None
  end.

Definition trace_of {A} (r : result A) : list event := st_trace r.2.

(** ** The initialisation in closed form *)

(** The address of slot [k] of an [int] array at [addr]. *)
Definition slot_addr (addr : Z) (k : nat) : Z := addr + sizeof_int * Z.of_nat k.

(** Storing [k] into slot [k], for the first [n] slots in turn. *)
Definition init_stores (addr : Z) (n : nat) : list event :=
  (fun k => EvStore (slot_addr addr k) (Z.of_nat k)) <$> seq 0 n.

Definition init_mem (addr : Z) (n : nat) (m : gmap Z Z) : gmap Z Z :=
  foldl (fun m k => <[slot_addr addr k := Z.of_nat k]> m) m (seq 0 n).

(** The number of slots of the region, [length / sizeof(int)].  It is a
    large number in unary: it is sealed, and used through
    [main_slots_unfold] only. *)
Definition main_slots_sealed :
  { n : nat | n = Z.to_nat (main_length / sizeof_int) }.
Proof. eexists. reflexivity. Qed.

Definition main_slots : nat := proj1_sig main_slots_sealed.

Definition main_slots_unfold : main_slots = Z.to_nat (main_length / sizeof_int) :=
  proj2_sig main_slots_sealed.

(** ** The reporter in closed form *)

(** The buffers that successive calls [fgets(buf, 100, fp)] fill when
    the stream holds [rest]; [fuel] bounds their number. *)
Fixpoint bufs (fuel : nat) (rest : string) : list string :=
  match fuel with
  | O => []
  | S fuel' =>
      match fgets_bytes 100 rest with
      | Some (buf, rest') => buf :: bufs fuel' rest'
      | None => []
      end
  end.

Definition file_bufs (content : string) : list string :=
  bufs (String.length content) content.

(** The test of line 53 and the text printed by line 54. *)
Definition is_metric (buf : string) : bool :=
  bool_decide (strncmp buf memstr (strlen memstr) = 0).

Definition report_line (msg buf : string) : string :=
  fmt_s (strtok (c_str buf) nl) +:+ "    (" +:+ fmt_s (Some msg) +:+ ")" +:+ nl.

(** What one call of the reporter prints for a file with these contents,
    one entry per [fprintf]. *)
Definition report (msg content : string) : list string :=
  report_line msg <$> filter (fun b => is_metric b = true) (file_bufs content).

(** * The vocabulary of the statements

    What follows names the things the theorems talk about: texts and
    lines, the events of the reporter and of the stages of a run, the
    logic used to walk through the program, and a few concrete
    machines. *)

(** ** Texts *)

Fixpoint nul_free (s : string) : Prop :=
  match s with
  | EmptyString => True
  | String c r => c <> NUL /\ nul_free r
  end.

(** The number of newline characters of a text. *)
Fixpoint count_nl (s : string) : nat :=
  match s with
  | EmptyString => 0
  | String c r => (if decide (c = NL) then 1 else 0) + count_nl r
  end.

(** A text that is one line: no newline but the one that ends it. *)
Definition one_line (s : string) : Prop :=
  exists body, s = body +:+ nl /\ count_nl body = 0%nat.

(** The lines of a text, without the newlines that end them. *)
Fixpoint split_lines (s : string) : list string :=
  match s with
  | EmptyString => []
  | String c r =>
      if decide (c = NL) then EmptyString :: split_lines r
      else match split_lines r with
           | [] => [String c EmptyString]
           | l :: ls => String c l :: ls
           end
  end.

(** Does [s] start with [p]? *)
Fixpoint starts_with (p s : string) : bool :=
  match p, s with
  | EmptyString, _ => true
  | String x p', String y s' => if decide (x = y) then starts_with p' s' else false
  | String _ _, EmptyString => false
  end.

(** The lines of the text fit the buffer of the reporter: at most 98
    characters before the newline. *)
Definition text_fits (content : string) : Prop :=
  Forall (fun l => (String.length l <= 98)%nat) (split_lines content).

(** What the reporter prints for a line [l] under label [msg]. *)
Definition labelled (msg l : string) : string :=
  l +:+ "    (" +:+ c_str msg +:+ ")" +:+ nl.

(** The lines of a text that start with the metric name, in order. *)
Definition metric_lines (content : string) : list string :=
  filter (fun l => starts_with memstr l = true) (split_lines content).

Global Instance nul_free_dec s : Decision (nul_free s).
Proof. induction s; simpl; apply _. Defined.

Global Instance text_fits_dec c : Decision (text_fits c).
Proof. unfold text_fits. apply _. Defined.

(** ** Weakest preconditions

    [wp m Q E Qc Ec s]: run from [s], the process itself ends in a state
    that satisfies [Q] (when [m] returns) or [E] (when it stops), and so
    does every process forked off on the way, with [Qc] and [Ec]. *)

Definition post {A} (Q : A -> state -> Prop) (E : stop -> state -> Prop)
    (r : result A) : Prop :=
  match r with
  | (Ret a, s) => Q a s
  | (Stop h, s) => E h s
  end.

Definition wp {A} (m : M A) (Q : A -> state -> Prop) (E : stop -> state -> Prop)
    (Qc : A -> state -> Prop) (Ec : stop -> state -> Prop) (s : state) : Prop :=
  post Q E (m s).1 /\ Forall (post Qc Ec) (m s).2.

Definition never {A} : A -> state -> Prop := fun _ _ => False.

(** [frame s s']: the mapping, the children and the counts of [fork] and
    [wait] calls are the same in [s] and [s']. *)
Record frame (s s' : state) : Prop := {
  fr_region : st_region s' = st_region s;
  fr_children : st_children s' = st_children s;
  fr_depth : st_depth s' = st_depth s;
  fr_nfork : st_nfork s' = st_nfork s;
  fr_nwait : st_nwait s' = st_nwait s
}.

(** What the program needs of the region to initialise it: the region
    just mapped, readable and writable. *)
Definition region_rw (addr : Z) (s : state) : Prop :=
  exists r, st_region s = Some r /\ rg_base r = addr /\ rg_len r = main_length
            /\ Z.land (rg_prot r) PROT_WRITE <> 0.

(** ** Calls and their events *)

(** The region after a successful [mprotect] and [munmap]. *)
Definition protect_region (addr len prot : Z) (o : option region) : option region :=
  match o with
  | Some r =>
      if bool_decide (rg_base r = addr /\ rg_len r = len)
      then Some {| rg_base := rg_base r; rg_len := rg_len r;
                   rg_prot := prot; rg_flags := rg_flags r |}
      else Some r
  | None => None
  end.

Definition unmap_region (addr len : Z) (o : option region) : option region :=
  match o with
  | Some r => if bool_decide (rg_base r = addr /\ rg_len r = len) then None else Some r
  | None => None
  end.

(** The child a [wait] reaps among [cs], and the children left. *)
Definition reaped (j : nat) (cs : list positive) : positive :=
  nth (j mod List.length cs) cs 1%positive.

Definition unreaped (j : nat) (cs : list positive) : list positive :=
  delete (j mod List.length cs)%nat cs.

(** The children that [n] calls of [wait] in a row reap among [cs], the
    first of them being the [k]-th [wait] of the process: one child per
    call, up to the first call that fails. *)
Fixpoint reaps (env : os_env) (k n : nat) (cs : list positive) : list positive :=
  match n with
  | O => []
  | S n' =>
      match cs, os_wait env k with
      | _ :: _, Ok j => reaped j cs :: reaps env (S k) n' (unreaped j cs)
      | _, _ => []
      end
  end.
Arguments reaps : simpl never.

Definition pmc_events (k : nat) (msg content : string) : list event :=
  EvFopen "/proc/meminfo" "r" (Ok k)
  :: (EvWrite STDOUT <$> report msg content) ++ [EvFclose k].

(** The resource-acquisition calls that failed, with the message the
    program hands to [perror] for each and the [errno] of the failure. *)
Definition failure_of (e : event) : option (string * Z) :=
  match e with
  | EvFopen _ _ (Err n) => Some ("file open", n)
  | EvMmap _ _ _ _ _ _ (Err n) => Some ("mmap", n)
  | EvMprotect _ _ _ (Err n) => Some ("mprotect", n)
  | EvFork (Err n) => Some ("fork", n)
  | EvWait (Err n) => Some ("wait", n)
  | _ => None
  end.

Definition is_ok {A} (r : sysres A) : bool :=
  match r with
  | Ok _ => true
  | Err _ => false
  end.

Definition is_child_call (e : event) : bool :=
  match e with
  | EvFork _ | EvWait _ | EvMunmap _ _ _ => true
  | _ => false
  end.

(** The child a successful [fork] created, the child a successful
    [wait] collected. *)
Definition fork_pid (e : event) : option positive :=
  match e with
  | EvFork (Ok pid) => Some pid
  | _ => None
  end.

Definition wait_pid (e : event) : option positive :=
  match e with
  | EvWait (Ok pid) => Some pid
  | _ => None
  end.

(** The children a process created, and the children it collected, in
    the order of the calls. *)
Definition created (t : list event) : list positive := omap fork_pid t.

Definition collected (t : list event) : list positive := omap wait_pid t.

Definition is_mmap (e : event) : bool :=
  match e with
  | EvMmap _ _ _ _ _ _ _ => true
  | _ => false
  end.

(** The [mmap] calls of a trace. *)
Definition mmap_calls (t : list event) : list event :=
  filter (fun e => is_mmap e = true) t.

Definition is_store (e : event) : bool :=
  match e with
  | EvStore _ _ => true
  | _ => false
  end.

(** A protection change that took effect. *)
Definition is_protect_ok (e : event) : bool :=
  match e with
  | EvMprotect _ _ _ (Ok _) => true
  | _ => false
  end.

(** The [n] slots of the [int] array at [addr], read back. *)
Definition read_region (s : state) (addr : Z) (n : nat) : list Z :=
  (fun k => default 0 (st_mem s !! slot_addr addr k)) <$> seq 0 n.

Section CallEvents.

Variable env : os_env.

(** The line [perror] prints for [msg] when [errno] is [e]. *)
Definition perror_text (msg : string) (e : Z) : string :=
  (match c_str msg with EmptyString => EmptyString | m => m +:+ ": " end)
  +:+ os_strerror env e +:+ nl.

(** The events of one call of the reporter, when [fopen] fails with [e]
    and when it gives stream [k] over [content]. *)
Definition pmc_failure (e : Z) : list event :=
  [EvFopen "/proc/meminfo" "r" (Err e);
   EvWrite STDERR (perror_text "file open" e);
   EvExit EXIT_FAILURE].

(** The events of a fatal failure: the call that failed, the line of
    [perror], the exit. *)
Definition fatal (e : event) (msg : string) (errno : Z) : list event :=
  [e; EvWrite STDERR (perror_text msg errno); EvExit EXIT_FAILURE].

(** [pids] are the children that forks number [k0], [k0 + 1], ... give. *)
Definition forks_ok (k0 : nat) (pids : list positive) : Prop :=
  forall j pid, pids !! j = Some pid -> os_fork env (k0 + j) = Ok pid.

End CallEvents.

(** ** The runs of the program, stage by stage

    After its arguments are accepted the program goes through a fixed
    list of stages.  A stage either succeeds, and the next one starts, or
    fails fatally, and the process is over.  [runs] lists, for what is
    left of the script, the traces the process can still leave and the
    exit status that goes with each. *)

Inductive stage : Type :=
| SBanner
| SReport (k : nat) (msg : string)
| SMmap
| SInit
| SProtect
| SForks
| SWaits
| SUnmap.

Definition script : list stage :=
  [SBanner; SReport 0 "initial state"; SMmap; SReport 1 "parent mem allocated";
   SInit; SReport 2 "parent mem initialized"; SProtect;
   SReport 3 "parent mem set-readonly"; SForks;
   SReport 4 "parent forked children"; SWaits;
   SReport 5 "parent reaped children"; SUnmap;
   SReport 6 "parent mem unmapped"].

(** The mode word of the banner and the flag of the mapping. *)
Definition mode_word (shared : bool) : string :=
  if shared then "shared" else "private".

Definition mode_flag (shared : bool) : Z :=
  if shared then MAP_SHARED else MAP_PRIVATE.

Definition banner (shared : bool) : list string :=
  ["Test dnsmasq OOM: memory allocation and forking" +:+ nl;
   "(allocate " +:+ fmt_u ALLOC_MB +:+ " MB " +:+ mode_word shared
   +:+ " anonymous, fork " +:+ fmt_u NUM_CHLD +:+ " processes)" +:+ nl].

(** Lines 79-84: how [argv[1]] selects the mode. *)
Definition parse_mode (a : string) : option bool :=
  if bool_decide (strcmp a "--shared" = 0) then Some true
  else if bool_decide (strcmp a "--private" = 0) then Some false
  else None.

(** The text of [usage]. *)
Definition usage_text (argv : list string) : string :=
  fmt_s (argv_at argv 0) +:+ " [ --shared | --private ]" +:+ nl.

Definition usage_state (env : os_env) (argv : list string) : state :=
  log (EvExit EXIT_FAILURE) (log (EvWrite STDERR (usage_text argv)) (start_state env)).

Section Runs.

Variable env : os_env.
Variable shared : bool.

(** The address [mmap] returns when it succeeds. *)
Definition env_addr : Z :=
  match os_mmap env with
  | Ok pg => Z.of_N pg * PAGE_SIZE
  | Err _ => MAP_FAILED
  end.

Definition mmap_event (res : sysres Z) : event :=
  EvMmap 0 main_length (Z.lor PROT_READ PROT_WRITE)
    (Z.lor MAP_ANONYMOUS (mode_flag shared)) (-1) 0 res.

Definition mprotect_event (res : sysres unit) : event :=
  EvMprotect env_addr main_length PROT_READ res.

Inductive stage_ok : stage -> list event -> Prop :=
| ok_banner : stage_ok SBanner (EvWrite STDOUT <$> banner shared)
| ok_report k msg c :
    os_fopen env k "/proc/meminfo" = Ok c ->
    stage_ok (SReport k msg) (pmc_events k msg c)
| ok_mmap pg :
    os_mmap env = Ok pg -> stage_ok SMmap [mmap_event (Ok env_addr)]
| ok_init : stage_ok SInit (init_stores env_addr main_slots)
| ok_protect :
    os_mprotect env = Ok tt -> stage_ok SProtect [mprotect_event (Ok tt)]
| ok_forks pids :
    List.length pids = 16%nat -> forks_ok env 0 pids ->
    stage_ok SForks (EvFork ∘ Ok <$> pids)
| ok_waits pids rs :
    List.length pids = 16%nat -> forks_ok env 0 pids ->
    rs = reaps env 0 16 (os_children env ++ pids) -> List.length rs = 16%nat ->
    stage_ok SWaits (EvWait ∘ Ok <$> rs)
| ok_unmap : stage_ok SUnmap [EvMunmap env_addr main_length (os_munmap env)].

Inductive stage_fail : stage -> list event -> Prop :=
| fail_report k msg e :
    os_fopen env k "/proc/meminfo" = Err e ->
    stage_fail (SReport k msg) (pmc_failure env e)
| fail_mmap e :
    os_mmap env = Err e ->
    stage_fail SMmap (fatal env (mmap_event (Err e)) "mmap" e)
| fail_protect e :
    os_mprotect env = Err e ->
    stage_fail SProtect (fatal env (mprotect_event (Err e)) "mprotect" e)
| fail_forks pids e :
    (List.length pids < 16)%nat -> forks_ok env 0 pids ->
    os_fork env (List.length pids) = Err e ->
    stage_fail SForks ((EvFork ∘ Ok <$> pids) ++ fatal env (EvFork (Err e)) "fork" e)
| fail_waits rs e :
    (List.length rs < 16)%nat ->
    os_wait env (List.length rs) = Err e ->
    stage_fail SWaits ((EvWait ∘ Ok <$> rs) ++ fatal env (EvWait (Err e)) "wait" e).

Inductive runs : list stage -> list event -> Z -> Prop :=
| runs_done : runs [] [EvExit EXIT_SUCCESS] EXIT_SUCCESS
| runs_ok st rest l t code :
    stage_ok st l -> runs rest t code -> runs (st :: rest) (l ++ t) code
| runs_fail st rest l :
    stage_fail st l -> runs (st :: rest) l EXIT_FAILURE.

(** How a process of the program ends: the process started by the shell
    after one of the runs of the script, a child after its nap. *)
Definition final (h : stop) (s : state) : Prop :=
  exists code, h = Exited code /\ runs script (st_trace s) code
               /\ st_depth s = 0%nat.

Definition final_child (h : stop) (s : state) : Prop :=
  h = Exited EXIT_SUCCESS /\ st_trace s = [EvSleep 3; EvExit EXIT_SUCCESS]
  /\ st_depth s = 1%nat.

(** The process is about to start what is left of the script. *)
Definition at_stage (rest : list stage) (s : state) : Prop :=
  st_depth s = 0%nat
  /\ forall t code, runs rest t code ->
       runs script (st_trace s ++ t) code.

(** The events a stage leaves when it succeeds. *)
Definition allowed_ok (st : stage) (e : event) : Prop :=
  match st with
  | SBanner => exists d, e = EvWrite STDOUT d
  | SReport k msg =>
      e = EvFopen "/proc/meminfo" "r" (Ok k)
      \/ (exists d, e = EvWrite STDOUT d) \/ e = EvFclose k
  | SMmap => e = mmap_event (Ok (env_addr))
  | SInit => exists k, e = EvStore (slot_addr (env_addr) k) (Z.of_nat k)
  | SProtect => e = mprotect_event (Ok tt)
  | SForks => exists pid, e = EvFork (Ok pid)
  | SWaits => exists pid, e = EvWait (Ok pid)
  | SUnmap => e = EvMunmap (env_addr) main_length (os_munmap env)
  end.

(** The call that fails when a stage fails. *)
Definition allowed_fail (st : stage) (f : event) : Prop :=
  match st with
  | SReport k msg => exists n, f = EvFopen "/proc/meminfo" "r" (Err n)
  | SMmap => exists n, f = mmap_event (Err n)
  | SProtect => exists n, f = mprotect_event (Err n)
  | SForks => exists n, f = EvFork (Err n)
  | SWaits => exists n, f = EvWait (Err n)
  | _ => False
  end.

End Runs.

(** ** The run in which every request is granted *)

(** Everything the program asks for and checks is granted: the seven
    [fopen], [mmap], [mprotect], sixteen [fork] and sixteen [wait].
    ([munmap] is not among them.) *)
Definition succeeds (env : os_env) : bool :=
  forallb (fun k => is_ok (os_fopen env k "/proc/meminfo")) (seq 0 7)
  && is_ok (os_mmap env) && is_ok (os_mprotect env)
  && forallb (fun k => is_ok (os_fork env k)) (seq 0 16)
  && forallb (fun k => is_ok (os_wait env k)) (seq 0 16).

(** What the accounting source holds when it is opened for the [k]-th
    checkpoint. *)
Definition meminfo_at (env : os_env) (k : nat) : string :=
  match os_fopen env k "/proc/meminfo" with
  | Ok c => c
  | Err _ => EmptyString
  end.

(** The labels of the checkpoints, in the order of the calls. *)
Definition checkpoints : list string :=
  ["initial state"; "parent mem allocated"; "parent mem initialized";
   "parent mem set-readonly"; "parent forked children";
   "parent reaped children"; "parent mem unmapped"].

Section SuccessTrace.

Variable env : os_env.
Variable shared : bool.

Definition checkpoint_events (k : nat) (msg : string) : list event :=
  pmc_events k msg (meminfo_at env k).

(** The trace of the run that reaches [exit(EXIT_SUCCESS)], when the
    forks give [pids] and the waits reap [rs]. *)
Definition success_trace (pids rs : list positive) : list event :=
  (EvWrite STDOUT <$> banner shared)
  ++ checkpoint_events 0 "initial state"
  ++ [mmap_event shared (Ok (env_addr env))]
  ++ checkpoint_events 1 "parent mem allocated"
  ++ init_stores (env_addr env) main_slots
  ++ checkpoint_events 2 "parent mem initialized"
  ++ [mprotect_event env (Ok tt)]
  ++ checkpoint_events 3 "parent mem set-readonly"
  ++ (EvFork ∘ Ok <$> pids)
  ++ checkpoint_events 4 "parent forked children"
  ++ (EvWait ∘ Ok <$> rs)
  ++ checkpoint_events 5 "parent reaped children"
  ++ [EvMunmap (env_addr env) main_length (os_munmap env)]
  ++ checkpoint_events 6 "parent mem unmapped"
  ++ [EvExit EXIT_SUCCESS].

End SuccessTrace.

(** The memory-commit lines of a complete run: for each checkpoint in
    turn, what the reporter prints for the contents the accounting source
    has then. *)
Definition commit_lines (env : os_env) : list string :=
  mjoin (imap (fun k msg => report msg (meminfo_at env k)) checkpoints).

(** The number of buffers of a reading that hold the metric. *)
Definition metric_count (content : string) : nat :=
  List.length (filter (fun b => is_metric b = true) (file_bufs content)).

(** ** Events of a run *)

Definition is_exit (e : event) : bool :=
  match e with
  | EvExit _ => true
  | _ => false
  end.

Definition is_fclose (e : event) : bool :=
  match e with
  | EvFclose _ => true
  | _ => false
  end.

(** The calls that open or close a stream. *)
Definition is_stream_call (e : event) : bool :=
  match e with
  | EvFopen _ _ _ | EvFclose _ => true
  | _ => false
  end.

(** The checkpoints a process has completed: one [fclose] each. *)
Definition completed (t : list event) : nat :=
  List.length (filter (fun e => is_fclose e = true) t).

Definition is_fork_ok (e : event) : bool :=
  match e with
  | EvFork (Ok _) => true
  | _ => false
  end.

(** The number of children a process has created. *)
Definition nforks (t : list event) : nat :=
  List.length (filter (fun e => is_fork_ok e = true) t).

Arguments nforks : simpl never.

(** The stream calls of [j] completed checkpoints: each stream is
    closed before the next is opened. *)
Definition stream_calls (j : nat) : list event :=
  flat_map (fun k => [EvFopen "/proc/meminfo" "r" (Ok k); EvFclose k]) (seq 0 j).

(** The failed [fopen], if there is one. *)
Definition failed_open (o : option Z) : list event :=
  match o with
  | Some e => [EvFopen "/proc/meminfo" "r" (Err e)]
  | None => []
  end.

(** ** Stages completed *)

Definition is_report (st : stage) : bool :=
  match st with
  | SReport _ _ => true
  | _ => false
  end.

(** The number of checkpoints among some stages. *)
Definition nreports (l : list stage) : nat :=
  List.length (filter (fun st => is_report st = true) l).

(** What each checkpoint prints, checkpoint by checkpoint. *)
Definition reports (env : os_env) : list (list string) :=
  imap (fun k msg => report msg (meminfo_at env k)) checkpoints.

(** What a stage that succeeds prints, and the stream calls it makes. *)
Definition stage_out (env : os_env) (shared : bool) (st : stage) : list string :=
  match st with
  | SBanner => banner shared
  | SReport k msg => report msg (meminfo_at env k)
  | _ => []
  end.

Definition stage_streams (st : stage) : list event :=
  match st with
  | SReport k _ => [EvFopen "/proc/meminfo" "r" (Ok k); EvFclose k]
  | _ => []
  end.

(** ** Pieces of the accounting source *)

(** A piece read by [fgets(buf, 100, fp)]: one to 99 bytes, with no
    newline except, possibly, as its last byte. *)
Definition piece (b : string) : Prop :=
  (1 <= String.length b <= 99)%nat /\ (count_nl b = 0%nat \/ one_line b).

(** A piece that [fgets] did not cut short for want of bytes: it ends
    with a newline or fills the buffer. *)
Definition full_piece (b : string) : Prop :=
  one_line b \/ String.length b = 99%nat.

(** ** The requests of a run *)

(** The answer to a request that the program checks: when it is a
    refusal, [msg] is what the program hands to [perror]. *)
Definition check {A} (msg : string) (r : sysres A) (rest : option (string * Z)) :
    option (string * Z) :=
  match r with
  | Ok _ => rest
  | Err e => Some (msg, e)
  end.

(** The requests number [k], [k + 1], ..., [n] of them. *)
Fixpoint check_all {A} (msg : string) (f : nat -> sysres A) (k n : nat)
    (rest : option (string * Z)) : option (string * Z) :=
  match n with
  | O => rest
  | S n' => check msg (f k) (check_all msg f (S k) n' rest)
  end.

(** The first request that the system refuses, in the order in which
    [main] makes its requests, with the message for it and the [errno]. *)
Definition first_failure (env : os_env) : option (string * Z) :=
  let report k := check "file open" (os_fopen env k "/proc/meminfo") in
  report 0%nat
    (check "mmap" (os_mmap env)
       (report 1%nat
          (report 2%nat
             (check "mprotect" (os_mprotect env)
                (report 3%nat
                   (check_all "fork" (os_fork env) 0 16
                      (report 4%nat
                         (check_all "wait" (os_wait env) 0 16
                            (report 5%nat (report 6%nat None)))))))))).

(** ** Processes and their children *)

(** A forked process that has stopped: how, and in which state. *)
Definition kid : Type := stop * state.

Definition stopped {A} (k : kid) : result A := (Stop k.1, k.2).

(** [wpk m Q E s]: as [wp], for a computation whose forked processes have
    all stopped when it is over; the postconditions see them, last
    forked first. *)
Definition wpk {A} (m : M A) (Q : A -> state -> list kid -> Prop)
    (E : stop -> state -> list kid -> Prop) (s : state) : Prop :=
  exists ks, (m s).2 = stopped <$> ks
             /\ match (m s).1 with
                | (Ret a, s') => Q a s' ks
                | (Stop h, s') => E h s' ks
                end.

(** A child forked from a process in state [s]: it has the memory of
    [s], has slept and exited, and has no child of its own. *)
Definition born (s : state) (k : kid) : Prop :=
  k.1 = Exited EXIT_SUCCESS
  /\ st_trace k.2 = [EvSleep 3; EvExit EXIT_SUCCESS]
  /\ st_depth k.2 = S (st_depth s)
  /\ st_children k.2 = []
  /\ st_region k.2 = st_region s
  /\ st_mem k.2 = st_mem s.

(** The region as the children find it: read-only. *)
Definition heir_region (env : os_env) (shared : bool) : region :=
  {| rg_base := env_addr env; rg_len := main_length; rg_prot := PROT_READ;
     rg_flags := Z.lor MAP_ANONYMOUS (mode_flag shared) |}.

(** A child of the program. *)
Definition heir (env : os_env) (shared : bool) (k : kid) : Prop :=
  k.1 = Exited EXIT_SUCCESS
  /\ st_trace k.2 = [EvSleep 3; EvExit EXIT_SUCCESS]
  /\ st_depth k.2 = 1%nat
  /\ st_children k.2 = []
  /\ st_region k.2 = Some (heir_region env shared)
  /\ exists m, st_mem k.2 = init_mem (env_addr env) main_slots m.

(** How the process started by the shell ends, with the children it
    created. *)
Definition exit_kids (env : os_env) (shared : bool)
    (h : stop) (s : state) (ks : list kid) : Prop :=
  exists code,
    h = Exited code
    /\ nforks (st_trace s) = List.length ks
    /\ (List.length ks <= 16)%nat
    /\ Forall (heir env shared) ks
    /\ (code = EXIT_SUCCESS -> List.length ks = 16%nat /\ succeeds env = true)
    /\ (code = EXIT_FAILURE ->
        exists t0 f msg e,
          st_trace s = t0 ++ fatal env f msg e /\ failure_of f = Some (msg, e)
          /\ first_failure env = Some (msg, e)).

(** ** Concrete machines *)

(** A report with the metric on its fifth line. *)
Definition demo_meminfo : string :=
  "MemTotal:        8046508 kB" +:+ nl +:+
  "MemFree:         1316108 kB" +:+ nl +:+
  "CommitLimit:     6120400 kB" +:+ nl +:+
  "Committed_AS:    9824716 kB" +:+ nl +:+
  "VmallocTotal:   34359738367 kB" +:+ nl.

Definition demo_env : os_env :=
  {| os_fopen := fun _ _ => Ok demo_meminfo;
     os_mmap := Ok 34359738368%N;
     os_mprotect := Ok tt;
     os_fork := fun k => Ok (Pos.of_nat (4000 + k));
     os_children := [];
     os_wait := fun k => Ok (5 * k)%nat;
     os_munmap := Ok tt;
     os_strerror := fun e => "Error " +:+ pretty e |}.

(** A machine that is out of memory: [mmap] fails with ENOMEM. *)
Definition enomem_env : os_env :=
  {| os_fopen := os_fopen demo_env;
     os_mmap := Err 12;
     os_mprotect := os_mprotect demo_env;
     os_fork := os_fork demo_env;
     os_children := os_children demo_env;
     os_wait := os_wait demo_env;
     os_munmap := os_munmap demo_env;
     os_strerror := fun e => if decide (e = 12) then "Cannot allocate memory"
                             else "Error " +:+ pretty e |}.

(** A machine on which [munmap] fails with EINVAL, and nothing else
    fails. *)
Definition einval_unmap_env : os_env :=
  {| os_fopen := os_fopen demo_env;
     os_mmap := os_mmap demo_env;
     os_mprotect := os_mprotect demo_env;
     os_fork := os_fork demo_env;
     os_children := os_children demo_env;
     os_wait := os_wait demo_env;
     os_munmap := Err 22;
     os_strerror := os_strerror demo_env |}.

(** A machine whose accounting source always holds [content]. *)
Definition file_env (content : string) : os_env :=
  {| os_fopen := fun _ _ => Ok content;
     os_mmap := os_mmap demo_env;
     os_mprotect := os_mprotect demo_env;
     os_fork := os_fork demo_env;
     os_children := os_children demo_env;
     os_wait := os_wait demo_env;
     os_munmap := os_munmap demo_env;
     os_strerror := os_strerror demo_env |}.

(** A machine on which the process starts with a child of its own: the
    program that executed this one had created pid 77 before.  Every
    [wait] collects the oldest child there is. *)
Definition stepchild_env : os_env :=
  {| os_fopen := os_fopen demo_env;
     os_mmap := os_mmap demo_env;
     os_mprotect := os_mprotect demo_env;
     os_fork := os_fork demo_env;
     os_children := [77%positive];
     os_wait := fun _ => Ok 0%nat;
     os_munmap := os_munmap demo_env;
     os_strerror := os_strerror demo_env |}.

(** A report with a line of more than 99 bytes: the metric name stands
    at byte 100 of its first line. *)
Definition long_line_meminfo : string :=
  "SwapCached:                                                                      0 kB (none yet)   " +:+ "Committed_AS:      512 kB" +:+ nl.

(** A report with a NUL byte in the metric line. *)
Definition nul_meminfo : string :=
  "Committed_AS: 12" +:+ String NUL "34 kB" +:+ nl.

(** A report without the metric. *)
Definition no_metric_meminfo : string :=
  "MemTotal:        8046508 kB" +:+ nl +:+
  "MemFree:         1316108 kB" +:+ nl +:+
  "CommitLimit:     6120400 kB" +:+ nl.

(** A report of one line, longer than 99 bytes, that does not start
    with the metric name but holds it further on. *)
Definition wide_meminfo : string :=
  "VmallocChunk:                                                                          0 kB; note: " +:+ "Committed_AS: 0 kB" +:+ nl.

(** A state in which a region of the program's size is mapped at
    address 4096, readable and writable. *)
Definition mapped_state : state :=
  set_region (Some {| rg_base := 4096; rg_len := main_length;
                      rg_prot := Z.lor PROT_READ PROT_WRITE;
                      rg_flags := Z.lor MAP_ANONYMOUS MAP_PRIVATE |}) init_state.

(** * Reasoning about processes *)

(** ** The model at work *)

Example main_length_value : main_length = 67108864.
Proof. reflexivity. Qed.

Example strcmp_examples :
  strcmp "--shared" "--shared" = 0
  /\ strcmp "--share" "--shared" = -100
  /\ strcmp "--shared " "--shared" = 32
  /\ strncmp ("Committed_AS:    9824716 kB" +:+ nl) memstr (strlen memstr) = 0
  /\ strncmp ("CommitLimit:     6120400 kB" +:+ nl) memstr (strlen memstr) <> 0.
Proof. vm_compute. repeat split; discriminate. Qed.

Example strtok_examples :
  strtok ("Committed_AS: 1 kB" +:+ nl) nl = Some "Committed_AS: 1 kB"
  /\ strtok (nl +:+ nl +:+ "a" +:+ nl +:+ "b") nl = Some "a"
  /\ strtok nl nl = None.
Proof. vm_compute. repeat split. Qed.

Example fgets_examples :
  fgets_bytes 100 ("ab" +:+ nl +:+ "cd") = Some ("ab" +:+ nl, "cd")
  /\ fgets_bytes 100 "cd" = Some ("cd", EmptyString)
  /\ fgets_bytes 100 EmptyString = None
  /\ fgets_bytes 4 "abcdef" = Some ("abc", "def").
Proof. vm_compute. repeat split. Qed.

Example banner_text :
  banner true
  = ["Test dnsmasq OOM: memory allocation and forking" +:+ nl;
     "(allocate 64 MB shared anonymous, fork 16 processes)" +:+ nl].
Proof. vm_compute. reflexivity. Qed.

(** Started without arguments, [argv[0]] is all there is. *)
Example run_without_argument :
  run demo_env ["./oom_alloc"]
  = ((Stop (Exited 1),
      log (EvExit 1)
        (log (EvWrite STDERR ("./oom_alloc [ --shared | --private ]" +:+ nl))
           init_state)), []).
Proof. vm_compute. reflexivity. Qed.

(** Out of memory: the banner, the first checkpoint, then the failure. *)
Example run_out_of_memory :
  trace_of (run enomem_env ["./oom_alloc"; "--private"]).1
  = [EvWrite STDOUT ("Test dnsmasq OOM: memory allocation and forking" +:+ nl);
     EvWrite STDOUT ("(allocate 64 MB private anonymous, fork 16 processes)" +:+ nl);
     EvFopen "/proc/meminfo" "r" (Ok 0%nat);
     EvWrite STDOUT ("Committed_AS:    9824716 kB    (initial state)" +:+ nl);
     EvFclose 0%nat;
     EvMmap 0 67108864 3 34 (-1) 0 (Err 12);
     EvWrite STDERR ("mmap: Cannot allocate memory" +:+ nl);
     EvExit 1]
  /\ (run enomem_env ["./oom_alloc"; "--private"]).2 = [].
Proof. vm_compute. split; reflexivity. Qed.

(** [wait] collects a child of the process, whoever created it: here the
    child the process had before [main] started.  Without a child it
    fails. *)
Example wait_examples :
  let r := (wait stepchild_env (start_state stepchild_env)).1 in
  let r' := (wait demo_env (start_state demo_env)).1 in
  r.1 = Ret 77 /\ st_trace r.2 = [EvWait (Ok 77%positive)] /\ st_children r.2 = []
  /\ r'.1 = Ret (-1) /\ st_trace r'.2 = [EvWait (Err ECHILD)] /\ st_errno r'.2 = ECHILD.
Proof. vm_compute. repeat split; reflexivity. Qed.

(** ** Integers and strings *)

Lemma wrap_int_small z : INT_MIN <= z <= INT_MAX -> wrap_int z = z.
Proof.
  unfold INT_MIN, INT_MAX, wrap_int. intros Hz.
  rewrite Z.mod_small by lia. lia.
Qed.

Lemma to_size_t_small z : 0 <= z < 2 ^ 64 -> to_size_t z = z.
Proof. intros Hz. unfold to_size_t. now rewrite Z.mod_small. Qed.

Lemma main_length_eq : main_length = 67108864.
Proof. reflexivity. Qed.

Lemma main_slots_eq : main_length / sizeof_int = 16777216.
Proof. reflexivity. Qed.

Lemma uchar_inj x y : uchar x = uchar y -> x = y.
Proof.
  unfold uchar. intros H. apply N2Z.inj in H.
  rewrite <- (ascii_N_embedding x), <- (ascii_N_embedding y). now f_equal.
Qed.

Lemma uchar_NUL x : uchar x = 0 -> x = NUL.
Proof. intros H. apply uchar_inj. now rewrite H. Qed.

Lemma uchar_diff x y : x <> y -> uchar x - uchar y <> 0.
Proof. intros Hne H. apply Hne, uchar_inj. lia. Qed.

Lemma strcmp_eq a b : strcmp a b = 0 <-> c_str a = c_str b.
Proof.
  revert b. induction a as [|x a IH]; intros [|y b]; simpl.
  - tauto.
  - destruct (decide (y = NUL)) as [->|Hy]; [tauto|].
    split; [|discriminate]. intros H. destruct Hy. apply uchar_NUL. lia.
  - destruct (decide (x = NUL)) as [->|Hx]; [tauto|].
    split; [|discriminate]. intros H. destruct Hx. apply uchar_NUL. lia.
  - destruct (decide (x = y)) as [->|Hxy].
    + destruct (decide (y = NUL)); [tauto|]. rewrite IH.
      split; [congruence|]. now intros [= ?].
    + split.
      * intros H. now apply uchar_diff in Hxy.
      * destruct (decide (x = NUL)), (decide (y = NUL)); congruence.
Qed.

Lemma c_str_nul_free s : nul_free s -> c_str s = s.
Proof.
  induction s as [|c s IH]; simpl; [done|]. intros [Hc Hs].
  destruct (decide (c = NUL)); [done|]. now rewrite IH.
Qed.

(** [strncmp buf key (strlen key) = 0] says that the buffer starts with
    the key. *)
Lemma strncmp_prefix key buf :
  nul_free key ->
  strncmp buf key (String.length key) = 0 <-> exists r, buf = key +:+ r.
Proof.
  revert buf. induction key as [|k key IH]; intros buf Hk; simpl.
  - split; [|done]. intros _. now exists buf.
  - destruct Hk as [Hk Hkey]. destruct buf as [|x buf].
    + split; [|now intros [r [=]]]. intros H. destruct Hk. apply uchar_NUL. lia.
    + destruct (decide (x = k)) as [->|Hxk].
      * destruct (decide (k = NUL)); [done|]. rewrite IH by done.
        split; intros [r Hr]; exists r; [now rewrite Hr | now injection Hr].
      * split; [intros H; now apply uchar_diff in Hxk|].
        intros [r [= ? ?]]. done.
Qed.

(** ** Rules of the logic *)

Lemma post_mono {A} (Q Q' : A -> state -> Prop) (E E' : stop -> state -> Prop) r :
  (forall a s, Q a s -> Q' a s) -> (forall h s, E h s -> E' h s) ->
  post Q E r -> post Q' E' r.
Proof. destruct r as [[a|h] s]; simpl; auto. Qed.

Lemma wp_mono {A} (m : M A) Q Q' E E' Qc Qc' Ec Ec' s :
  wp m Q E Qc Ec s ->
  (forall a s', Q a s' -> Q' a s') -> (forall h s', E h s' -> E' h s') ->
  (forall a s', Qc a s' -> Qc' a s') -> (forall h s', Ec h s' -> Ec' h s') ->
  wp m Q' E' Qc' Ec' s.
Proof.
  intros [Hp Hc] HQ HE HQc HEc. split.
  - eapply post_mono; eauto.
  - eapply Forall_impl; [exact Hc|]. intros r. apply post_mono; auto.
Qed.

Lemma wp_ret {A} (a : A) Q E Qc Ec s : Q a s -> wp (ret a) Q E Qc Ec s.
Proof. intros H. split; [exact H | constructor]. Qed.

Lemma resume_procs {A B} (k : A -> M B) Rc Ec (c : result A) :
  post (fun a s' => wp (k a) Rc Ec Rc Ec s') Ec c ->
  Forall (post Rc Ec) (procs (resume k c)).
Proof.
  destruct c as [[a|h] s]; simpl.
  - intros [Hp Hc]. now constructor.
  - intros H. repeat constructor. exact H.
Qed.

Lemma wp_bind {A B} (m : M A) (k : A -> M B) R E Rc Ec s :
  wp m (fun a s' => wp (k a) R E Rc Ec s') E
       (fun a s' => wp (k a) Rc Ec Rc Ec s') Ec s ->
  wp (bind m k) R E Rc Ec s.
Proof.
  unfold wp at 1 4, bind. destruct (m s) as [[o s1] cs]; simpl.
  intros [Hp Hc].
  assert (Forall (post Rc Ec) (flat_map (fun c => procs (resume k c)) cs)) as Hcs.
  { apply Forall_flat_map. eapply Forall_impl; [exact Hc|].
    intros c. apply resume_procs. }
  destruct o as [a|h]; simpl in *.
  - destruct Hp as [Hp1 Hp2]. destruct (k a s1) as [r' cs']; simpl in *.
    split; [exact Hp1|]. now apply Forall_app.
  - split; [exact Hp | exact Hcs].
Qed.

Lemma wp_when (b : bool) (m : M unit) Q E Qc Ec s :
  (b = true -> wp m Q E Qc Ec s) -> (b = false -> Q tt s) ->
  wp (when b m) Q E Qc Ec s.
Proof. destruct b; simpl; intros H1 H2; [auto | apply wp_ret; auto]. Qed.

(** A loop with invariant [I n v]: [n] bounds the iterations still to
    come, so a loop with more fuel than that never runs out of it. *)
Lemma wp_loop {V} (I : nat -> V -> state -> Prop) (step : V -> M (option V))
    Q E Ec :
  (forall n v s, I n v s ->
     wp (step v)
        (fun o s' => match o with
                     | Some v' => exists n', (n' < n)%nat /\ I n' v' s'
                     | None => Q v s'
                     end) E never Ec s) ->
  forall fuel n v s, (n < fuel)%nat -> I n v s ->
  wp (loop fuel step v) Q E never Ec s.
Proof.
  intros Hstep fuel. induction fuel as [|fuel IH]; intros n v s Hn HI; [lia|].
  simpl. apply wp_bind. eapply wp_mono; [apply (Hstep n v s HI) | | auto | | auto].
  - intros [v'|] s'.
    + intros (n' & Hn' & HI'). apply (IH n'); [lia | exact HI'].
    + apply wp_ret.
  - intros a s' [].
Qed.

(** ** The calls, one by one *)

Lemma frame_refl s : frame s s.
Proof. now split. Qed.

Section CallRules.

Variable env : os_env.

Local Abbreviation perror_text := (perror_text env).

Lemma wp_fprintf fd data Q E Qc Ec s :
  Q tt (log (EvWrite fd data) s) -> wp (fprintf fd data) Q E Qc Ec s.
Proof. intros H. split; [exact H | constructor]. Qed.

Lemma wp_exit {A} code (Q : A -> state -> Prop) E Qc Ec s :
  E (Exited code) (log (EvExit code) s) -> wp (exit code) Q E Qc Ec s.
Proof. intros H. split; [exact H | constructor]. Qed.

Lemma wp_handle_error {A} msg (Q : A -> state -> Prop) E Qc Ec s :
  E (Exited EXIT_FAILURE)
    (log (EvExit EXIT_FAILURE) (log (EvWrite STDERR (perror_text msg (st_errno s))) s)) ->
  wp (handle_error env msg) Q E Qc Ec s.
Proof. intros H. split; [exact H | constructor]. Qed.

Lemma wp_sleep secs Q E Qc Ec s :
  Q 0 (log (EvSleep secs) s) -> wp (sleep secs) Q E Qc Ec s.
Proof. intros H. split; [exact H | constructor]. Qed.

Lemma wp_fopen path mode Q E Qc Ec s :
  (forall c, os_fopen env (st_nopen s) path = Ok c ->
     Q (Some (st_nopen s))
       (log (EvFopen path mode (Ok (st_nopen s)))
          (tick_open (set_files (<[st_nopen s := c]> (st_files s)) s)))) ->
  (forall e, os_fopen env (st_nopen s) path = Err e ->
     Q None (log (EvFopen path mode (Err e)) (tick_open (set_errno e s)))) ->
  wp (fopen env path mode) Q E Qc Ec s.
Proof.
  intros H1 H2. unfold wp, fopen.
  destruct (os_fopen env (st_nopen s) path) as [c|e]; (split; [|constructor]); simpl; auto.
Qed.

Lemma wp_mmap addr len prot flags fd off Q E Qc Ec s :
  (forall pg, os_mmap env = Ok pg ->
     Q (Z.of_N pg * PAGE_SIZE)
       (log (EvMmap addr len prot flags fd off (Ok (Z.of_N pg * PAGE_SIZE)))
          (set_mem ∅ (set_region (Some {| rg_base := Z.of_N pg * PAGE_SIZE; rg_len := len;
                                           rg_prot := prot; rg_flags := flags |}) s)))) ->
  (forall e, os_mmap env = Err e ->
     Q MAP_FAILED (log (EvMmap addr len prot flags fd off (Err e)) (set_errno e s))) ->
  wp (mmap env addr len prot flags fd off) Q E Qc Ec s.
Proof.
  intros H1 H2. unfold wp, mmap.
  destruct (os_mmap env) as [pg|e]; (split; [|constructor]); simpl; auto.
Qed.

Lemma wp_store_int p v Q E Qc Ec s :
  writable s p = true ->
  Q tt (log (EvStore p v) (set_mem (<[p := v]> (st_mem s)) s)) ->
  wp (store_int p v) Q E Qc Ec s.
Proof.
  intros Hw H. unfold wp, store_int. rewrite Hw. split; [exact H | constructor].
Qed.

Lemma wp_mprotect addr len prot Q E Qc Ec s :
  (os_mprotect env = Ok tt ->
     Q 0 (log (EvMprotect addr len prot (Ok tt))
            (set_region (protect_region addr len prot (st_region s)) s))) ->
  (forall e, os_mprotect env = Err e ->
     Q (-1) (log (EvMprotect addr len prot (Err e)) (set_errno e s))) ->
  wp (mprotect env addr len prot) Q E Qc Ec s.
Proof.
  intros H1 H2. unfold wp, mprotect.
  destruct (os_mprotect env) as [[]|e]; (split; [|constructor]); simpl; auto.
Qed.

Lemma wp_munmap addr len Q E Qc Ec s :
  (os_munmap env = Ok tt ->
     Q 0 (log (EvMunmap addr len (Ok tt))
            (set_region (unmap_region addr len (st_region s)) s))) ->
  (forall e, os_munmap env = Err e ->
     Q (-1) (log (EvMunmap addr len (Err e)) (set_errno e s))) ->
  wp (munmap env addr len) Q E Qc Ec s.
Proof.
  intros H1 H2. unfold wp, munmap.
  destruct (os_munmap env) as [[]|e]; (split; [|constructor]); simpl; auto.
Qed.

Lemma wp_fork Q E Qc Ec s :
  (forall pid, os_fork env (st_nfork s) = Ok pid ->
     Q (Z.pos pid)
       (log (EvFork (Ok pid)) (tick_fork (set_children (st_children s ++ [pid]) s)))
     /\ Qc 0 (child_of s)) ->
  (forall e, os_fork env (st_nfork s) = Err e ->
     Q (-1) (log (EvFork (Err e)) (tick_fork (set_errno e s)))) ->
  wp (fork env) Q E Qc Ec s.
Proof.
  intros H1 H2. unfold wp, fork.
  destruct (os_fork env (st_nfork s)) as [pid|e]; simpl.
  - destruct (H1 pid eq_refl). split; [done|]. now repeat constructor.
  - split; [auto | constructor].
Qed.

Lemma wp_wait Q E Qc Ec s :
  (st_children s = [] ->
     Q (-1) (log (EvWait (Err ECHILD)) (tick_wait (set_errno ECHILD s)))) ->
  (forall j, st_children s <> [] -> os_wait env (st_nwait s) = Ok j ->
     Q (Z.pos (reaped j (st_children s)))
       (log (EvWait (Ok (reaped j (st_children s))))
          (tick_wait (set_children (unreaped j (st_children s)) s)))) ->
  (forall e, st_children s <> [] -> os_wait env (st_nwait s) = Err e ->
     Q (-1) (log (EvWait (Err e)) (tick_wait (set_errno e s)))) ->
  wp (wait env) Q E Qc Ec s.
Proof.
  intros H0 H1 H2. unfold wp, wait.
  destruct (st_children s) as [|c cs] eqn:Hcs; simpl.
  - split; [auto | constructor].
  - destruct (os_wait env (st_nwait s)) as [j|e]; simpl.
    + split; [|constructor].
      specialize (H1 j ltac:(done) eq_refl).
      unfold reaped, unreaped in H1.
      assert (nth (j mod List.length (c :: cs)) (c :: cs) 1%positive
              = nth (j mod List.length (c :: cs)) (c :: cs) c) as Hnth.
      { apply nth_indep. apply Nat.mod_upper_bound. simpl. lia. }
      rewrite Hnth in H1. exact H1.
    + split; [|constructor]. apply H2; done.
Qed.

End CallRules.

(** ** Reading a stream *)

Lemma read_line_length n s b r :
  read_line n s = (b, r) ->
  (String.length b + String.length r = String.length s)%nat.
Proof.
  revert s b r. induction n as [|n IH]; intros s b r; simpl.
  - intros [= <- <-]. done.
  - destruct s as [|c s]; [intros [= <- <-]; done|].
    destruct (decide (c = NL)); [intros [= <- <-]; simpl; lia|].
    destruct (read_line n s) as [l rest] eqn:Hrl. intros [= <- <-].
    apply IH in Hrl. simpl. lia.
Qed.

Lemma read_line_nonempty n c s b r :
  read_line (S n) (String c s) = (b, r) -> exists b', b = String c b'.
Proof.
  simpl. destruct (decide (c = NL)); [intros [= <- <-]; eauto|].
  destruct (read_line n s) as [l rest]. intros [= <- <-]. eauto.
Qed.

Lemma fgets_bytes_shrinks rest buf rest' :
  fgets_bytes 100 rest = Some (buf, rest') ->
  (String.length rest' < String.length rest)%nat.
Proof.
  destruct rest as [|c s]; [done|]. unfold fgets_bytes.
  change (100 - 1)%nat with (S 98). generalize 98%nat. intros n H.
  apply (inj Some) in H.
  pose proof (read_line_length _ _ _ _ H) as Hlen.
  apply read_line_nonempty in H as [b' ->]. simpl in *. lia.
Qed.

Arguments fgets_bytes : simpl never.

Lemma bufs_fuel n m rest :
  (String.length rest <= n)%nat -> (String.length rest <= m)%nat ->
  bufs n rest = bufs m rest.
Proof.
  revert m rest. induction n as [|n IH]; intros m rest Hn Hm.
  - destruct rest; [|simpl in Hn; lia]. now destruct m.
  - destruct m as [|m].
    + destruct rest; [|simpl in Hm; lia]. done.
    + simpl. destruct (fgets_bytes 100 rest) as [[buf rest']|] eqn:Hf; [|done].
      apply fgets_bytes_shrinks in Hf. f_equal. apply IH; lia.
Qed.

Lemma file_bufs_step rest buf rest' :
  fgets_bytes 100 rest = Some (buf, rest') ->
  file_bufs rest = buf :: file_bufs rest'.
Proof.
  intros Hf. unfold file_bufs. pose proof (fgets_bytes_shrinks _ _ _ Hf) as Hlt.
  destruct (String.length rest) as [|n] eqn:Hn; [lia|].
  simpl. rewrite Hf. f_equal. apply bufs_fuel; lia.
Qed.

Lemma file_bufs_eof rest : fgets_bytes 100 rest = None -> file_bufs rest = [].
Proof. destruct rest; [done|]. discriminate. Qed.

Section Reporter.

Variable env : os_env.

Local Abbreviation pmc_failure := (pmc_failure env).

Lemma wp_unread h rest Q E Qc Ec s :
  st_files s !! h = Some rest ->
  Q (String.length rest) s -> wp (unread (Some h)) Q E Qc Ec s.
Proof.
  intros Hh H. unfold wp, unread. simpl. rewrite Hh. simpl.
  split; [exact H | constructor].
Qed.

Lemma wp_fgets h rest Q E Qc Ec s :
  st_files s !! h = Some rest ->
  (forall buf rest', fgets_bytes 100 rest = Some (buf, rest') ->
     Q (Some buf) (set_files (<[h := rest']> (st_files s)) s)) ->
  (fgets_bytes 100 rest = None -> Q None s) ->
  wp (fgets 100 (Some h)) Q E Qc Ec s.
Proof.
  intros Hh H1 H2. unfold wp, fgets. simpl. rewrite Hh. simpl.
  destruct (fgets_bytes 100 rest) as [[buf rest']|]; (split; [|constructor]); simpl; auto.
Qed.

Lemma wp_fclose h Q E Qc Ec s :
  Q tt (log (EvFclose h) (set_files (delete h (st_files s)) s)) ->
  wp (fclose (Some h)) Q E Qc Ec s.
Proof. intros H. split; [exact H | constructor]. Qed.

Lemma wp_print_mem_commit msg Q E Qc Ec s :
  (forall e s', os_fopen env (st_nopen s) "/proc/meminfo" = Err e ->
     frame s s' -> st_nopen s' = S (st_nopen s) ->
     st_trace s' = st_trace s ++ pmc_failure e ->
     E (Exited EXIT_FAILURE) s') ->
  (forall c s', os_fopen env (st_nopen s) "/proc/meminfo" = Ok c ->
     frame s s' -> st_nopen s' = S (st_nopen s) ->
     st_trace s' = st_trace s ++ pmc_events (st_nopen s) msg c ->
     st_files s' !! st_nopen s = None ->
     Q tt s') ->
  wp (print_mem_commit env msg) Q E Qc Ec s.
Proof.
  intros Hfail Hok. unfold print_mem_commit.
  apply wp_bind, wp_fopen.
  - (* the stream is open *)
    intros c Hc. set (k := st_nopen s). apply wp_bind, wp_when; [done|]. intros _.
    apply wp_bind. eapply wp_unread; [apply lookup_insert_eq|].
    apply wp_bind.
    set (I := fun (n : nat) (_ : unit) (s1 : state) =>
      exists rest, st_files s1 !! k = Some rest /\ (String.length rest <= n)%nat
        /\ frame s s1 /\ st_nopen s1 = S (st_nopen s)
        /\ st_trace s1 ++ (EvWrite STDOUT <$> report msg rest)
           = st_trace s ++ EvFopen "/proc/meminfo" "r" (Ok k)
               :: (EvWrite STDOUT <$> report msg c)).
    set (Qf := fun (_ : unit) (s1 : state) =>
      exists rest, st_files s1 !! k = Some rest /\ (String.length rest <= String.length rest)%nat
        /\ frame s s1 /\ st_nopen s1 = S (st_nopen s)
        /\ st_trace s1 ++ (EvWrite STDOUT <$> report msg rest)
           = st_trace s ++ EvFopen "/proc/meminfo" "r" (Ok k)
               :: (EvWrite STDOUT <$> report msg c)
        /\ file_bufs rest = []).
    eapply wp_mono;
      [eapply (wp_loop I _ Qf) with (n := String.length c)| | | |].
    + (* one turn of the loop *)
      intros n [] s1 (rest & Hrest & Hlen & Hfr & Hno & Htr).
      apply wp_bind. eapply wp_fgets; [exact Hrest| |].
      * intros buf rest' Hf.
        pose proof (fgets_bytes_shrinks _ _ _ Hf) as Hlt.
        assert (report msg rest
                = (if is_metric buf then [report_line msg buf] else [])
                  ++ report msg rest') as Hrep.
        { unfold report. rewrite (file_bufs_step _ _ _ Hf), filter_cons.
          destruct (is_metric buf); simpl; [|done].
          destruct (decide (true = true)); done. }
        apply wp_bind. fold (is_metric buf). apply wp_when.
        -- intros Hm. apply wp_fprintf, wp_ret.
           exists (String.length rest'). split; [lia|]. exists rest'.
           simpl. rewrite lookup_insert_eq. split; [done|]. split; [lia|].
           split; [destruct Hfr; now split|]. split; [done|].
           rewrite <- Htr, Hrep, Hm. simpl.
           now rewrite <- app_assoc.
        -- intros Hm. apply wp_ret.
           exists (String.length rest'). split; [lia|]. exists rest'.
           simpl. rewrite lookup_insert_eq. split; [done|]. split; [lia|].
           split; [destruct Hfr; now split|]. split; [done|].
           now rewrite <- Htr, Hrep, Hm.
      * intros Hf. apply wp_ret. exists rest. split; [exact Hrest|].
        split; [reflexivity|]. split; [exact Hfr|]. split; [exact Hno|].
        split; [exact Htr|]. exact (file_bufs_eof _ Hf).
    + lia.
    + exists c. simpl. rewrite lookup_insert_eq. split; [done|]. split; [done|].
      split; [now split|]. split; [done|]. now rewrite <- app_assoc.
    + (* after the loop: fclose *)
      intros [] s1 (rest & Hrest & _ & Hfr & Hno & Htr & Heof).
      apply wp_fclose.
      apply (Hok c); [exact Hc | destruct Hfr; now split | exact Hno | | apply lookup_delete_eq].
      assert (report msg rest = []) as Hnil by (unfold report; now rewrite Heof).
      rewrite Hnil, app_nil_r in Htr. simpl. rewrite Htr. unfold pmc_events.
      now rewrite <- app_assoc.
    + intros h s' H. exact H.
    + intros a s' [].
    + intros h s' H. exact H.
  - (* fopen failed *)
    intros e He. apply wp_bind, wp_when; [|done]. intros _.
    apply wp_handle_error. apply (Hfail e); [exact He | now split | done |].
    simpl. now rewrite <- !app_assoc.
Qed.

End Reporter.

(** ** The initialisation loop *)

Lemma init_stores_S addr n :
  init_stores addr (S n) = init_stores addr n ++ [EvStore (slot_addr addr n) (Z.of_nat n)].
Proof. unfold init_stores. now rewrite seq_S, fmap_app. Qed.

Lemma init_mem_S addr n m :
  init_mem addr (S n) m = <[slot_addr addr n := Z.of_nat n]> (init_mem addr n m).
Proof. unfold init_mem. now rewrite seq_S, foldl_app. Qed.

Lemma slot_addr_inj addr j k : slot_addr addr j = slot_addr addr k -> j = k.
Proof. unfold slot_addr, sizeof_int. lia. Qed.

Lemma init_mem_lookup addr n m k :
  (k < n)%nat -> init_mem addr n m !! slot_addr addr k = Some (Z.of_nat k).
Proof.
  induction n as [|n IH]; [lia|]. intros Hk. rewrite init_mem_S.
  destruct (decide (k = n)) as [->|Hne].
  - apply lookup_insert_eq.
  - rewrite lookup_insert_ne; [apply IH; lia|].
    intros Heq. apply slot_addr_inj in Heq. lia.
Qed.

Lemma main_slots_Z : main_length / sizeof_int = Z.of_nat main_slots.
Proof. rewrite main_slots_unfold, main_slots_eq. lia. Qed.

Lemma main_slots_bound : (Z.of_nat main_slots <= INT_MAX)%Z.
Proof. rewrite <- main_slots_Z, main_slots_eq. unfold INT_MAX. lia. Qed.

Lemma main_slots_cover : sizeof_int * Z.of_nat main_slots = main_length.
Proof. rewrite <- main_slots_Z, main_slots_eq, main_length_eq. unfold sizeof_int. lia. Qed.

Lemma writable_slot addr s k :
  region_rw addr s -> (k < main_slots)%nat -> writable s (slot_addr addr k) = true.
Proof.
  intros (r & Hr & Hb & Hl & Hp) Hk. unfold writable. rewrite Hr.
  apply andb_true_intro. split; apply bool_decide_eq_true; [|done].
  rewrite Hb, Hl, <- main_slots_cover. unfold slot_addr, sizeof_int. lia.
Qed.

Lemma writable_frame s s' a : frame s s' -> writable s' a = writable s a.
Proof. intros [Hr _ _ _ _]. unfold writable. now rewrite Hr. Qed.

Lemma wp_init_loop addr Q E Qc Ec s :
  region_rw addr s ->
  (forall s', frame s s' -> st_nopen s' = st_nopen s ->
     st_trace s' = st_trace s ++ init_stores addr main_slots ->
     st_mem s' = init_mem addr main_slots (st_mem s) ->
     Q (addr + main_length, Z.of_nat main_slots) s') ->
  wp (init_loop addr) Q E Qc Ec s.
Proof.
  intros Hrw HQ. unfold init_loop. rewrite main_slots_Z, Nat2Z.id.
  pose proof main_slots_bound as Hb. pose proof main_slots_cover as Hc.
  pose proof (fun k => writable_slot addr s k Hrw) as Hw.
  revert Hw Hb Hc HQ. generalize main_slots. intros N Hw Hb Hc HQ.
  set (I := fun (n : nat) (v : Z * Z) (s1 : state) =>
    exists k, (k <= N)%nat /\ n = (N - k)%nat
      /\ v = (slot_addr addr k, Z.of_nat k)
      /\ frame s s1 /\ st_nopen s1 = st_nopen s
      /\ st_trace s1 = st_trace s ++ init_stores addr k
      /\ st_mem s1 = init_mem addr k (st_mem s)).
  eapply wp_mono;
    [eapply (wp_loop I _ (fun v s1 => I 0%nat v s1 /\ v.2 = Z.of_nat N)) with (n := N)
    | | | |].
  - intros n [p i] s1 (k & Hk & -> & [= -> ->] & Hfr & Hno & Htr & Hmem).
    assert (to_size_t (Z.of_nat k) = Z.of_nat k) as ->.
    { apply to_size_t_small. unfold INT_MAX in Hb. lia. }
    case_bool_decide as Hlt.
    + apply wp_bind, wp_store_int.
      { rewrite (writable_frame s s1) by done. apply Hw. lia. }
      apply wp_ret. exists (N - S k)%nat. split; [lia|].
      exists (S k). split; [lia|]. split; [done|]. split.
      { f_equal; [unfold slot_addr, sizeof_int; lia|].
        rewrite wrap_int_small; unfold INT_MIN, INT_MAX in *; lia. }
      split; [destruct Hfr; now split|]. split; [done|]. simpl. split.
      * now rewrite init_stores_S, Htr, <- app_assoc.
      * now rewrite init_mem_S, Hmem.
    + apply wp_ret. split; [|simpl; lia].
      exists k. assert (k = N) as -> by lia.
      split; [lia|]. split; [lia|]. done.
  - lia.
  - exists 0%nat. split; [lia|]. split; [lia|]. split.
    { unfold slot_addr, sizeof_int. f_equal. lia. }
    split; [apply frame_refl|]. split; [done|]. split; [|done].
    unfold init_stores. simpl. now rewrite app_nil_r.
  - intros [p i] s1 [(k & Hk & Hn & [= -> ->] & Hfr & Hno & Htr & Hmem) Hi].
    simpl in Hi. assert (k = N) as -> by lia.
    replace (slot_addr addr N) with (addr + main_length)
      by (unfold slot_addr; lia).
    now apply HQ.
  - intros h s' H. exact H.
  - intros a s' [].
  - intros h s' H. exact H.
Qed.

(** ** Forking and reaping *)

Section Children.

Variable env : os_env.

Local Abbreviation fatal := (fatal env).
Local Abbreviation forks_ok := (forks_ok env).

Lemma forks_ok_snoc k0 pids pid :
  forks_ok k0 pids -> os_fork env (k0 + List.length pids) = Ok pid ->
  forks_ok k0 (pids ++ [pid]).
Proof.
  intros Hok Hpid j p Hj. apply lookup_app_Some in Hj as [Hj|[Hle Hj]]; [auto|].
  apply list_lookup_singleton_Some in Hj as [Hj <-].
  replace j with (List.length pids) by lia. exact Hpid.
Qed.

Lemma NUM_CHLD_nat : Z.to_nat NUM_CHLD = 16%nat.
Proof. reflexivity. Qed.

Lemma wp_fork_loop Q E Qc Ec s :
  (forall sc, st_trace sc = [EvSleep 3; EvExit EXIT_SUCCESS] ->
     st_depth sc = S (st_depth s) -> Ec (Exited EXIT_SUCCESS) sc) ->
  (forall pids e s', (List.length pids < 16)%nat -> forks_ok (st_nfork s) pids ->
     os_fork env (st_nfork s + List.length pids) = Err e ->
     st_trace s' = st_trace s ++ (EvFork ∘ Ok <$> pids) ++ fatal (EvFork (Err e)) "fork" e ->
     st_depth s' = st_depth s ->
     E (Exited EXIT_FAILURE) s') ->
  (forall pids s', List.length pids = 16%nat -> forks_ok (st_nfork s) pids ->
     st_trace s' = st_trace s ++ (EvFork ∘ Ok <$> pids) ->
     st_children s' = st_children s ++ pids ->
     st_nfork s' = (st_nfork s + 16)%nat ->
     st_region s' = st_region s -> st_depth s' = st_depth s ->
     st_nopen s' = st_nopen s -> st_nwait s' = st_nwait s ->
     Q NUM_CHLD s') ->
  wp (fork_loop env) Q E Qc Ec s.
Proof.
  intros Hchild Hfail Hok. unfold fork_loop. rewrite NUM_CHLD_nat.
  set (I := fun (n : nat) (i : Z) (s1 : state) =>
    exists pids, i = Z.of_nat (List.length pids) /\ (List.length pids <= 16)%nat
      /\ n = (16 - List.length pids)%nat /\ forks_ok (st_nfork s) pids
      /\ st_trace s1 = st_trace s ++ (EvFork ∘ Ok <$> pids)
      /\ st_children s1 = st_children s ++ pids
      /\ st_nfork s1 = (st_nfork s + List.length pids)%nat
      /\ st_region s1 = st_region s /\ st_depth s1 = st_depth s
      /\ st_nopen s1 = st_nopen s /\ st_nwait s1 = st_nwait s).
  eapply wp_mono;
    [eapply (wp_loop I _ (fun i s1 => I 0%nat i s1)) with (n := 16%nat) | | | |].
  - intros n i s1 (pids & -> & Hlen & -> & Hpids & Htr & Hch & Hnf & Hrg & Hd & Hno & Hnw).
    unfold NUM_CHLD. case_bool_decide as Hlt.
    + apply wp_bind, wp_fork.
      * (* a child is born *)
        intros pid Hpid. rewrite Hnf in Hpid. split.
        -- apply wp_bind, wp_when; [done|]. intros _.
           apply wp_bind, wp_when; [done|]. intros _. apply wp_ret.
           exists (16 - S (List.length pids))%nat. split; [lia|].
           exists (pids ++ [pid]). rewrite length_app. simpl.
           split. { rewrite wrap_int_small; unfold INT_MIN, INT_MAX; lia. }
           split; [lia|]. split; [lia|].
           split; [now apply forks_ok_snoc|].
           split. { now rewrite Htr, fmap_app, <- !app_assoc. }
           split. { now rewrite Hch, <- app_assoc. }
           split; [lia|]. done.
        -- apply wp_bind, wp_when; [|done]. intros _.
           apply wp_bind, wp_sleep, wp_exit. apply Hchild; [done|].
           simpl. now rewrite Hd.
      * (* fork failed *)
        intros e He. rewrite Hnf in He.
        apply wp_bind, wp_when; [done|]. intros _.
        apply wp_bind, wp_when; [|done]. intros _. apply wp_handle_error.
        apply (Hfail pids e); [lia | done | done | | done].
        simpl. rewrite Htr. now rewrite <- !app_assoc.
    + apply wp_ret. exists pids. assert (List.length pids = 16%nat) by lia.
      split; [done|]. split; [lia|]. split; [lia|]. done.
  - lia.
  - exists []. simpl. rewrite !app_nil_r, Nat.add_0_r. repeat (split; [done || lia|]). done.
  - intros i s1 (pids & -> & Hlen & Hn & Hpids & Htr & Hch & Hnf & Hrg & Hd & Hno & Hnw).
    assert (List.length pids = 16%nat) as Hl by lia. rewrite Hl.
    apply (Hok pids); try done. now rewrite Hnf, Hl.
  - intros h s' H. exact H.
  - intros a s' [].
  - intros h s' H. exact H.
Qed.

Lemma reaped_unreaped j cs :
  cs <> [] -> cs ≡ₚ reaped j cs :: unreaped j cs.
Proof.
  intros Hne. unfold reaped, unreaped.
  assert (j mod List.length cs < List.length cs)%nat as Hlt.
  { apply Nat.mod_upper_bound. destruct cs; [done | simpl; lia]. }
  destruct (lookup_lt_is_Some_2 cs _ Hlt) as [x Hx].
  rewrite (nth_lookup_Some _ _ 1%positive _ Hx).
  now apply delete_Permutation.
Qed.

Lemma reaps_step k n j cs :
  cs <> [] -> os_wait env k = Ok j ->
  reaps env k (S n) cs = reaped j cs :: reaps env (S k) n (unreaped j cs).
Proof.
  intros Hne Hj. destruct cs as [|c cs]; [done|].
  transitivity (match os_wait env k with
                | Ok j => reaped j (c :: cs) :: reaps env (S k) n (unreaped j (c :: cs))
                | Err _ => []
                end); [reflexivity | now rewrite Hj].
Qed.

(** The calls of [wait] reap children of the process, none of them
    twice. *)
Lemma reaps_submseteq n k cs : reaps env k n cs ⊆+ cs.
Proof.
  revert k cs. induction n as [|n IH]; intros k cs; [apply submseteq_nil_l|].
  destruct cs as [|c cs]; [apply submseteq_nil_l|].
  destruct (os_wait env k) as [j|e] eqn:Hj.
  - rewrite (reaps_step k n j) by done.
    etrans; [apply submseteq_skip, IH|].
    apply Permutation_submseteq. symmetry. now apply reaped_unreaped.
  - replace (reaps env k (S n) (c :: cs)) with (@nil positive); [apply submseteq_nil_l|].
    transitivity (match os_wait env k with
                  | Ok j => reaped j (c :: cs) :: reaps env (S k) n (unreaped j (c :: cs))
                  | Err _ => []
                  end); [now rewrite Hj | reflexivity].
Qed.

Lemma wp_wait_loop Q E Qc Ec s :
  (forall rs e s', (List.length rs < 16)%nat ->
     (st_children s' = [] /\ e = ECHILD
      \/ os_wait env (st_nwait s + List.length rs) = Err e) ->
     st_trace s' = st_trace s ++ (EvWait ∘ Ok <$> rs) ++ fatal (EvWait (Err e)) "wait" e ->
     rs ++ st_children s' ≡ₚ st_children s ->
     st_depth s' = st_depth s ->
     E (Exited EXIT_FAILURE) s') ->
  (forall rs s', List.length rs = 16%nat ->
     st_trace s' = st_trace s ++ (EvWait ∘ Ok <$> rs) ->
     rs ++ st_children s' ≡ₚ st_children s ->
     rs = reaps env (st_nwait s) 16 (st_children s) ->
     st_nwait s' = (st_nwait s + 16)%nat ->
     st_region s' = st_region s -> st_depth s' = st_depth s ->
     st_nopen s' = st_nopen s -> st_nfork s' = st_nfork s ->
     Q NUM_CHLD s') ->
  wp (wait_loop env) Q E Qc Ec s.
Proof.
  intros Hfail Hok. unfold wait_loop. rewrite NUM_CHLD_nat.
  set (I := fun (n : nat) (i : Z) (s1 : state) =>
    exists rs, i = Z.of_nat (List.length rs) /\ (List.length rs <= 16)%nat
      /\ n = (16 - List.length rs)%nat
      /\ st_trace s1 = st_trace s ++ (EvWait ∘ Ok <$> rs)
      /\ rs ++ st_children s1 ≡ₚ st_children s
      /\ reaps env (st_nwait s) 16 (st_children s)
         = rs ++ reaps env (st_nwait s1) (16 - List.length rs) (st_children s1)
      /\ st_nwait s1 = (st_nwait s + List.length rs)%nat
      /\ st_region s1 = st_region s /\ st_depth s1 = st_depth s
      /\ st_nopen s1 = st_nopen s /\ st_nfork s1 = st_nfork s).
  eapply wp_mono;
    [eapply (wp_loop I _ (fun i s1 => I 0%nat i s1)) with (n := 16%nat) | | | |].
  - intros n i s1 (rs & -> & Hlen & -> & Htr & Hch & Hrp & Hnw & Hrg & Hd & Hno & Hnf).
    unfold NUM_CHLD. case_bool_decide as Hlt.
    + apply wp_bind, wp_wait.
      * (* no child is left *)
        intros Hnil. apply wp_bind, wp_when; [|done]. intros _.
        apply wp_handle_error. apply (Hfail rs ECHILD); [lia | left; done | | done | done].
        simpl. rewrite Htr. now rewrite <- !app_assoc.
      * (* a child is reaped *)
        intros j Hne Hj.
        apply wp_bind, wp_when; [done|]. intros _. apply wp_ret.
        exists (16 - S (List.length rs))%nat. split; [lia|].
        exists (rs ++ [reaped j (st_children s1)]). rewrite length_app. simpl.
        split. { rewrite wrap_int_small; unfold INT_MIN, INT_MAX; lia. }
        split; [lia|]. split; [lia|].
        split. { now rewrite Htr, fmap_app, <- !app_assoc. }
        split. { rewrite <- Hch, <- app_assoc. simpl.
                 now rewrite <- (reaped_unreaped j (st_children s1)). }
        split. { rewrite Hrp, <- app_assoc.
                 replace (16 - List.length rs)%nat
                   with (S (16 - (List.length rs + 1)))%nat by lia.
                 now rewrite (reaps_step _ _ j) by done. }
        split; [lia|]. done.
      * (* wait failed *)
        intros e Hne He. rewrite Hnw in He.
        apply wp_bind, wp_when; [|done]. intros _. apply wp_handle_error.
        apply (Hfail rs e); [lia | right; done | | done | done].
        simpl. rewrite Htr. now rewrite <- !app_assoc.
    + apply wp_ret. exists rs. assert (List.length rs = 16%nat) by lia.
      split; [done|]. split; [lia|]. split; [lia|]. done.
  - lia.
  - exists []. simpl. rewrite !app_nil_r, Nat.add_0_r. repeat (split; [done || lia|]). done.
  - intros i s1 (rs & -> & Hlen & Hn & Htr & Hch & Hrp & Hnw & Hrg & Hd & Hno & Hnf).
    assert (List.length rs = 16%nat) as Hl by lia. rewrite Hl.
    apply (Hok rs); try done.
    + rewrite Hrp, Hl. simpl. now rewrite app_nil_r.
    + now rewrite Hnw, Hl.
  - intros h s' H. exact H.
  - intros a s' [].
  - intros h s' H. exact H.
Qed.

End Children.

(** ** Walking through [main] *)

Section Walk.

Variable env : os_env.
Variable shared : bool.

Local Abbreviation final := (final env shared).
Local Abbreviation at_stage := (at_stage env shared).

Lemma at_stage_ok st rest l s s' :
  at_stage (st :: rest) s -> stage_ok env shared st l ->
  st_trace s' = st_trace s ++ l -> st_depth s' = st_depth s ->
  at_stage rest s'.
Proof.
  intros [Hd HK] Hst Htr Hd'. split; [congruence|]. intros t code Hr.
  rewrite Htr, <- app_assoc. apply HK. now apply runs_ok.
Qed.

Lemma at_stage_fail st rest l s s' :
  at_stage (st :: rest) s -> stage_fail env shared st l ->
  st_trace s' = st_trace s ++ l -> st_depth s' = st_depth s ->
  final (Exited EXIT_FAILURE) s'.
Proof.
  intros [Hd HK] Hst Htr Hd'. exists EXIT_FAILURE. split; [done|].
  split; [|congruence]. rewrite Htr. apply HK. now apply runs_fail.
Qed.

Lemma at_stage_done s :
  at_stage [] s -> final (Exited EXIT_SUCCESS) (log (EvExit EXIT_SUCCESS) s).
Proof.
  intros [Hd HK]. exists EXIT_SUCCESS. split; [done|]. split; [|done].
  apply HK. apply runs_done.
Qed.

Lemma walk_report k msg rest (Q : unit -> state -> Prop) Qc Ec s :
  at_stage (SReport k msg :: rest) s -> st_nopen s = k ->
  (forall s', at_stage rest s' -> frame s s' -> st_nopen s' = S k -> Q tt s') ->
  wp (print_mem_commit env msg) Q final Qc Ec s.
Proof.
  intros Hat <- HQ. apply wp_print_mem_commit.
  - intros e s' He Hfr Hno Htr.
    eapply at_stage_fail; [exact Hat | apply fail_report, He | exact Htr | apply Hfr].
  - intros c s' Hc Hfr Hno Htr _. apply HQ; [|done|done].
    eapply at_stage_ok; [exact Hat | apply ok_report, Hc | exact Htr | apply Hfr].
Qed.

Lemma at_stage_init : at_stage script (start_state env).
Proof. split; [done|]. intros t code Hr. exact Hr. Qed.

Lemma region_rw_frame addr s s' : frame s s' -> region_rw addr s -> region_rw addr s'.
Proof. intros [Hr _ _ _ _] (r & H & ?). exists r. now rewrite Hr. Qed.

Ltac wp_skip :=
  apply wp_bind, wp_when;
  [ intros ?%bool_decide_eq_true; simpl in *; (lia || congruence || done) | intros _ ].

Ltac wp_take :=
  apply wp_bind, wp_when;
  [ intros _ | intros ?%bool_decide_eq_false; simpl in *; (lia || congruence || done) ].

(** Every process of an accepted invocation ends as [final] and
    [final_child] say: none is killed, none loops for ever. *)
Lemma main_runs prog a :
  parse_mode a = Some shared ->
  wp (main env [prog; a]) never final never final_child (start_state env).
Proof.
  intros Hmode. unfold main. wp_skip.
  apply wp_bind, wp_ret. apply wp_bind.
  eapply wp_mono with
    (Q := fun v s' => s' = start_state env /\ bool_decide (v <> 0) = shared)
    (E := final) (Qc := never) (Ec := final_child); [| |auto|intros ? ? []|auto].
  { unfold parse_mode in Hmode. case_bool_decide as H1.
    - injection Hmode as <-. now apply wp_ret.
    - apply wp_bind, wp_ret. case_bool_decide as H2; [|done].
      injection Hmode as <-. now apply wp_ret. }
  intros sh s0 [-> Hsh]. rewrite Hsh.
  apply wp_bind, wp_fprintf. apply wp_bind, wp_fprintf.
  match goal with |- wp _ _ _ _ _ ?s => set (s1 := s) end.
  assert (at_stage (tail script) s1) as Hat1.
  { eapply at_stage_ok; [apply at_stage_init | apply ok_banner | | done].
    subst s1. simpl. unfold mode_word. now destruct shared. }
  (* initial state *)
  apply wp_bind. eapply walk_report; [exact Hat1 | done |].
  clear Hat1. intros s2 Hat2 Hfr2 Hno2.
  destruct Hfr2 as [_ Hch2 Hd2 Hnf2 Hnw2]. subst s1. simpl in *.
  (* mmap *)
  apply wp_bind, wp_mmap.
  2:{ intros e He. wp_take. apply wp_handle_error.
      eapply at_stage_fail; [exact Hat2 | apply fail_mmap, He | | done].
      simpl. now rewrite <- !app_assoc. }
  intros pg Hpg.
  assert (env_addr env = Z.of_N pg * PAGE_SIZE) as Haddr
    by (unfold env_addr; now rewrite Hpg).
  rewrite <- Haddr.
  match goal with |- wp _ _ _ _ _ ?s => set (s3 := s) end.
  assert (at_stage (tail (tail (tail script))) s3) as Hat3.
  { eapply at_stage_ok; [exact Hat2 | eapply ok_mmap, Hpg | | done].
    subst s3. simpl. unfold mode_flag. now destruct shared. }
  assert (region_rw (env_addr env) s3) as Hrw3.
  { eexists. split; [reflexivity|]. simpl. done. }
  apply wp_bind, wp_when.
  { intros H%bool_decide_eq_true. unfold MAP_FAILED, PAGE_SIZE in *. lia. }
  intros _. clear Hat2.
  (* parent mem allocated *)
  apply wp_bind. eapply walk_report; [exact Hat3 | done |].
  intros s4 Hat4 Hfr4 Hno4.
  pose proof (region_rw_frame _ _ _ Hfr4 Hrw3) as Hrw4.
  destruct Hfr4 as [_ Hch4 Hd4 Hnf4 Hnw4]. subst s3. simpl in *. clear Hat3 Hrw3.
  (* initialisation *)
  apply wp_bind, wp_init_loop; [exact Hrw4|].
  intros s5 Hfr5 Hno5 Htr5 _.
  assert (at_stage (tail (tail (tail (tail (tail script))))) s5) as Hat5.
  { eapply at_stage_ok; [exact Hat4 | apply ok_init | exact Htr5 | apply Hfr5]. }
  pose proof (region_rw_frame _ _ _ Hfr5 Hrw4) as Hrw5.
  destruct Hfr5 as [_ Hch5 Hd5 Hnf5 Hnw5]. clear Hat4 Htr5.
  (* parent mem initialized *)
  apply wp_bind. eapply walk_report; [exact Hat5 | congruence |].
  intros s6 Hat6 Hfr6 Hno6.
  destruct Hfr6 as [_ Hch6 Hd6 Hnf6 Hnw6]. clear Hat5.
  (* mprotect *)
  apply wp_bind, wp_mprotect.
  2:{ intros e He. wp_take. apply wp_handle_error.
      eapply at_stage_fail; [exact Hat6 | apply fail_protect, He | | done].
      simpl. now rewrite <- !app_assoc. }
  intros Hpr. wp_skip.
  match goal with |- wp _ _ _ _ _ ?s => set (s7 := s) end.
  assert (at_stage (tail (tail (tail (tail (tail (tail (tail script))))))) s7) as Hat7.
  { eapply at_stage_ok; [exact Hat6 | apply ok_protect, Hpr | done | done]. }
  clear Hat6.
  (* parent mem set-readonly *)
  apply wp_bind. eapply walk_report; [exact Hat7 | done |].
  intros s8 Hat8 Hfr8 Hno8.
  destruct Hfr8 as [_ Hch8 Hd8 Hnf8 Hnw8]. subst s7. simpl in *. clear Hat7.
  assert (st_nfork s8 = 0%nat) as Hnf by congruence.
  assert (st_children s8 = os_children env) as Hch by congruence.
  assert (st_nwait s8 = 0%nat) as Hnw by congruence.
  assert (st_depth s8 = 0%nat) as Hd by congruence.
  clear Hch2 Hd2 Hnf2 Hnw2 Hch4 Hd4 Hnf4 Hnw4 Hch5 Hd5 Hnf5 Hnw5 Hch6 Hd6 Hnf6 Hnw6
        Hch8 Hd8 Hnf8 Hnw8 Hno2 Hno4 Hno5 Hno6 Hrw4 Hrw5.
  (* the children *)
  apply wp_bind, wp_fork_loop.
  { intros sc Htr Hdc. split; [done|]. split; [done|]. now rewrite Hdc, Hd. }
  { intros pids e s' Hlen Hpids He Htr Hd'. rewrite Hnf in *.
    eapply at_stage_fail; [exact Hat8 | eapply fail_forks; eauto | exact Htr | done]. }
  intros pids s9 Hlen Hpids Htr9 Hch9 Hnf9 _ Hd9 Hno9 Hnw9. rewrite Hnf in *.
  assert (at_stage [SReport 4 "parent forked children"; SWaits;
                    SReport 5 "parent reaped children"; SUnmap;
                    SReport 6 "parent mem unmapped"] s9) as Hat9.
  { eapply at_stage_ok; [exact Hat8 | eapply ok_forks; eauto | exact Htr9 | done]. }
  clear Hat8 Htr9.
  (* parent forked children *)
  apply wp_bind. eapply walk_report; [exact Hat9 | congruence |].
  intros s10 Hat10 Hfr10 Hno10.
  destruct Hfr10 as [_ Hch10 Hd10 Hnf10 Hnw10]. clear Hat9.
  rewrite Hch9, Hch in Hch10.
  (* reaping: the process has its sixteen children at least, so that no
     [wait] fails for want of a child *)
  apply wp_bind, wp_wait_loop.
  { intros rs e s' Hlrs Hcause Htr Hperm Hd'.
    eapply at_stage_fail; [exact Hat10 | eapply fail_waits; [exact Hlrs|] | exact Htr | done].
    destruct Hcause as [[Hnil ->]|Hcause].
    - rewrite Hnil, app_nil_r, Hch10 in Hperm.
      apply Permutation_length in Hperm. rewrite length_app in Hperm. lia.
    - rewrite Hnw10, Hnw9, Hnw in Hcause. exact Hcause. }
  intros rs s11 Hlrs Htr11 _ Hrs Hnw11 _ Hd11 Hno11 _.
  rewrite Hnw10, Hnw9, Hnw, Hch10 in Hrs.
  assert (at_stage [SReport 5 "parent reaped children"; SUnmap;
                    SReport 6 "parent mem unmapped"] s11) as Hat11.
  { eapply at_stage_ok;
      [exact Hat10 | eapply (ok_waits _ _ pids rs); eauto | exact Htr11 | done]. }
  clear Hat10 Htr11.
  (* parent reaped children *)
  apply wp_bind. eapply walk_report; [exact Hat11 | congruence |].
  intros s12 Hat12 Hfr12 Hno12. clear Hat11.
  (* munmap: its result is not looked at *)
  assert (forall res (s13 : state),
            res = os_munmap env ->
            st_trace s13 = st_trace s12 ++ [EvMunmap (env_addr env) main_length res] ->
            st_depth s13 = st_depth s12 -> st_nopen s13 = st_nopen s12 ->
            wp (bind (print_mem_commit env "parent mem unmapped")
                  (fun _ => exit EXIT_SUCCESS))
               (@never Z) final never final_child s13) as Hlast.
  { intros res s13 -> Htr13 Hd13 Hno13.
    assert (at_stage [SReport 6 "parent mem unmapped"] s13) as Hat13.
    { eapply at_stage_ok; [exact Hat12 | apply ok_unmap | exact Htr13 | done]. }
    apply wp_bind. eapply walk_report; [exact Hat13 | congruence |].
    intros s14 Hat14 _ _. apply wp_exit. now apply at_stage_done. }
  apply wp_bind, wp_munmap.
  - intros Hun. apply (Hlast (Ok tt)); done.
  - intros e Hun. apply (Hlast (Err e)); done.
Qed.

End Walk.

(** * The runs of [main] *)

Section MainRuns.

Variable env : os_env.

(** An accepted invocation ends with an exit status, after one of the
    runs of the script; its children have slept and exited. *)
Lemma run_accepted prog a shared :
  parse_mode a = Some shared ->
  exists code s cs,
    run env [prog; a] = ((Stop (Exited code), s), cs)
    /\ runs env shared script (st_trace s) code
    /\ st_depth s = 0%nat
    /\ Forall (fun c => c.1 = Stop (Exited EXIT_SUCCESS)
                        /\ st_trace c.2 = [EvSleep 3; EvExit EXIT_SUCCESS]
                        /\ st_depth c.2 = 1%nat) cs.
Proof.
  intros Hmode. pose proof (main_runs env shared prog a Hmode) as [Hp Hc].
  unfold run. destruct (main env [prog; a] (start_state env)) as [[[v|h] s] cs]; simpl in *.
  - destruct Hp.
  - destruct Hp as (code & -> & Hruns & Hd). exists code, s, cs.
    split; [done|]. split; [done|]. split; [done|].
    eapply Forall_impl; [exact Hc|]. intros [[v|h] sc]; simpl; [intros []|].
    intros (-> & ? & ?). done.
Qed.

Lemma wp_usage {A} argv (Q : A -> state -> Prop) E Qc Ec s :
  E (Exited EXIT_FAILURE)
    (log (EvExit EXIT_FAILURE) (log (EvWrite STDERR (usage_text argv)) s)) ->
  wp (usage argv) Q E Qc Ec s.
Proof. intros H. split; [exact H | constructor]. Qed.

(** Any other invocation ends in [usage], and forks nothing. *)
Lemma run_rejected argv :
  (forall prog a, argv = [prog; a] -> parse_mode a = None) ->
  run env argv = ((Stop (Exited EXIT_FAILURE), usage_state env argv), []).
Proof.
  intros Hbad.
  assert (wp (main env argv) never
            (fun h s => h = Exited EXIT_FAILURE /\ s = usage_state env argv)
            never never (start_state env)) as [Hp Hc].
  { unfold main. destruct (decide (List.length argv = 2%nat)) as [Hlen|Hlen].
    - destruct argv as [|prog [|a [|b rest]]]; try discriminate Hlen.
      specialize (Hbad prog a eq_refl). unfold parse_mode in Hbad.
      case_bool_decide as H1; [discriminate|].
      case_bool_decide as H2; [discriminate|].
      apply wp_bind, wp_when; [intros H%bool_decide_eq_true; simpl in H; lia|].
      intros _. apply wp_bind, wp_ret. apply wp_bind.
      rewrite bool_decide_eq_false_2 by done.
      apply wp_bind, wp_ret. rewrite bool_decide_eq_false_2 by done.
      now apply wp_usage.
    - apply wp_bind, wp_when; [|intros H%bool_decide_eq_false; lia].
      intros _. now apply wp_usage. }
  unfold run. destruct (main env argv (start_state env)) as [[[v|h] s] cs]; simpl in *.
  - destruct Hp.
  - destruct Hp as [-> ->]. f_equal.
    destruct cs as [|c cs]; [done|]. apply Forall_cons in Hc as [Hc _].
    destruct c as [[v|h] sc]; destruct Hc.
Qed.

End MainRuns.

(** ** Traces of runs *)

Lemma split_clean {A} (P : A -> Prop) (l t pre : list A) e post :
  Forall P l -> ~ P e -> l ++ t = pre ++ e :: post ->
  exists pre', pre = l ++ pre' /\ t = pre' ++ e :: post.
Proof.
  intros Hl He. revert pre. induction Hl as [|x l Hx Hl IH]; intros pre Heq.
  - now exists pre.
  - destruct pre as [|y pre]; simpl in Heq.
    + injection Heq as -> _. contradiction.
    + injection Heq as -> Heq. destruct (IH pre Heq) as (pre' & -> & ->).
      now exists pre'.
Qed.

Section RunTraces.

Variable env : os_env.
Variable shared : bool.

Local Abbreviation allowed_ok := (allowed_ok env shared).
Local Abbreviation allowed_fail := (allowed_fail env shared).

Lemma Forall_fmap_all {A B} (P : B -> Prop) (f : A -> B) (l : list A) :
  (forall x, P (f x)) -> Forall P (f <$> l).
Proof. intros H. apply Forall_fmap, Forall_forall. intros x _. apply H. Qed.

Lemma stage_ok_events st l :
  stage_ok env shared st l -> Forall (allowed_ok st) l.
Proof.
  intros H. destruct H.
  - apply Forall_fmap_all. simpl. eauto.
  - unfold pmc_events. constructor; [now left|]. apply Forall_app. split.
    + apply Forall_fmap_all. simpl. eauto.
    + constructor; [|constructor]. simpl. now right; right.
  - now repeat constructor.
  - unfold init_stores. apply Forall_fmap_all. simpl. eauto.
  - now repeat constructor.
  - apply Forall_fmap_all. intros pid. simpl. eauto.
  - apply Forall_fmap_all. intros pid. simpl. eauto.
  - now repeat constructor.
Qed.

Lemma stage_fail_shape st l :
  stage_fail env shared st l ->
  exists l0 f msg n,
    l = l0 ++ fatal env f msg n /\ failure_of f = Some (msg, n)
    /\ Forall (allowed_ok st) l0 /\ allowed_fail st f.
Proof.
  intros H. destruct H.
  - eexists [], _, _, _. split; [reflexivity|]. split; [reflexivity|].
    split; [constructor | simpl; eauto].
  - eexists [], _, _, _. split; [reflexivity|]. split; [reflexivity|].
    split; [constructor | simpl; eauto].
  - eexists [], _, _, _. split; [reflexivity|]. split; [reflexivity|].
    split; [constructor | simpl; eauto].
  - eexists _, _, _, _. split; [reflexivity|]. split; [reflexivity|].
    split; [|simpl; eauto]. apply Forall_fmap_all. intros pid. simpl. eauto.
  - eexists _, _, _, _. split; [reflexivity|]. split; [reflexivity|].
    split; [|simpl; eauto]. apply Forall_fmap_all. intros pid. simpl. eauto.
Qed.

Lemma allowed_ok_no_failure st e : allowed_ok st e -> failure_of e = None.
Proof.
  destruct st; simpl; intros H;
    repeat match goal with
           | H : _ \/ _ |- _ => destruct H
           | H : exists _, _ |- _ => destruct H
           end; subst; reflexivity.
Qed.

Lemma runs_cons_inv st rest t code :
  runs env shared (st :: rest) t code ->
  (exists l t', stage_ok env shared st l /\ runs env shared rest t' code /\ t = l ++ t')
  \/ (stage_fail env shared st t /\ code = EXIT_FAILURE).
Proof. inversion 1; subst; eauto 10. Qed.

Lemma runs_nil_inv t code :
  runs env shared [] t code -> t = [EvExit EXIT_SUCCESS] /\ code = EXIT_SUCCESS.
Proof. inversion 1; subst; eauto. Qed.

(** In a run, a failed acquisition is followed by the line of [perror]
    and the exit, and by nothing else. *)
Lemma runs_fatal rest t code :
  runs env shared rest t code ->
  forall pre e post msg n,
    t = pre ++ e :: post -> failure_of e = Some (msg, n) ->
    post = [EvWrite STDERR (perror_text env msg n); EvExit EXIT_FAILURE]
    /\ code = EXIT_FAILURE.
Proof.
  induction 1 as [|st rest l t code Hst Hr IH|st rest l Hst];
    intros pre e post msg n Heq He.
  - destruct pre as [|x [|y pre]]; simplify_eq/=.
  - apply stage_ok_events in Hst.
    eapply (split_clean (fun e => failure_of e = None)) in Heq
      as (pre' & -> & ->); [eauto | | congruence].
    eapply Forall_impl; [exact Hst|]. intros x. apply allowed_ok_no_failure.
  - apply stage_fail_shape in Hst as (l0 & f & msg' & n' & -> & Hf & Hl0 & _).
    eapply (split_clean (fun e => failure_of e = None)) in Heq
      as (pre' & -> & Heq); [ | | congruence].
    2:{ eapply Forall_impl; [exact Hl0|]. intros x. apply allowed_ok_no_failure. }
    unfold fatal in Heq.
    destruct pre' as [|x1 [|x2 [|x3 pre']]]; simplify_eq/=; [done|].
    now destruct pre'.
Qed.

(** Every event of a run is an event of one of its stages, the line of
    [perror], or an exit. *)
Lemma runs_all (B : event -> Prop) rest t code :
  runs env shared rest t code ->
  (forall st e, st ∈ rest -> allowed_ok st e \/ allowed_fail st e -> B e) ->
  (forall d, B (EvWrite STDERR d)) -> (forall c, B (EvExit c)) ->
  Forall B t.
Proof.
  intros Hr Hok Hw Hx.
  induction Hr as [|st rest l t code Hst Hr IH|st rest l Hst].
  - repeat constructor. apply Hx.
  - apply Forall_app. split.
    + eapply Forall_impl; [apply stage_ok_events, Hst|].
      intros e He. apply (Hok st); [apply list_elem_of_here | now left].
    + apply IH. intros st' e Hin. apply Hok. now apply list_elem_of_further.
  - apply stage_fail_shape in Hst as (l0 & f & msg & n & -> & Hff & Hl0 & Hf).
    apply Forall_app. split.
    + eapply Forall_impl; [exact Hl0|].
      intros e He. apply (Hok st); [apply list_elem_of_here | now left].
    + unfold fatal. repeat constructor; eauto.
      apply (Hok st); [apply list_elem_of_here | now right].
Qed.

(** Stage by stage: if no stage of [pre] leaves an event of kind [A],
    and every stage of [post] only events of kind [B], then in a run of
    [pre ++ post] only events of kind [B] come after one of kind [A]. *)
Lemma runs_after (A B : event -> Prop) pre post t code :
  runs env shared (pre ++ post) t code ->
  (forall st e, st ∈ pre -> allowed_ok st e \/ allowed_fail st e -> ~ A e) ->
  (forall d, ~ A (EvWrite STDERR d) /\ B (EvWrite STDERR d)) ->
  (forall c, ~ A (EvExit c) /\ B (EvExit c)) ->
  (forall st e, st ∈ post -> allowed_ok st e \/ allowed_fail st e -> B e) ->
  forall p e q, t = p ++ e :: q -> A e -> Forall B q.
Proof.
  intros Hr Hpre Hw Hx Hpost. revert t Hr.
  induction pre as [|st pre IH]; intros t Hr p e q Heq HA.
  - simpl in Hr. eapply runs_all in Hr; [| exact Hpost | apply Hw | apply Hx].
    rewrite Heq in Hr. apply Forall_app in Hr as [_ Hr].
    now apply Forall_cons in Hr as [_ Hr].
  - simpl in Hr.
    apply runs_cons_inv in Hr as [(l & t' & Hst & Hr' & ->)|[Hst ->]].
    + apply stage_ok_events in Hst.
      eapply (split_clean (fun e => ~ A e)) in Heq as (p' & -> & ->); [ | | tauto].
      * eapply IH; [ | exact Hr' | reflexivity | exact HA].
        intros st' e' Hin. apply Hpre. now apply list_elem_of_further.
      * eapply Forall_impl; [exact Hst|].
        intros e' He'. apply (Hpre st); [apply list_elem_of_here | now left].
    + apply stage_fail_shape in Hst as (l0 & f & msg & n & -> & Hff & Hl0 & Hf).
      exfalso.
      assert (Forall (fun e => ~ A e) (l0 ++ fatal env f msg n)) as Hall.
      { apply Forall_app. split.
        - eapply Forall_impl; [exact Hl0|].
          intros e' He'. apply (Hpre st); [apply list_elem_of_here | now left].
        - unfold fatal. repeat constructor; [ | apply Hw | apply Hx].
          apply (Hpre st); [apply list_elem_of_here | now right]. }
      rewrite Heq in Hall. apply Forall_app in Hall as [_ Hall].
      apply Forall_cons in Hall as [Hall _]. contradiction.
Qed.

End RunTraces.

(** ** Reading the arguments *)

Lemma parse_mode_shared a : parse_mode a = Some true <-> c_str a = "--shared".
Proof.
  unfold parse_mode. rewrite <- (strcmp_eq a "--shared").
  case_bool_decide as H1; [tauto|].
  case_bool_decide; split; (discriminate || done).
Qed.

Lemma parse_mode_private a : parse_mode a = Some false <-> c_str a = "--private".
Proof.
  unfold parse_mode. rewrite <- (strcmp_eq a "--private").
  case_bool_decide as H1.
  - apply strcmp_eq in H1. split; [discriminate|].
    intros H2%strcmp_eq. rewrite H1 in H2. discriminate.
  - case_bool_decide; split; (discriminate || done).
Qed.

Lemma parse_mode_None a :
  parse_mode a = None <-> ~ (c_str a = "--shared" \/ c_str a = "--private").
Proof.
  rewrite <- parse_mode_shared, <- parse_mode_private.
  destruct (parse_mode a) as [[]|]; split; intros H; try discriminate H.
  - exfalso. apply H. now left.
  - exfalso. apply H. now right.
  - intros [|]; discriminate.
  - reflexivity.
Qed.

Lemma count_nl_app a b : count_nl (a +:+ b) = (count_nl a + count_nl b)%nat.
Proof.
  induction a as [|c a IH]; [done|].
  change (String c a +:+ b) with (String c (a +:+ b)). simpl. rewrite IH. lia.
Qed.

(** ** Every process of every invocation *)

Lemma argv_cases (argv : list string) :
  (exists prog a shared, argv = [prog; a] /\ parse_mode a = Some shared)
  \/ (forall prog a, argv = [prog; a] -> parse_mode a = None).
Proof.
  destruct argv as [|prog [|a [|b rest]]]; try (right; intros; discriminate).
  destruct (parse_mode a) as [shared|] eqn:Hm.
  - left. eauto.
  - right. intros ? ? [= <- <-]. exact Hm.
Qed.

(** A process of a run is the process started by the shell, which ended
    in [usage] or after a run of the script, or a child that slept and
    exited. *)
Lemma procs_run env argv r :
  r ∈ procs (run env argv) ->
  (r = (Stop (Exited EXIT_FAILURE), usage_state env argv)
   /\ forall prog a, argv = [prog; a] -> parse_mode a = None)
  \/ (exists prog a shared code,
        argv = [prog; a] /\ parse_mode a = Some shared
        /\ r = (run env argv).1 /\ r.1 = Stop (Exited code)
        /\ runs env shared script (trace_of r) code)
  \/ (r.1 = Stop (Exited EXIT_SUCCESS)
      /\ trace_of r = [EvSleep 3; EvExit EXIT_SUCCESS] /\ r ∈ (run env argv).2).
Proof.
  intros Hr. destruct (argv_cases argv) as [(prog & a & shared & -> & Hm)|Hbad].
  - destruct (run_accepted env prog a shared Hm) as (code & s & cs & Hrun & Hruns & _ & Hcs).
    rewrite Hrun in *. unfold procs in Hr. simpl in Hr.
    apply elem_of_cons in Hr as [->|Hr].
    + right; left. exists prog, a, shared, code. done.
    + right; right. rewrite Forall_forall in Hcs. destruct (Hcs r Hr) as (? & ? & ?). done.
  - left. rewrite (run_rejected env argv Hbad) in Hr. unfold procs in Hr. simpl in Hr.
    apply elem_of_cons in Hr as [->|Hr]; [done|]. inversion Hr.
Qed.

Lemma perror_text_failure env e msg n :
  failure_of e = Some (msg, n) ->
  perror_text env msg n = msg +:+ ": " +:+ os_strerror env n +:+ nl.
Proof.
  destruct e as [| ? ? [] | | ? ? ? ? ? ? [] | | ? ? ? [] | [] | | [] | |];
    intros [= <- <-]; reflexivity.
Qed.

(** ** The run in which every request is granted *)

Section Success.

Variable env : os_env.
Variable shared : bool.

Local Abbreviation checkpoint_events := (checkpoint_events env).
Local Abbreviation success_trace := (success_trace env shared).

Lemma forks_ok_unique k0 (p1 p2 : list positive) :
  List.length p1 = List.length p2 -> forks_ok env k0 p1 -> forks_ok env k0 p2 ->
  p1 = p2.
Proof.
  intros Hlen H1 H2. apply list_eq. intros j.
  destruct (p1 !! j) as [x|] eqn:Hx, (p2 !! j) as [y|] eqn:Hy; [| | |done].
  - apply H1 in Hx. apply H2 in Hy. congruence.
  - apply lookup_lt_Some in Hx. apply lookup_ge_None in Hy. lia.
  - apply lookup_lt_Some in Hy. apply lookup_ge_None in Hx. lia.
Qed.

Lemma stage_report_inv k msg l :
  stage_ok env shared (SReport k msg) l -> l = checkpoint_events k msg.
Proof.
  inversion 1 as [|? ? c Hc| | | | | |]; subst.
  unfold checkpoint_events, meminfo_at. now rewrite Hc.
Qed.

Lemma stage_init_inv l :
  stage_ok env shared SInit l -> l = init_stores (env_addr env) main_slots.
Proof.
  intros H. remember SInit as st eqn:Est. destruct H; try discriminate Est.
  reflexivity.
Qed.

Ltac run_ok H :=
  apply runs_cons_inv in H as [(?l & ?t & ?Hst & H & ->)|[_ ?Hc]];
  [ | exfalso; unfold EXIT_SUCCESS, EXIT_FAILURE in *; lia ].

Lemma runs_exit0 t :
  runs env shared script t EXIT_SUCCESS ->
  exists pids rs,
    List.length pids = 16%nat /\ forks_ok env 0 pids
    /\ (rs = reaps env 0 16 (os_children env ++ pids) /\ List.length rs = 16%nat)
    /\ t = success_trace pids rs.
Proof.
  intros H. unfold script in H.
  do 14 run_ok H. apply runs_nil_inv in H as [-> _].
  repeat match goal with
         | H : stage_ok _ _ (SReport _ _) _ |- _ => apply stage_report_inv in H; subst
         end.
  inversion Hst; subst. inversion Hst1; subst. apply stage_init_inv in Hst3 as ->.
  inversion Hst5; subst. inversion Hst7 as [| | | | |pids Hlen Hpids| |]; subst.
  inversion Hst9 as [| | | | | |pids' rs Hlen' Hpids' Hrs Hlrs|]. revert Hrs.
  inversion Hst11; subst. intros Hrs.
  assert (pids' = pids) as -> by (apply (forks_ok_unique 0); [congruence|done|done]).
  exists pids, rs. done.
Qed.

End Success.

Section SuccessRun.

Variable env : os_env.

Lemma succeeds_spec :
  succeeds env = true ->
  (forall k, (k < 7)%nat -> is_ok (os_fopen env k "/proc/meminfo") = true)
  /\ is_ok (os_mmap env) = true /\ is_ok (os_mprotect env) = true
  /\ (forall k, (k < 16)%nat -> is_ok (os_fork env k) = true)
  /\ (forall k, (k < 16)%nat -> is_ok (os_wait env k) = true).
Proof.
  unfold succeeds. rewrite !andb_true_iff, !forallb_forall.
  intros [[[[H1 H2] H3] H4] H5].
  repeat split; try done; intros k Hk; [apply H1 | apply H4 | apply H5];
    apply in_seq; lia.
Qed.

Lemma runs_succeeds shared t code :
  succeeds env = true -> runs env shared script t code -> code = EXIT_SUCCESS.
Proof.
  intros (Hopen & Hmap & Hprot & Hfork & Hwait)%succeeds_spec H. unfold script in H.
  do 14 (apply runs_cons_inv in H as [(?l & ?t & _ & H & ->)|[Hst ->]];
    [ | exfalso; inversion Hst; subst;
        match goal with
        | H : os_fopen env ?k _ = Err _ |- _ =>
            specialize (Hopen k ltac:(lia)); rewrite H in Hopen; discriminate
        | H : os_mmap env = Err _ |- _ => rewrite H in Hmap; discriminate
        | H : os_mprotect env = Err _ |- _ => rewrite H in Hprot; discriminate
        | H : os_fork env ?k = Err _ |- _ =>
            specialize (Hfork k ltac:(lia)); rewrite H in Hfork; discriminate
        | H : os_wait env ?k = Err _ |- _ =>
            specialize (Hwait k ltac:(lia)); rewrite H in Hwait; discriminate
        end ]).
  now apply runs_nil_inv in H as [_ ->].
Qed.

(** When every request is granted the program runs to its end. *)
Lemma run_success prog a shared :
  parse_mode a = Some shared -> succeeds env = true ->
  exists pids rs s cs,
    run env [prog; a] = ((Stop (Exited EXIT_SUCCESS), s), cs)
    /\ st_trace s = success_trace env shared pids rs
    /\ List.length pids = 16%nat /\ forks_ok env 0 pids
    /\ rs = reaps env 0 16 (os_children env ++ pids) /\ List.length rs = 16%nat.
Proof.
  intros Hm Hok.
  destruct (run_accepted env prog a shared Hm) as (code & s & cs & Hrun & Hruns & _ & _).
  pose proof (runs_succeeds shared _ _ Hok Hruns) as ->.
  destruct (runs_exit0 env shared _ Hruns) as (pids & rs & Hlen & Hpids & [Hrs Hlrs] & Htr).
  exists pids, rs, s, cs. done.
Qed.

End SuccessRun.

(** ** What a run writes *)

Lemma writes_app fd t1 t2 : writes fd (t1 ++ t2) = writes fd t1 ++ writes fd t2.
Proof. apply omap_app. Qed.

Lemma writes_fmap_same fd (l : list string) : writes fd (EvWrite fd <$> l) = l.
Proof.
  induction l as [|x l IH]; [done|].
  change (writes fd (EvWrite fd <$> x :: l))
    with (match written fd (EvWrite fd x) with
          | Some y => y :: writes fd (EvWrite fd <$> l)
          | None => writes fd (EvWrite fd <$> l)
          end).
  simpl. rewrite bool_decide_eq_true_2 by done. now rewrite IH.
Qed.

Lemma writes_none fd t : Forall (fun e => written fd e = None) t -> writes fd t = [].
Proof.
  induction 1 as [|e t He _ IH]; [done|].
  change (writes fd (e :: t))
    with (match written fd e with
          | Some y => y :: writes fd t
          | None => writes fd t
          end).
  now rewrite He.
Qed.

Lemma writes_pmc_events k msg c : writes STDOUT (pmc_events k msg c) = report msg c.
Proof.
  unfold pmc_events. change (?x :: ?l ++ ?r) with ([x] ++ l ++ r).
  rewrite !writes_app, writes_fmap_same. simpl. now rewrite app_nil_r.
Qed.

Lemma writes_pmc_events_err k msg c : writes STDERR (pmc_events k msg c) = [].
Proof.
  apply writes_none. unfold pmc_events. constructor; [done|].
  apply Forall_app. split; [|now repeat constructor].
  apply Forall_fmap, Forall_forall. now intros x _.
Qed.

Lemma writes_init_stores fd addr n : writes fd (init_stores addr n) = [].
Proof. apply writes_none, Forall_fmap, Forall_forall. now intros x _. Qed.

Lemma writes_forks fd (pids : list positive) : writes fd (EvFork ∘ Ok <$> pids) = [].
Proof. apply writes_none, Forall_fmap, Forall_forall. now intros x _. Qed.

Lemma writes_waits fd (rs : list positive) : writes fd (EvWait ∘ Ok <$> rs) = [].
Proof. apply writes_none, Forall_fmap, Forall_forall. now intros x _. Qed.

Lemma report_length msg c : List.length (report msg c) = metric_count c.
Proof. unfold report, metric_count. now rewrite length_fmap. Qed.

Lemma writes_success_out env shared pids rs :
  writes STDOUT (success_trace env shared pids rs) = banner shared ++ commit_lines env.
Proof.
  unfold success_trace, checkpoint_events.
  rewrite !writes_app, !writes_pmc_events, writes_fmap_same, writes_init_stores,
    writes_forks, writes_waits.
  unfold commit_lines. simpl. now rewrite !app_nil_r.
Qed.

Lemma writes_success_err env shared pids rs :
  writes STDERR (success_trace env shared pids rs) = [].
Proof.
  unfold success_trace, checkpoint_events.
  rewrite !writes_app, !writes_pmc_events_err, writes_init_stores,
    writes_forks, writes_waits.
  rewrite (writes_none STDERR (EvWrite STDOUT <$> _)); [done|].
  apply Forall_fmap, Forall_forall. now intros x _.
Qed.

(** ** Lines *)

Lemma string_app_assoc (a b c : string) : (a +:+ b) +:+ c = a +:+ (b +:+ c).
Proof.
  induction a as [|x a IH]; [done|].
  transitivity (String x ((a +:+ b) +:+ c)); [reflexivity|].
  rewrite IH. reflexivity.
Qed.

Lemma count_nl_c_str s : count_nl s = 0%nat -> count_nl (c_str s) = 0%nat.
Proof.
  induction s as [|c s IH]; simpl; [done|].
  destruct (decide (c = NUL)); [done|]. simpl.
  destruct (decide (c = NL)); [lia|]. simpl. exact IH.
Qed.

Lemma is_delim_nl c : is_delim c nl = bool_decide (c = NL).
Proof. simpl. now destruct (decide (c = NL)); [rewrite bool_decide_eq_true_2|rewrite bool_decide_eq_false_2]. Qed.

Lemma count_nl_take_token s : count_nl (take_token nl s) = 0%nat.
Proof.
  induction s as [|c s IH]; [done|].
  cbn [take_token]. rewrite is_delim_nl. case_bool_decide as Hc; [done|].
  simpl. destruct (decide (c = NL)); [done|]. exact IH.
Qed.

Lemma report_line_one_line msg buf :
  count_nl msg = 0%nat -> one_line (report_line msg buf).
Proof.
  intros Hmsg. unfold report_line.
  exists (fmt_s (strtok (c_str buf) nl) +:+ "    (" +:+ fmt_s (Some msg) +:+ ")").
  split; [now rewrite !string_app_assoc|].
  rewrite !count_nl_app. cbn [fmt_s]. rewrite (count_nl_c_str msg Hmsg).
  assert (count_nl (fmt_s (strtok (c_str buf) nl)) = 0%nat) as ->; [|done].
  unfold strtok. destruct (skip_delims nl (c_str buf)) as [|c r]; [done|].
  cbn [fmt_s]. apply count_nl_c_str, count_nl_take_token.
Qed.

Lemma report_one_line msg c :
  count_nl msg = 0%nat -> Forall one_line (report msg c).
Proof.
  intros Hmsg. unfold report. apply Forall_fmap, Forall_forall.
  intros buf _. now apply report_line_one_line.
Qed.

Lemma commit_lines_one_line env : Forall one_line (commit_lines env).
Proof.
  unfold commit_lines. simpl.
  repeat (apply Forall_app; split; [now apply report_one_line|]). constructor.
Qed.

Lemma commit_lines_length env :
  List.length (commit_lines env)
  = sum_list (metric_count ∘ meminfo_at env <$> seq 0 7).
Proof.
  unfold commit_lines. simpl. rewrite !length_app, !report_length. simpl. lia.
Qed.

(** ** Forks, reaps and the unmapping *)

Lemma pmc_events_no_child_call k msg c :
  Forall (fun e => is_child_call e = false) (pmc_events k msg c).
Proof.
  unfold pmc_events. constructor; [done|]. apply Forall_app. split.
  - apply Forall_fmap, Forall_forall. now intros x _.
  - now repeat constructor.
Qed.

Lemma init_stores_no_child_call addr n :
  Forall (fun e => is_child_call e = false) (init_stores addr n).
Proof. apply Forall_fmap, Forall_forall. now intros x _. Qed.

Lemma omap_quiet {A B} (f : A -> option B) (l : list A) :
  Forall (fun x => f x = None) l -> omap f l = [].
Proof. induction 1 as [|x l Hx _ IH]; [done|]. simpl. now rewrite Hx. Qed.

Lemma created_quiet t :
  Forall (fun e => is_child_call e = false) t -> created t = [].
Proof.
  intros H. apply omap_quiet. eapply Forall_impl; [exact H|]. now intros [].
Qed.

Lemma collected_quiet t :
  Forall (fun e => is_child_call e = false) t -> collected t = [].
Proof.
  intros H. apply omap_quiet. eapply Forall_impl; [exact H|]. now intros [].
Qed.

Lemma created_app t1 t2 : created (t1 ++ t2) = created t1 ++ created t2.
Proof. apply omap_app. Qed.

Lemma collected_app t1 t2 : collected (t1 ++ t2) = collected t1 ++ collected t2.
Proof. apply omap_app. Qed.

Lemma created_forks pids : created (EvFork ∘ Ok <$> pids) = pids.
Proof.
  induction pids as [|p pids IH]; [done|]. rewrite fmap_cons.
  change (p :: created (EvFork ∘ Ok <$> pids) = p :: pids). now rewrite IH.
Qed.

Lemma created_waits rs : created (EvWait ∘ Ok <$> rs) = [].
Proof. apply omap_quiet, Forall_fmap, Forall_forall. now intros x _. Qed.

Lemma collected_forks pids : collected (EvFork ∘ Ok <$> pids) = [].
Proof. apply omap_quiet, Forall_fmap, Forall_forall. now intros x _. Qed.

Lemma collected_waits rs : collected (EvWait ∘ Ok <$> rs) = rs.
Proof.
  induction rs as [|p rs IH]; [done|]. rewrite fmap_cons.
  change (p :: collected (EvWait ∘ Ok <$> rs) = p :: rs). now rewrite IH.
Qed.

(** In the run that succeeds the children created are [pids], the
    children collected [rs]. *)
Lemma success_trace_children env shared pids rs :
  created (success_trace env shared pids rs) = pids
  /\ collected (success_trace env shared pids rs) = rs.
Proof.
  unfold success_trace, checkpoint_events.
  rewrite !created_app, !collected_app, created_forks, created_waits,
    collected_forks, collected_waits.
  rewrite !(created_quiet (pmc_events _ _ _)) by apply pmc_events_no_child_call.
  rewrite !(collected_quiet (pmc_events _ _ _)) by apply pmc_events_no_child_call.
  rewrite (created_quiet (init_stores _ _)) by apply init_stores_no_child_call.
  rewrite (collected_quiet (init_stores _ _)) by apply init_stores_no_child_call.
  rewrite (created_quiet (EvWrite STDOUT <$> _))
    by (apply Forall_fmap, Forall_forall; now intros x _).
  rewrite (collected_quiet (EvWrite STDOUT <$> _))
    by (apply Forall_fmap, Forall_forall; now intros x _).
  simpl. now rewrite !app_nil_r.
Qed.

(** ** The mapping request *)

Lemma mmap_calls_app t1 t2 : mmap_calls (t1 ++ t2) = mmap_calls t1 ++ mmap_calls t2.
Proof. apply filter_app. Qed.

Lemma mmap_calls_none t :
  Forall (fun e => is_mmap e = false) t -> mmap_calls t = [].
Proof.
  induction 1 as [|e t He _ IH]; [done|]. unfold mmap_calls in *.
  rewrite filter_cons, IH. destruct (decide (is_mmap e = true)); [congruence|done].
Qed.

Section MmapCalls.

Variable env : os_env.
Variable shared : bool.

Lemma stage_events_no_mmap st e :
  st <> SMmap -> allowed_ok env shared st e \/ allowed_fail env shared st e ->
  is_mmap e = false.
Proof.
  destruct st; simpl; intros Hst H; try done;
    repeat match goal with
           | H : _ \/ _ |- _ => destruct H
           | H : exists _, _ |- _ => destruct H
           | H : False |- _ => destruct H
           end; subst; reflexivity.
Qed.

Lemma stage_ok_no_mmap st l :
  st <> SMmap -> stage_ok env shared st l -> mmap_calls l = [].
Proof.
  intros Hst H%stage_ok_events. apply mmap_calls_none.
  eapply Forall_impl; [exact H|]. intros e He. apply (stage_events_no_mmap st); auto.
Qed.

(** A run asks for a mapping once, unless the first checkpoint already
    fails. *)
Lemma runs_mmap_calls t code :
  runs env shared script t code ->
  (mmap_calls t = [] /\ is_ok (os_fopen env 0 "/proc/meminfo") = false)
  \/ (exists res, mmap_calls t = [mmap_event shared res]
                  /\ is_ok (os_fopen env 0 "/proc/meminfo") = true).
Proof.
  intros H. unfold script in H.
  apply runs_cons_inv in H as [(l0 & t0 & Hst0 & H & ->)|[Hst _]]; [|inversion Hst].
  rewrite mmap_calls_app, (stage_ok_no_mmap SBanner _ ltac:(done) Hst0). simpl.
  clear Hst0 l0.
  apply runs_cons_inv in H as [(l1 & t1 & Hst1 & H & ->)|[Hst _]].
  2:{ left. inversion Hst as [k msg e He| | | |]; subst. rewrite He.
      split; reflexivity. }
  assert (is_ok (os_fopen env 0 "/proc/meminfo") = true) as Hopen.
  { inversion Hst1 as [|k msg c Hc| | | | | |]; subst. now rewrite Hc. }
  rewrite mmap_calls_app, (stage_ok_no_mmap (SReport 0 "initial state") _ ltac:(done) Hst1).
  simpl. clear Hst1 l1.
  right.
  apply runs_cons_inv in H as [(l2 & t2 & Hst2 & H & ->)|[Hst _]].
  - inversion Hst2 as [| |pg Hpg| | | | |]; subst.
    exists (Ok (env_addr env)). split; [|done].
    rewrite mmap_calls_app, (mmap_calls_none t2); [done|].
    eapply runs_all; [exact H | | done | done].
    intros st e Hin. apply stage_events_no_mmap.
    intros ->. repeat (apply elem_of_cons in Hin as [Hin|Hin]; [discriminate|]).
    inversion Hin.
  - inversion Hst as [|e He| | |]; subst. exists (Err e). done.
Qed.

End MmapCalls.

(** ** After the protection change *)

Ltac crunch_stage :=
  repeat match goal with
         | H : _ \/ _ |- _ => destruct H
         | H : exists _, _ |- _ => destruct H
         | H : False |- _ => destruct H
         end; subst; simpl; try done.

Ltac crunch_in Hin :=
  repeat (apply elem_of_cons in Hin as [->|Hin]); [..|inversion Hin].

Section AfterProtect.

Variable env : os_env.
Variable shared : bool.

Lemma runs_protect t code :
  runs env shared script t code ->
  forall pre e post,
    t = pre ++ e :: post -> is_protect_ok e = true ->
    e = EvMprotect (env_addr env) main_length PROT_READ (Ok tt)
    /\ Forall (fun e' => is_store e' = false /\ is_mmap e' = false) post.
Proof.
  intros Hr pre e post Heq He. split.
  - assert (Forall (fun e => is_protect_ok e = true ->
                             e = EvMprotect (env_addr env) main_length PROT_READ (Ok tt)) t)
      as Hall.
    { eapply runs_all; [exact Hr | | done | done].
      intros st e' Hin H. unfold script in Hin.
      crunch_in Hin; simpl in H; crunch_stage. }
    rewrite Heq in Hall. apply Forall_app in Hall as [_ Hall].
    apply Forall_cons in Hall as [Hall _]. auto.
  - eapply (runs_after env shared (fun e => is_protect_ok e = true)
              (fun e' => is_store e' = false /\ is_mmap e' = false)
              [SBanner; SReport 0 "initial state"; SMmap; SReport 1 "parent mem allocated";
               SInit; SReport 2 "parent mem initialized"]);
      [exact Hr | | done | done | | exact Heq | exact He].
    + intros st e' Hin H. crunch_in Hin; simpl in H; crunch_stage.
    + intros st e' Hin H. crunch_in Hin; simpl in H; crunch_stage.
Qed.

End AfterProtect.

(** ** The lines of the accounting source *)

Lemma starts_with_spec p s : starts_with p s = true <-> exists r, s = p +:+ r.
Proof.
  revert s. induction p as [|x p IH]; intros s; simpl.
  - split; [|done]. intros _. now exists s.
  - destruct s as [|y s]; [split; [done | now intros [r [=]]]|].
    destruct (decide (x = y)) as [->|Hxy].
    + rewrite IH. split; intros [r Hr]; exists r; [now rewrite Hr | now injection Hr].
    + split; [done|]. intros [r [= ? ?]]. done.
Qed.

Lemma split_lines_nonempty c s : split_lines (String c s) <> [].
Proof. simpl. destruct (decide (c = NL)); [done|]. now destruct (split_lines s). Qed.

Lemma split_lines_other c s :
  c <> NL ->
  split_lines (String c s)
  = match split_lines s with
    | [] => [String c EmptyString]
    | l :: ls => String c l :: ls
    end.
Proof. intros Hc. simpl. now rewrite decide_False by done. Qed.

Lemma split_lines_nl s : split_lines (String NL s) = EmptyString :: split_lines s.
Proof. reflexivity. Qed.

Lemma take_token_other c s :
  c <> NL -> take_token nl (String c s) = String c (take_token nl s).
Proof. intros Hc. cbn [take_token]. now rewrite is_delim_nl, bool_decide_eq_false_2. Qed.

Lemma take_token_nl s : take_token nl (String NL s) = EmptyString.
Proof. reflexivity. Qed.

Lemma read_line_empty n : read_line n EmptyString = (EmptyString, EmptyString).
Proof. now destruct n. Qed.

Lemma read_line_first n s b r :
  read_line n s = (b, r) -> s <> EmptyString ->
  (forall l ls, split_lines s = l :: ls -> (String.length l < n)%nat) ->
  split_lines s = take_token nl b :: split_lines r.
Proof.
  revert s b r. induction n as [|n IH]; intros s b r Hrl Hs Hlen.
  - destruct s as [|c s]; [done|].
    destruct (split_lines (String c s)) as [|l ls] eqn:Hsl;
      [now apply split_lines_nonempty in Hsl|].
    specialize (Hlen l ls eq_refl). lia.
  - destruct s as [|c s]; [done|]. simpl in Hrl.
    destruct (decide (c = NL)) as [->|Hc].
    + injection Hrl as <- <-. now rewrite split_lines_nl, take_token_nl.
    + destruct (read_line n s) as [l0 rest] eqn:Hrl0. injection Hrl as <- <-.
      rewrite take_token_other, split_lines_other by done.
      rewrite split_lines_other in Hlen by done.
      destruct s as [|c' s'].
      * rewrite read_line_empty in Hrl0. injection Hrl0 as <- <-. done.
      * rewrite (IH (String c' s') l0 rest Hrl0); [done | done |].
        intros l ls Hsl. rewrite Hsl in Hlen.
        specialize (Hlen _ _ eq_refl). simpl in Hlen. lia.
Qed.

Lemma text_fits_bufs c :
  text_fits c -> take_token nl <$> file_bufs c = split_lines c.
Proof.
  remember (String.length c) as n eqn:Hn. revert c Hn.
  induction (lt_wf n) as [n _ IH]. intros c -> Hfit.
  destruct (fgets_bytes 100 c) as [[b r]|] eqn:Hf.
  - rewrite (file_bufs_step _ _ _ Hf), fmap_cons.
    pose proof (fgets_bytes_shrinks _ _ _ Hf) as Hlt.
    destruct c as [|x c]; [done|]. unfold fgets_bytes in Hf. apply (inj Some) in Hf.
    assert (split_lines (String x c) = take_token nl b :: split_lines r) as Hsl.
    { apply (read_line_first _ _ _ _ Hf); [done|].
      intros l ls Hl. unfold text_fits in Hfit. rewrite Hl in Hfit.
      apply Forall_cons in Hfit as [Hfit _]. change (100 - 1)%nat with 99%nat. lia. }
    rewrite Hsl. f_equal. apply (IH (String.length r)); [exact Hlt | done |].
    unfold text_fits in *. rewrite Hsl in Hfit. now apply Forall_cons in Hfit as [_ Hfit].
  - destruct c; [done|discriminate].
Qed.

Lemma read_line_nul_free n s b r :
  read_line n s = (b, r) -> nul_free s -> nul_free b /\ nul_free r.
Proof.
  revert s b r. induction n as [|n IH]; intros s b r Hrl Hs.
  - simpl in Hrl. now injection Hrl as <- <-.
  - destruct s as [|c s]; [simpl in Hrl; now injection Hrl as <- <-|].
    simpl in Hrl. destruct Hs as [Hc Hs]. destruct (decide (c = NL)).
    + injection Hrl as <- <-. simpl. auto.
    + destruct (read_line n s) as [l0 rest] eqn:Hrl0. injection Hrl as <- <-.
      destruct (IH _ _ _ Hrl0 Hs). simpl. auto.
Qed.

Lemma file_bufs_nul_free c : nul_free c -> Forall nul_free (file_bufs c).
Proof.
  remember (String.length c) as n eqn:Hn. revert c Hn.
  induction (lt_wf n) as [n _ IH]. intros c -> Hc.
  destruct (fgets_bytes 100 c) as [[b r]|] eqn:Hf.
  - rewrite (file_bufs_step _ _ _ Hf).
    pose proof (fgets_bytes_shrinks _ _ _ Hf) as Hlt.
    destruct c as [|x c]; [done|]. unfold fgets_bytes in Hf. apply (inj Some) in Hf.
    destruct (read_line_nul_free _ _ _ _ Hf Hc) as [Hb Hr].
    constructor; [done|]. now apply (IH (String.length r)).
  - rewrite file_bufs_eof by done. constructor.
Qed.

Lemma take_token_prefix s : exists rest, s = take_token nl s +:+ rest.
Proof.
  induction s as [|c s [rest IH]]; [now exists EmptyString|].
  destruct (decide (c = NL)) as [->|Hc].
  - rewrite take_token_nl. now exists (String NL s).
  - rewrite take_token_other by done. exists rest.
    change (String c (take_token nl s) +:+ rest)
      with (String c (take_token nl s +:+ rest)). now rewrite <- IH.
Qed.

Lemma take_token_nul_free s : nul_free s -> nul_free (take_token nl s).
Proof.
  induction s as [|c s IH]; [done|]. intros [Hc Hs].
  destruct (decide (c = NL)) as [->|Hnl]; [now rewrite take_token_nl|].
  rewrite take_token_other by done. simpl. auto.
Qed.

Lemma take_token_memstr r :
  take_token nl (memstr +:+ r) = memstr +:+ take_token nl r.
Proof. reflexivity. Qed.

Lemma memstr_nul_free : nul_free memstr.
Proof. unfold memstr. simpl. repeat split; discriminate. Qed.

(** The test of line 53 looks at the start of the line. *)
Lemma is_metric_starts buf :
  is_metric buf = starts_with memstr (take_token nl buf).
Proof.
  unfold is_metric. apply eq_true_iff_eq.
  rewrite bool_decide_eq_true, starts_with_spec.
  change (strlen memstr) with (String.length memstr).
  rewrite (strncmp_prefix memstr buf) by exact memstr_nul_free.
  split.
  - intros [r ->]. exists (take_token nl r). apply take_token_memstr.
  - intros [r Hr]. destruct (take_token_prefix buf) as [rest Hrest].
    exists (r +:+ rest). rewrite Hrest at 1. now rewrite Hr, string_app_assoc.
Qed.

Lemma report_line_labelled msg buf :
  nul_free buf -> is_metric buf = true ->
  report_line msg buf = labelled msg (take_token nl buf).
Proof.
  intros Hnf Hm. unfold report_line, labelled. rewrite c_str_nul_free by done.
  assert (exists r, buf = memstr +:+ r) as [r ->].
  { unfold is_metric in Hm. apply bool_decide_eq_true in Hm.
    now apply (strncmp_prefix memstr buf) in Hm; [|exact memstr_nul_free]. }
  change (strtok (memstr +:+ r) nl) with (Some (take_token nl (memstr +:+ r))).
  cbn [fmt_s]. now rewrite (c_str_nul_free (take_token _ _)) by now apply take_token_nul_free.
Qed.

Lemma report_by_lines msg (bs : list string) :
  Forall nul_free bs ->
  report_line msg <$> filter (fun b => is_metric b = true) bs
  = labelled msg <$> filter (fun l => starts_with memstr l = true) (take_token nl <$> bs).
Proof.
  induction 1 as [|b bs Hb _ IH]; [done|].
  rewrite fmap_cons, !filter_cons, <- is_metric_starts.
  destruct (decide (is_metric b = true)) as [Hm|Hm].
  - rewrite !fmap_cons, IH. now rewrite report_line_labelled.
  - exact IH.
Qed.

(** On a text without NUL bytes whose lines fit the buffer, the reporter
    prints the lines that start with the metric, each with the label. *)
Lemma report_lines msg c :
  nul_free c -> text_fits c ->
  report msg c
  = labelled msg <$> filter (fun l => starts_with memstr l = true) (split_lines c).
Proof.
  intros Hnf Hfit. unfold report.
  rewrite report_by_lines by now apply file_bufs_nul_free.
  now rewrite text_fits_bufs.
Qed.

(** When the lines fit the buffer, the buffers that hold the metric are
    as many as the lines that start with it. *)
Lemma metric_count_lines c :
  text_fits c -> metric_count c = List.length (metric_lines c).
Proof.
  intros Hfit. unfold metric_count, metric_lines.
  rewrite <- (text_fits_bufs c Hfit).
  induction (file_bufs c) as [|b bs IH]; [done|].
  rewrite fmap_cons, !filter_cons, <- is_metric_starts.
  destruct (decide (is_metric b = true)); simpl; now rewrite IH.
Qed.

(** The memory-commit lines of a complete run, read off the lines of
    the accounting source. *)
Lemma commit_lines_by_lines env :
  (forall k, (k < 7)%nat ->
     nul_free (meminfo_at env k) /\ text_fits (meminfo_at env k)) ->
  commit_lines env
  = mjoin (imap (fun k msg => labelled msg <$> metric_lines (meminfo_at env k))
             checkpoints).
Proof.
  intros H. unfold commit_lines. f_equal. apply imap_ext. intros k msg Hk.
  apply lookup_lt_Some in Hk. change (List.length checkpoints) with 7%nat in Hk.
  destruct (H k Hk). now apply report_lines.
Qed.

(** ** The reporter, call by call *)

Section ReporterCalls.

Variable env : os_env.

(** When the accounting source opens, the call returns; it has opened
    the source, printed its report, and closed the source. *)
Lemma pmc_returns msg s c :
  os_fopen env (st_nopen s) "/proc/meminfo" = Ok c ->
  exists s',
    print_mem_commit env msg s = ((Ret tt, s'), [])
    /\ st_trace s' = st_trace s ++ pmc_events (st_nopen s) msg c
    /\ st_files s' !! st_nopen s = None.
Proof.
  intros Hc.
  assert (wp (print_mem_commit env msg)
            (fun _ s' => st_trace s' = st_trace s ++ pmc_events (st_nopen s) msg c
                         /\ st_files s' !! st_nopen s = None)
            never never never s) as [Hp Hcs].
  { apply wp_print_mem_commit.
    - intros e s' He. congruence.
    - intros c' s' Hc' _ _ Htr Hfiles. split; [congruence | done]. }
  destruct (print_mem_commit env msg s) as [[[[]|h] s'] cs]; simpl in *; [|destruct Hp].
  exists s'. split; [|exact Hp]. f_equal.
  destruct cs as [|x cs]; [done|]. apply Forall_cons in Hcs as [Hx _].
  destruct x as [[v|h] sx]; destruct Hx.
Qed.

Lemma no_metric_bufs (bs : list string) :
  Forall (fun l => starts_with memstr l = false) (take_token nl <$> bs) ->
  filter (fun b => is_metric b = true) bs = [].
Proof.
  induction bs as [|b bs IH]; [done|]. rewrite fmap_cons. intros [Hb Hbs]%Forall_cons.
  rewrite filter_cons, is_metric_starts, Hb. simpl. auto.
Qed.

End ReporterCalls.

(** ** Initialising the region *)

Lemma init_stores_lookup addr n k :
  (k < n)%nat ->
  init_stores addr n !! k = Some (EvStore (addr + sizeof_int * Z.of_nat k) (Z.of_nat k)).
Proof.
  intros Hk. unfold init_stores. rewrite list_lookup_fmap, lookup_seq_lt by done.
  reflexivity.
Qed.

Lemma read_region_init addr n m s :
  st_mem s = init_mem addr n m -> read_region s addr n = Z.of_nat <$> seq 0 n.
Proof.
  intros Hm. unfold read_region. apply list_fmap_ext. intros i k Hk.
  apply lookup_seq in Hk as [-> Hk]. simpl.
  now rewrite Hm, init_mem_lookup.
Qed.

(** ** Runs, stage by stage *)

Section Stages.

Variable env : os_env.
Variable shared : bool.

(** A run is a list of stages that succeeded, followed by the exit or by
    the stage that failed. *)
Lemma runs_stages rest t code :
  runs env shared rest t code ->
  exists done ls tl,
    Forall2 (stage_ok env shared) done ls /\ t = mjoin ls ++ tl
    /\ ((rest = done /\ tl = [EvExit EXIT_SUCCESS] /\ code = EXIT_SUCCESS)
        \/ (exists st todo, rest = done ++ st :: todo
              /\ stage_fail env shared st tl /\ code = EXIT_FAILURE)).
Proof.
  induction 1 as [|st rest l t code Hst Hr IH|st rest l Hst].
  - exists [], [], [EvExit EXIT_SUCCESS]. split; [constructor|]. split; [done|]. now left.
  - destruct IH as (done & ls & tl & Hall & -> & Hend).
    exists (st :: done), (l :: ls), tl. split; [now constructor|].
    split; [simpl; now rewrite app_assoc|].
    destruct Hend as [(-> & -> & ->)|(st' & todo & -> & Hf & ->)]; [now left|].
    right. exists st', todo. done.
  - exists [], [], l. split; [constructor|]. split; [done|].
    right. exists st, rest. done.
Qed.

Lemma allowed_ok_not_exit st e : allowed_ok env shared st e -> is_exit e = false.
Proof.
  destruct st; simpl; intros H;
    repeat match goal with
           | H : _ \/ _ |- _ => destruct H
           | H : exists _, _ |- _ => destruct H
           end; subst; reflexivity.
Qed.

Lemma allowed_fail_not_exit st e : allowed_fail env shared st e -> is_exit e = false.
Proof.
  destruct st; simpl; intros H;
    repeat match goal with
           | H : exists _, _ |- _ => destruct H
           | H : False |- _ => destruct H
           end; subst; reflexivity.
Qed.

Lemma allowed_ok_not_stderr st e :
  allowed_ok env shared st e -> written STDERR e = None.
Proof.
  destruct st; simpl; intros H;
    repeat match goal with
           | H : _ \/ _ |- _ => destruct H
           | H : exists _, _ |- _ => destruct H
           end; subst; reflexivity.
Qed.

(** A run ends with its one [exit], whose status is 0 or 1. *)
Lemma runs_exit_last rest t code :
  runs env shared rest t code ->
  exists t', t = t' ++ [EvExit code]
             /\ Forall (fun e => is_exit e = false) t'
             /\ (code = EXIT_SUCCESS \/ code = EXIT_FAILURE).
Proof.
  induction 1 as [|st rest l t code Hst Hr IH|st rest l Hst].
  - exists []. split; [done|]. split; [constructor | now left].
  - destruct IH as (t' & -> & Ht' & Hcode). exists (l ++ t').
    split; [now rewrite app_assoc|]. split; [|done].
    apply Forall_app. split; [|done].
    eapply Forall_impl; [apply stage_ok_events, Hst|]. apply allowed_ok_not_exit.
  - apply stage_fail_shape in Hst as (l0 & f & msg & n & -> & _ & Hl0 & Hf).
    exists (l0 ++ [f; EvWrite STDERR (perror_text env msg n)]).
    split; [unfold fatal; now rewrite <- app_assoc|]. split; [|now right].
    apply Forall_app. split.
    + eapply Forall_impl; [exact Hl0|]. apply allowed_ok_not_exit.
    + constructor; [now apply allowed_fail_not_exit with st|]. now repeat constructor.
Qed.

Lemma failure_not_stderr f msg n :
  failure_of f = Some (msg, n) -> written STDERR f = None.
Proof. destruct f; try discriminate; reflexivity. Qed.

(** A run that exits with status 0 wrote nothing on the error stream; one
    that exits with status 1 wrote one text there, the line of [perror]
    for the call that had just failed, right before the exit. *)
Lemma runs_status rest t code :
  runs env shared rest t code ->
  (code = EXIT_SUCCESS /\ writes STDERR t = [])
  \/ (code = EXIT_FAILURE
      /\ exists t0 f msg n,
           t = t0 ++ fatal env f msg n /\ failure_of f = Some (msg, n)
           /\ writes STDERR t0 = []).
Proof.
  induction 1 as [|st rest l t code Hst Hr IH|st rest l Hst].
  - left. done.
  - assert (writes STDERR l = []) as Hl.
    { apply writes_none. eapply Forall_impl; [apply stage_ok_events, Hst|].
      apply allowed_ok_not_stderr. }
    destruct IH as [[-> Ht]|(-> & t0 & f & msg & n & -> & Hf & Ht0)].
    + left. now rewrite writes_app, Hl, Ht.
    + right. split; [done|]. exists (l ++ t0), f, msg, n.
      split; [now rewrite app_assoc|]. split; [done|].
      now rewrite writes_app, Hl, Ht0.
  - apply stage_fail_shape in Hst as (l0 & f & msg & n & -> & Hff & Hl0 & Hf).
    right. split; [done|]. exists l0, f, msg, n. split; [done|]. split; [done|].
    apply writes_none. eapply Forall_impl; [exact Hl0|]. apply allowed_ok_not_stderr.
Qed.

End Stages.

(** ** What a run leaves on its streams *)

Lemma filter_none {A} (f : A -> bool) (l : list A) :
  Forall (fun x => f x = false) l -> filter (fun x => f x = true) l = [].
Proof.
  induction 1 as [|x l Hx _ IH]; [done|].
  rewrite filter_cons, decide_False by (rewrite Hx; discriminate). exact IH.
Qed.

Lemma completed_app t1 t2 : completed (t1 ++ t2) = (completed t1 + completed t2)%nat.
Proof. unfold completed. now rewrite filter_app, length_app. Qed.

Lemma completed_streams t :
  completed (filter (fun e => is_stream_call e = true) t) = completed t.
Proof.
  unfold completed. induction t as [|e t IH]; [done|].
  rewrite (filter_cons (fun e => is_stream_call e = true)),
    (filter_cons (fun e => is_fclose e = true) e t).
  destruct (decide (is_stream_call e = true)) as [Hs|Hs].
  - rewrite filter_cons. destruct (decide (is_fclose e = true)); simpl; now rewrite IH.
  - rewrite decide_False; [exact IH|]. destruct e; try discriminate. now destruct Hs.
Qed.

Lemma stream_calls_S j :
  stream_calls (S j)
  = stream_calls j ++ [EvFopen "/proc/meminfo" "r" (Ok j); EvFclose j].
Proof. unfold stream_calls. now rewrite seq_S, flat_map_app. Qed.

Lemma completed_stream_calls j o :
  completed (stream_calls j ++ failed_open o) = j.
Proof.
  rewrite completed_app. replace (completed (failed_open o)) with 0%nat by now destruct o.
  induction j as [|j IH]; [done|]. rewrite stream_calls_S, completed_app in *.
  change (completed [_; _]) with 1%nat. lia.
Qed.

Section StageFacts.

Variable env : os_env.
Variable shared : bool.

Lemma stage_ok_out st l :
  stage_ok env shared st l -> writes STDOUT l = stage_out env shared st.
Proof.
  intros H. destruct H; cbn [stage_out].
  - apply writes_fmap_same.
  - rewrite writes_pmc_events. unfold meminfo_at. now rewrite H.
  - reflexivity.
  - apply writes_init_stores.
  - reflexivity.
  - apply writes_forks.
  - apply writes_waits.
  - reflexivity.
Qed.

Lemma stage_ok_streams st l :
  stage_ok env shared st l ->
  filter (fun e => is_stream_call e = true) l = stage_streams st.
Proof.
  intros H. destruct H; simpl; try reflexivity;
    try (apply filter_none, Forall_fmap, Forall_forall; now intros x _).
  unfold pmc_events. rewrite filter_cons, decide_True by done.
  rewrite filter_app, filter_none by (apply Forall_fmap, Forall_forall; now intros x _).
  reflexivity.
Qed.

Lemma stages_out done ls :
  Forall2 (stage_ok env shared) done ls ->
  writes STDOUT (mjoin ls) = mjoin (stage_out env shared <$> done).
Proof.
  induction 1 as [|st l done ls Hst _ IH]; [done|].
  simpl. now rewrite writes_app, IH, (stage_ok_out st l).
Qed.

Lemma stages_streams done ls :
  Forall2 (stage_ok env shared) done ls ->
  filter (fun e => is_stream_call e = true) (mjoin ls) = mjoin (stage_streams <$> done).
Proof.
  induction 1 as [|st l done ls Hst _ IH]; [done|].
  simpl. now rewrite filter_app, IH, (stage_ok_streams st l).
Qed.

(** A stage that fails prints nothing on the standard output; the only
    stream call it makes is the [fopen] that failed. *)
Lemma stage_fail_quiet st tl :
  stage_fail env shared st tl ->
  writes STDOUT tl = []
  /\ exists o, filter (fun e => is_stream_call e = true) tl = failed_open o.
Proof.
  intros H. destruct H.
  - split; [reflexivity|]. now exists (Some e).
  - split; [reflexivity|]. now exists None.
  - split; [reflexivity|]. now exists None.
  - split.
    + now rewrite writes_app, writes_forks.
    + exists None. rewrite filter_app, filter_none; [reflexivity|].
      apply Forall_fmap, Forall_forall. now intros x _.
  - split.
    + now rewrite writes_app, writes_waits.
    + exists None. rewrite filter_app, filter_none; [reflexivity|].
      apply Forall_fmap, Forall_forall. now intros x _.
Qed.

(** The stages of the script, prefix by prefix. *)
Lemma script_prefix n :
  (n <= 14)%nat ->
  (nreports (take n script) <= 7)%nat
  /\ ((n < 14)%nat -> (nreports (take n script) < 7)%nat)
  /\ mjoin (stage_streams <$> take n script) = stream_calls (nreports (take n script))
  /\ ((1 <= n)%nat ->
      mjoin (stage_out env shared <$> take n script)
      = banner shared ++ mjoin (take (nreports (take n script)) (reports env))).
Proof.
  intros Hn.
  do 15 (destruct n as [|n];
         [split; [vm_compute; lia|]; split; [vm_compute; lia|]; split; [reflexivity|];
          intros H; first [lia | reflexivity]|]).
  lia.
Qed.

Lemma runs_outputs t code :
  runs env shared script t code ->
  exists j o,
    (j <= 7)%nat
    /\ filter (fun e => is_stream_call e = true) t = stream_calls j ++ failed_open o
    /\ writes STDOUT t = banner shared ++ mjoin (take j (reports env))
    /\ (code = EXIT_SUCCESS -> j = 7%nat /\ o = None)
    /\ (j = 7%nat -> code = EXIT_SUCCESS).
Proof.
  intros Hr. destruct (runs_stages env shared _ _ _ Hr) as (done & ls & tl & Hall & -> & Hend).
  rewrite filter_app, writes_app, (stages_out _ _ Hall), (stages_streams _ _ Hall).
  destruct Hend as [(<- & -> & ->)|(st & todo & Hscript & Hf & ->)].
  - exists 7%nat, None. split; [lia|].
    destruct (script_prefix 14 ltac:(lia)) as (_ & _ & H2 & H3).
    change (take 14 script) with script in *.
    change (nreports script) with 7%nat in *.
    rewrite H2, H3 by lia. split; [reflexivity|]. split; [now rewrite app_nil_r|]. done.
  - assert (done = take (List.length done) script) as Hd
      by (rewrite Hscript; now rewrite take_app_length).
    assert (List.length done < 14)%nat as Hlen.
    { apply (f_equal List.length) in Hscript. rewrite length_app in Hscript.
      simpl in Hscript. lia. }
    destruct (stage_fail_quiet _ _ Hf) as (Hout & o & Hstr).
    destruct (script_prefix (List.length done) ltac:(lia)) as (H1 & H1' & H2 & H3).
    rewrite <- Hd in *.
    exists (nreports done), o. split; [done|]. rewrite H2, Hstr, Hout.
    split; [reflexivity|].
    assert (1 <= List.length done)%nat as Hpos.
    { destruct done as [|d done]; [|simpl; lia]. simpl in Hscript.
      injection Hscript as <- _. inversion Hf. }
    rewrite H3 by done. split; [now rewrite app_nil_r|].
    split; [intros H; discriminate H|].
    intros Hj. specialize (H1' Hlen). lia.
Qed.

End StageFacts.

(** ** The pieces the reporter reads *)

Lemma nul_free_app a b : nul_free a -> nul_free b -> nul_free (a +:+ b).
Proof. induction a as [|c a IH]; [done|]. intros [Hc Ha] Hb. simpl. auto. Qed.

Lemma nul_free_c_str s : nul_free (c_str s).
Proof.
  induction s as [|c s IH]; [done|]. simpl.
  destruct (decide (c = NUL)); simpl; auto.
Qed.

Lemma c_str_app a b : nul_free a -> c_str (a +:+ b) = a +:+ c_str b.
Proof.
  induction a as [|c a IH]; [done|]. intros [Hc Ha].
  change (String c a +:+ b) with (String c (a +:+ b)). simpl.
  rewrite decide_False by done. now rewrite IH.
Qed.

Lemma length_app_string (a b : string) :
  String.length (a +:+ b) = (String.length a + String.length b)%nat.
Proof.
  induction a as [|c a IH]; [done|].
  change (String c a +:+ b) with (String c (a +:+ b)). simpl. now rewrite IH.
Qed.

Lemma c_str_length s : (String.length (c_str s) <= String.length s)%nat.
Proof.
  induction s as [|c s IH]; [done|]. simpl.
  destruct (decide (c = NUL)); simpl; lia.
Qed.

Lemma take_token_length s : (String.length (take_token nl s) <= String.length s)%nat.
Proof.
  induction s as [|c s IH]; [done|].
  destruct (decide (c = NL)) as [->|Hc].
  - rewrite take_token_nl. simpl. lia.
  - rewrite take_token_other by done. simpl. lia.
Qed.

(** What [fgets] stores and what it leaves make up what was there. *)
Lemma read_line_split n s b r : read_line n s = (b, r) -> s = b +:+ r.
Proof.
  revert s b r. induction n as [|n IH]; intros s b r; simpl.
  - now intros [= <- <-].
  - destruct s as [|c s]; [now intros [= <- <-]|].
    destruct (decide (c = NL)); [now intros [= <- <-]|].
    destruct (read_line n s) as [l rest] eqn:Hrl. intros [= <- <-].
    apply IH in Hrl. now rewrite Hrl.
Qed.

Lemma read_line_bound n s b r :
  read_line n s = (b, r) -> (String.length b <= n)%nat.
Proof.
  revert s b r. induction n as [|n IH]; intros s b r; simpl.
  - now intros [= <- <-].
  - destruct s as [|c s]; [intros [= <- <-]; simpl; lia|].
    destruct (decide (c = NL)); [intros [= <- <-]; simpl; lia|].
    destruct (read_line n s) as [l rest] eqn:Hrl. intros [= <- <-].
    apply IH in Hrl. simpl. lia.
Qed.

Lemma read_line_nl n s b r :
  read_line n s = (b, r) -> count_nl b = 0%nat \/ one_line b.
Proof.
  revert s b r. induction n as [|n IH]; intros s b r; simpl.
  - intros [= <- <-]. now left.
  - destruct s as [|c s]; [intros [= <- <-]; now left|].
    destruct (decide (c = NL)) as [->|Hc].
    + intros [= <- <-]. right. now exists EmptyString.
    + destruct (read_line n s) as [l rest] eqn:Hrl. intros [= <- <-].
      destruct (IH _ _ _ Hrl) as [H|(body & -> & H)].
      * left. simpl. now rewrite decide_False.
      * right. exists (String c body). split; [done|]. simpl. now rewrite decide_False.
Qed.

Lemma read_line_full n s b r :
  read_line n s = (b, r) -> r <> EmptyString ->
  one_line b \/ String.length b = n.
Proof.
  revert s b r. induction n as [|n IH]; intros s b r; simpl.
  - intros [= <- <-]. now right.
  - destruct s as [|c s]; [now intros [= <- <-]|].
    destruct (decide (c = NL)) as [->|Hc].
    + intros [= <- <-] _. left. now exists EmptyString.
    + destruct (read_line n s) as [l rest] eqn:Hrl. intros [= <- <-] Hr.
      destruct (IH _ _ _ Hrl Hr) as [(body & -> & H)|H].
      * left. exists (String c body). split; [done|]. simpl. now rewrite decide_False.
      * right. simpl. now rewrite H.
Qed.

(** The pieces the reporter reads make up the file, and each is a piece. *)
Lemma file_bufs_pieces c :
  foldr String.app EmptyString (file_bufs c) = c
  /\ Forall piece (file_bufs c)
  /\ (forall i b, file_bufs c !! i = Some b ->
        (S i < List.length (file_bufs c))%nat -> full_piece b).
Proof.
  remember (String.length c) as n eqn:Hn. revert c Hn.
  induction (lt_wf n) as [n _ IH]. intros c ->.
  destruct (fgets_bytes 100 c) as [[b r]|] eqn:Hf.
  - rewrite (file_bufs_step _ _ _ Hf).
    pose proof (fgets_bytes_shrinks _ _ _ Hf) as Hlt.
    destruct (IH _ Hlt r eq_refl) as (Hcat & Hall & Hfull).
    destruct c as [|x c]; [done|]. unfold fgets_bytes in Hf. apply (inj Some) in Hf.
    change (100 - 1)%nat with 99%nat in Hf.
    pose proof (read_line_split _ _ _ _ Hf) as Hsplit.
    pose proof (read_line_bound _ _ _ _ Hf) as Hbound.
    pose proof (read_line_nl _ _ _ _ Hf) as Hnl.
    pose proof (read_line_full _ _ _ _ Hf) as Hfill.
    destruct (read_line_nonempty 98 x c b r Hf) as [b' ->]. clear Hf.
    split; [|split].
    + cbn [foldr]. now rewrite Hcat.
    + constructor; [|exact Hall]. split; [|exact Hnl].
      cbn [String.length] in *. lia.
    + intros [|i] b0 Hb0 Hi.
      * injection Hb0 as <-. apply Hfill.
        intros ->. rewrite file_bufs_eof in Hi by done. cbn [List.length] in Hi. lia.
      * apply (Hfull i); [exact Hb0|]. cbn [List.length] in Hi. lia.
  - destruct c; [|discriminate]. split; [done|]. split; [constructor|].
    intros i b Hb. discriminate Hb.
Qed.

(** A line the reporter prints: the metric name and what follows it up
    to a newline or NUL byte, the label, a newline. *)
Lemma report_line_shape msg buf :
  is_metric buf = true -> (String.length buf <= 99)%nat ->
  exists r,
    report_line msg buf = memstr +:+ r +:+ "    (" +:+ c_str msg +:+ ")" +:+ nl
    /\ count_nl r = 0%nat /\ nul_free r /\ (String.length r <= 86)%nat.
Proof.
  intros Hm Hlen.
  assert (exists r0, buf = memstr +:+ r0) as [r0 ->].
  { unfold is_metric in Hm. apply bool_decide_eq_true in Hm.
    now apply (strncmp_prefix memstr buf) in Hm; [|exact memstr_nul_free]. }
  exists (take_token nl (c_str r0)). unfold report_line.
  rewrite (c_str_app memstr r0) by exact memstr_nul_free.
  change (strtok (memstr +:+ c_str r0) nl)
    with (Some (take_token nl (memstr +:+ c_str r0))).
  rewrite take_token_memstr. cbn [fmt_s].
  rewrite (c_str_nul_free (memstr +:+ _)).
  2:{ apply nul_free_app; [exact memstr_nul_free|].
      apply take_token_nul_free, nul_free_c_str. }
  split; [now rewrite string_app_assoc|].
  split; [apply count_nl_take_token|].
  split; [apply take_token_nul_free, nul_free_c_str|].
  rewrite length_app_string in Hlen. change (String.length memstr) with 13%nat in Hlen.
  pose proof (take_token_length (c_str r0)). pose proof (c_str_length r0). lia.
Qed.

Lemma pmc_writes env msg s c :
  os_fopen env (st_nopen s) "/proc/meminfo" = Ok c ->
  writes STDOUT (drop (List.length (st_trace s)) (st_trace (print_mem_commit env msg s).1.2))
  = report msg c.
Proof.
  intros Hc. destruct (pmc_returns env msg s c Hc) as (s' & -> & Htr & _).
  cbn [fst snd]. rewrite Htr, drop_app_length. apply writes_pmc_events.
Qed.

(** ** Rules for processes with children *)

Lemma flat_map_stopped {A B} (k : A -> M B) (ks : list kid) :
  flat_map (fun c => procs (resume k c)) (stopped <$> ks) = stopped <$> ks.
Proof.
  induction ks as [|x ks IH]; [done|].
  rewrite !fmap_cons. cbn [flat_map]. rewrite IH. reflexivity.
Qed.

Lemma wp_no_children {A} (m : M A) Q E s : wp m Q E never never s -> (m s).2 = [].
Proof.
  intros [_ Hc]. destruct (m s).2 as [|c cs]; [done|].
  apply Forall_cons in Hc as [Hc _]. destruct c as [[a|h] sc]; destruct Hc.
Qed.

Lemma wpk_of_wp {A} (m : M A) Q' E' (Q : A -> state -> list kid -> Prop)
    (E : stop -> state -> list kid -> Prop) s :
  wp m Q' E' never never s ->
  (forall a s', Q' a s' -> Q a s' []) -> (forall h s', E' h s' -> E h s' []) ->
  wpk m Q E s.
Proof.
  intros Hwp HQ HE. exists []. split; [now apply wp_no_children in Hwp|].
  destruct Hwp as [Hp _]. destruct (m s).1 as [[a|h] s']; simpl in *; auto.
Qed.

Lemma wpk_mono {A} (m : M A) (Q Q' : A -> state -> list kid -> Prop)
    (E E' : stop -> state -> list kid -> Prop) s :
  wpk m Q E s ->
  (forall a s' ks, Q a s' ks -> Q' a s' ks) -> (forall h s' ks, E h s' ks -> E' h s' ks) ->
  wpk m Q' E' s.
Proof.
  intros (ks & Hks & Hp) HQ HE. exists ks. split; [exact Hks|].
  destruct (m s).1 as [[a|h] s']; auto.
Qed.

Lemma wpk_ret {A} (a : A) (Q : A -> state -> list kid -> Prop) E s :
  Q a s [] -> wpk (ret a) Q E s.
Proof. intros H. exists []. split; [done|]. exact H. Qed.

Lemma wpk_bind {A B} (m : M A) (k : A -> M B) Q E s :
  wpk m (fun a s' ks => wpk (k a) (fun b s'' ks' => Q b s'' (ks' ++ ks))
                          (fun h s'' ks' => E h s'' (ks' ++ ks)) s')
        E s ->
  wpk (bind m k) Q E s.
Proof.
  unfold wpk at 1 3, bind. destruct (m s) as [[o s1] cs]. cbn [fst snd].
  intros (ks & -> & Hp). rewrite flat_map_stopped.
  destruct o as [a|h]; cbn [resume].
  - destruct Hp as (ks' & Hks' & Hp). destruct (k a s1) as [r' cs']. cbn [fst snd] in *.
    exists (ks' ++ ks). split; [now rewrite Hks', fmap_app|]. exact Hp.
  - exists ks. split; [done|]. exact Hp.
Qed.

(** A step that forks nothing. *)
Lemma wpk_bind_wp {A B} (m : M A) (k : A -> M B) Q E s :
  wp m (fun a s' => wpk (k a) Q E s') (fun h s' => E h s' []) never never s ->
  wpk (bind m k) Q E s.
Proof.
  intros Hwp. apply wpk_bind. eapply wpk_of_wp; [exact Hwp| |].
  - intros a s' (ks & Hks & Hp). exists ks. split; [exact Hks|].
    destruct (k a s').1 as [[b|h] s'']; now rewrite app_nil_r.
  - auto.
Qed.

Section ForkRule.

Variable env : os_env.

(** [fork], and then [k]: the child runs [k 0] and stops. *)
Lemma wpk_fork_bind {B} (k : Z -> M B) Q E s :
  (forall pid, os_fork env (st_nfork s) = Ok pid ->
     exists h sc,
       k 0 (child_of s) = ((Stop h, sc), [])
       /\ wpk (k (Z.pos pid))
            (fun b s'' ks' => Q b s'' (ks' ++ [(h, sc)]))
            (fun h' s'' ks' => E h' s'' (ks' ++ [(h, sc)]))
            (log (EvFork (Ok pid)) (tick_fork (set_children (st_children s ++ [pid]) s)))) ->
  (forall e, os_fork env (st_nfork s) = Err e ->
     wpk (k (-1)) Q E (log (EvFork (Err e)) (tick_fork (set_errno e s)))) ->
  wpk (bind (fork env) k) Q E s.
Proof.
  intros Hok Herr. unfold wpk, bind, fork.
  destruct (os_fork env (st_nfork s)) as [pid|e]; cbn [fst snd resume flat_map].
  - destruct (Hok pid eq_refl) as (h & sc & Hk0 & ks' & Hks' & Hp).
    rewrite Hk0. cbn [procs fst snd].
    destruct (k (Z.pos pid) _) as [r' cs']. cbn [fst snd] in *.
    exists (ks' ++ [(h, sc)]). split; [|exact Hp].
    rewrite Hks', fmap_app. reflexivity.
  - destruct (Herr e eq_refl) as (ks' & Hks' & Hp).
    destruct (k (-1) _) as [r' cs']. cbn [fst snd] in *.
    exists ks'. split; [now rewrite app_nil_r|]. exact Hp.
Qed.

End ForkRule.

Lemma wpk_loop {V} (I : nat -> V -> state -> list kid -> Prop)
    (step : V -> M (option V)) Q E :
  (forall n v s ks, I n v s ks ->
     wpk (step v)
         (fun o s' ks' => match o with
                          | Some v' => exists n', (n' < n)%nat /\ I n' v' s' (ks' ++ ks)
                          | None => Q v s' (ks' ++ ks)
                          end)
         (fun h s' ks' => E h s' (ks' ++ ks)) s) ->
  forall fuel n v s ks, (n < fuel)%nat -> I n v s ks ->
  wpk (loop fuel step v) (fun v' s' ks' => Q v' s' (ks' ++ ks))
      (fun h s' ks' => E h s' (ks' ++ ks)) s.
Proof.
  intros Hstep fuel. induction fuel as [|fuel IH]; intros n v s ks Hn HI; [lia|].
  simpl. apply wpk_bind.
  destruct (Hstep n v s ks HI) as (ks1 & Hks1 & Hp). exists ks1. split; [exact Hks1|].
  destruct (step v s).1 as [[[v'|]|h] s']; cbn beta iota.
  - destruct Hp as (n' & Hn' & HI').
    destruct (IH n' v' s' (ks1 ++ ks) ltac:(lia) HI') as (ks2 & Hks2 & Hp2).
    exists ks2. split; [exact Hks2|].
    destruct (loop fuel step v' s').1 as [[w|h] s'']; now rewrite <- app_assoc.
  - exists []. split; [done|]. exact Hp.
  - exact Hp.
Qed.

(** ** Counting the children *)

Lemma nforks_app t1 t2 : nforks (t1 ++ t2) = (nforks t1 + nforks t2)%nat.
Proof. unfold nforks. now rewrite filter_app, length_app. Qed.

Lemma nforks_nil : nforks [] = 0%nat.
Proof. reflexivity. Qed.

Lemma nforks_cons e t :
  nforks (e :: t) = ((if is_fork_ok e then 1 else 0) + nforks t)%nat.
Proof. unfold nforks. rewrite filter_cons. now destruct (is_fork_ok e). Qed.

Lemma nforks_none t : Forall (fun e => is_fork_ok e = false) t -> nforks t = 0%nat.
Proof. intros H. unfold nforks. now rewrite filter_none. Qed.

Lemma nforks_forks (pids : list positive) :
  nforks (EvFork ∘ Ok <$> pids) = List.length pids.
Proof.
  unfold nforks. induction pids as [|p pids IH]; [done|].
  rewrite fmap_cons, filter_cons, decide_True by done. simpl. now rewrite IH.
Qed.

Lemma nforks_pmc_events k msg c : nforks (pmc_events k msg c) = 0%nat.
Proof.
  apply nforks_none. unfold pmc_events. constructor; [done|].
  apply Forall_app. split; [|now repeat constructor].
  apply Forall_fmap, Forall_forall. now intros x _.
Qed.

Lemma nforks_init_stores addr n : nforks (init_stores addr n) = 0%nat.
Proof. apply nforks_none, Forall_fmap, Forall_forall. now intros x _. Qed.

Lemma nforks_waits (rs : list positive) : nforks (EvWait ∘ Ok <$> rs) = 0%nat.
Proof. apply nforks_none, Forall_fmap, Forall_forall. now intros x _. Qed.

(** ** The children of [main] *)

Section Heirs.

Variable env : os_env.
Variable shared : bool.

Local Abbreviation exit_kids := (exit_kids env shared).
Local Abbreviation heir := (heir env shared).

(** The reporter leaves the memory as it is. *)
Lemma wp_pmc_mem msg s :
  wp (print_mem_commit env msg) (fun _ s' => st_mem s' = st_mem s)
     (fun _ s' => st_mem s' = st_mem s) never never s.
Proof.
  unfold print_mem_commit. apply wp_bind, wp_fopen.
  - intros c Hc. set (k := st_nopen s). apply wp_bind, wp_when; [done|]. intros _.
    apply wp_bind. eapply wp_unread; [apply lookup_insert_eq|]. apply wp_bind.
    set (I := fun (n : nat) (_ : unit) (s1 : state) =>
      st_mem s1 = st_mem s
      /\ exists rest, st_files s1 !! k = Some rest /\ (String.length rest <= n)%nat).
    eapply wp_mono;
      [eapply (wp_loop I _ (fun _ s1 => st_mem s1 = st_mem s)) with (n := String.length c)
      | | | |].
    + intros n [] s1 (Hmem & rest & Hrest & Hlen).
      apply wp_bind. eapply wp_fgets; [exact Hrest| |].
      * intros buf rest' Hf. pose proof (fgets_bytes_shrinks _ _ _ Hf) as Hlt.
        apply wp_bind, wp_when.
        -- intros _. apply wp_fprintf, wp_ret. exists (String.length rest').
           split; [lia|]. split; [done|]. exists rest'. simpl.
           now rewrite lookup_insert_eq.
        -- intros _. apply wp_ret. exists (String.length rest').
           split; [lia|]. split; [done|]. exists rest'. simpl.
           now rewrite lookup_insert_eq.
      * intros _. apply wp_ret. exact Hmem.
    + lia.
    + split; [done|]. exists c. simpl. now rewrite lookup_insert_eq.
    + intros [] s1 Hmem. apply wp_fclose. exact Hmem.
    + intros h s' H. exact H.
    + intros a s' [].
    + intros h s' H. exact H.
  - intros e He. apply wp_bind, wp_when; [|done]. intros _.
    apply wp_handle_error. done.
Qed.

(** One checkpoint, with all that the walk needs of it. *)
Lemma wp_checkpoint msg (Q : unit -> state -> Prop) (E : stop -> state -> Prop) s :
  (forall e s', os_fopen env (st_nopen s) "/proc/meminfo" = Err e ->
     st_trace s' = st_trace s ++ pmc_failure env e ->
     E (Exited EXIT_FAILURE) s') ->
  (forall c s', os_fopen env (st_nopen s) "/proc/meminfo" = Ok c ->
     frame s s' -> st_nopen s' = S (st_nopen s) ->
     st_trace s' = st_trace s ++ pmc_events (st_nopen s) msg c ->
     st_mem s' = st_mem s ->
     Q tt s') ->
  wp (print_mem_commit env msg) Q E never never s.
Proof.
  intros Hfail Hok.
  assert (wp (print_mem_commit env msg)
            (fun _ s' => exists c, os_fopen env (st_nopen s) "/proc/meminfo" = Ok c
                                   /\ frame s s' /\ st_nopen s' = S (st_nopen s)
                                   /\ st_trace s' = st_trace s ++ pmc_events (st_nopen s) msg c)
            (fun h s' => h = Exited EXIT_FAILURE
                         /\ exists e, os_fopen env (st_nopen s) "/proc/meminfo" = Err e
                                      /\ st_trace s' = st_trace s ++ pmc_failure env e)
            never never s) as [H1 Hc].
  { apply wp_print_mem_commit.
    - intros e s' He _ _ Htr. split; [done|]. now exists e.
    - intros c s' Hc Hfr Hno Htr _. now exists c. }
  destruct (wp_pmc_mem msg s) as [H2 _].
  split; [|exact Hc].
  destruct (print_mem_commit env msg s).1 as [[[]|h] s']; simpl in *.
  - destruct H1 as (c & Hc1 & Hfr & Hno & Htr). now apply (Hok c).
  - destruct H1 as (-> & e & He & Htr). now apply (Hfail e).
Qed.

Lemma born_heir s k :
  st_depth s = 0%nat -> st_region s = Some (heir_region env shared) ->
  (exists m, st_mem s = init_mem (env_addr env) main_slots m) ->
  born s k -> heir k.
Proof.
  intros Hd Hr Hm (H1 & H2 & H3 & H4 & H5 & H6).
  split; [done|]. split; [done|]. split; [congruence|]. split; [done|].
  split; [congruence|]. destruct Hm as [m Hm]. exists m. congruence.
Qed.

(** The loop of lines 106-113, with the children it leaves. *)
Lemma wpk_fork_loop Q E s :
  (forall pids e s' ks, (List.length pids < 16)%nat ->
     forks_ok env (st_nfork s) pids ->
     os_fork env (st_nfork s + List.length pids) = Err e ->
     st_trace s' = st_trace s ++ (EvFork ∘ Ok <$> pids) ++ fatal env (EvFork (Err e)) "fork" e ->
     List.length ks = List.length pids -> Forall (born s) ks ->
     E (Exited EXIT_FAILURE) s' ks) ->
  (forall pids s' ks, List.length pids = 16%nat ->
     forks_ok env (st_nfork s) pids ->
     st_trace s' = st_trace s ++ (EvFork ∘ Ok <$> pids) ->
     st_children s' = st_children s ++ pids ->
     st_nopen s' = st_nopen s -> st_nwait s' = st_nwait s ->
     List.length ks = 16%nat -> Forall (born s) ks ->
     Q NUM_CHLD s' ks) ->
  wpk (fork_loop env) Q E s.
Proof.
  intros Hfail Hok. unfold fork_loop. rewrite NUM_CHLD_nat.
  set (Inv := fun (n : nat) (i : Z) (s1 : state) (ks : list kid) =>
    exists pids, i = Z.of_nat (List.length pids) /\ (List.length pids <= 16)%nat
      /\ n = (16 - List.length pids)%nat /\ forks_ok env (st_nfork s) pids
      /\ st_trace s1 = st_trace s ++ (EvFork ∘ Ok <$> pids)
      /\ st_children s1 = st_children s ++ pids
      /\ st_nfork s1 = (st_nfork s + List.length pids)%nat
      /\ st_region s1 = st_region s /\ st_mem s1 = st_mem s
      /\ st_depth s1 = st_depth s
      /\ st_nopen s1 = st_nopen s /\ st_nwait s1 = st_nwait s
      /\ List.length ks = List.length pids /\ Forall (born s) ks).
  eapply wpk_mono;
    [eapply (wpk_loop Inv _ (fun i s1 ks => Inv 0%nat i s1 ks) E)
       with (n := 16%nat) (ks := @nil kid) | |].
  - (* one turn of the loop *)
    intros n i s1 ks
      (pids & -> & Hlen & -> & Hpids & Htr & Hch & Hnf & Hrg & Hmem & Hd & Hno & Hnw & Hlk & Hks).
    unfold NUM_CHLD. case_bool_decide as Hlt.
    + apply wpk_fork_bind.
      * (* a child is born *)
        intros pid Hpid. rewrite Hnf in Hpid.
        eexists _, _. split; [reflexivity|].
        apply wpk_bind_wp, wp_when; [done|]. intros _.
        apply wpk_bind_wp, wp_when; [done|]. intros _. apply wpk_ret.
        exists (16 - S (List.length pids))%nat. split; [lia|].
        exists (pids ++ [pid]). rewrite length_app. simpl.
        split. { rewrite wrap_int_small; unfold INT_MIN, INT_MAX; lia. }
        split; [lia|]. split; [lia|].
        split; [now apply forks_ok_snoc|].
        split. { now rewrite Htr, fmap_app, <- !app_assoc. }
        split. { now rewrite Hch, <- app_assoc. }
        split; [lia|].
        split; [exact Hrg|]. split; [exact Hmem|]. split; [exact Hd|].
        split; [exact Hno|]. split; [exact Hnw|].
        split; [lia|]. constructor; [|exact Hks].
        split; [done|]. split; [done|]. split; [simpl; now rewrite Hd|].
        split; [done|]. split; [exact Hrg | exact Hmem].
      * (* fork failed *)
        intros e He. rewrite Hnf in He.
        apply wpk_bind_wp, wp_when; [done|]. intros _.
        apply wpk_bind_wp, wp_when; [|done]. intros _. apply wp_handle_error.
        apply (Hfail pids e); [lia | done | done | | done | done].
        simpl. rewrite Htr. now rewrite <- !app_assoc.
    + apply wpk_ret. exists pids. assert (List.length pids = 16%nat) by lia.
      split; [done|]. split; [lia|]. split; [lia|]. done.
  - lia.
  - exists []. cbn [List.length fmap list_fmap]. rewrite !app_nil_r, Nat.add_0_r.
    repeat (split; [done || lia|]). constructor.
  - intros i s' ks (pids & -> & Hlen & Hn & Hpids & Htr & Hch & Hnf & Hrg & Hmem & Hd & Hno & Hnw & Hlk & Hks).
    rewrite app_nil_r in *.
    assert (List.length pids = 16%nat) as Hl by lia. rewrite Hl.
    apply (Hok pids); try done. lia.
  - intros h s' ks H. cbn beta in H. now rewrite app_nil_r in H.
Qed.

(** The loop of lines 116-119.  A process with sixteen children asks
    the system for one of them, sixteen times. *)
Lemma wp_reap (Q : Z -> state -> Prop) (E : stop -> state -> Prop) s :
  (16 <= List.length (st_children s))%nat ->
  (forall rs e s', (List.length rs < 16)%nat ->
     (forall k, (k < List.length rs)%nat ->
        is_ok (os_wait env (st_nwait s + k)) = true) ->
     os_wait env (st_nwait s + List.length rs) = Err e ->
     st_trace s' = st_trace s ++ (EvWait ∘ Ok <$> rs) ++ fatal env (EvWait (Err e)) "wait" e ->
     E (Exited EXIT_FAILURE) s') ->
  (forall rs s', List.length rs = 16%nat ->
     st_trace s' = st_trace s ++ (EvWait ∘ Ok <$> rs) ->
     st_nopen s' = st_nopen s ->
     (forall k, (k < 16)%nat -> is_ok (os_wait env (st_nwait s + k)) = true) ->
     Q NUM_CHLD s') ->
  wp (wait_loop env) Q E never never s.
Proof.
  intros Hkids Hfail Hok. unfold wait_loop. rewrite NUM_CHLD_nat.
  set (Inv := fun (n : nat) (i : Z) (s1 : state) =>
    exists rs, i = Z.of_nat (List.length rs) /\ (List.length rs <= 16)%nat
      /\ n = (16 - List.length rs)%nat
      /\ st_trace s1 = st_trace s ++ (EvWait ∘ Ok <$> rs)
      /\ (List.length (st_children s1) + List.length rs = List.length (st_children s))%nat
      /\ st_nwait s1 = (st_nwait s + List.length rs)%nat
      /\ st_nopen s1 = st_nopen s
      /\ forall k, (k < List.length rs)%nat ->
            is_ok (os_wait env (st_nwait s + k)) = true).
  eapply wp_mono;
    [eapply (wp_loop Inv _ (fun i s1 => Inv 0%nat i s1) E never) with (n := 16%nat)
    | | | |].
  - intros n i s1 (rs & -> & Hlen & -> & Htr & Hch & Hnw & Hno & Hgr).
    unfold NUM_CHLD. case_bool_decide as Hlt.
    + apply wp_bind, wp_wait.
      * (* no child is left: there is one *)
        intros Hnil. rewrite Hnil in Hch. simpl in Hch. lia.
      * (* a child is reaped *)
        intros j Hne Hj.
        apply wp_bind, wp_when; [done|]. intros _. apply wp_ret.
        exists (16 - S (List.length rs))%nat. split; [lia|].
        exists (rs ++ [reaped j (st_children s1)]). rewrite length_app. simpl.
        split. { rewrite wrap_int_small; unfold INT_MIN, INT_MAX; lia. }
        split; [lia|]. split; [lia|].
        split. { now rewrite Htr, fmap_app, <- !app_assoc. }
        split. { pose proof (reaped_unreaped j (st_children s1) Hne) as Hp.
                 apply Permutation_length in Hp. simpl in Hp. lia. }
        split; [lia|]. split; [done|].
        intros k Hk. destruct (decide (k = List.length rs)) as [->|Hne']; [|apply Hgr; lia].
        rewrite <- Hnw, Hj. reflexivity.
      * (* wait failed *)
        intros e Hne He. rewrite Hnw in He.
        apply wp_bind, wp_when; [|done]. intros _. apply wp_handle_error.
        apply (Hfail rs e); [lia | done | done |].
        simpl. rewrite Htr. now rewrite <- !app_assoc.
    + apply wp_ret. exists rs. assert (List.length rs = 16%nat) by lia.
      split; [done|]. split; [lia|]. split; [lia|]. done.
  - lia.
  - exists []. simpl. rewrite !app_nil_r, !Nat.add_0_r.
    repeat (split; [done || lia|]). intros k Hk. lia.
  - intros i s1 (rs & -> & Hlen & Hn & Htr & Hch & Hnw & Hno & Hgr).
    assert (List.length rs = 16%nat) as Hl by lia.
    rewrite Hl. apply (Hok rs); try done. intros k Hk. apply Hgr. lia.
  - intros h s' H. exact H.
  - intros a s' [].
  - intros h s' H. exact H.
Qed.

Lemma check_all_ok {A} msg (f : nat -> sysres A) k n rest :
  (forall j, (j < n)%nat -> is_ok (f (k + j)%nat) = true) ->
  check_all msg f k n rest = rest.
Proof.
  revert k. induction n as [|n IH]; intros k H; [done|]. simpl.
  pose proof (H 0%nat ltac:(lia)) as H0. rewrite Nat.add_0_r in H0.
  destruct (f k); [|discriminate]. simpl. apply IH.
  intros j Hj. replace (S k + j)%nat with (k + S j)%nat by lia. apply H. lia.
Qed.

Lemma check_all_fail {A} msg (f : nat -> sysres A) k n m e rest :
  (forall j, (j < m)%nat -> is_ok (f (k + j)%nat) = true) ->
  (m < n)%nat -> f (k + m)%nat = Err e ->
  check_all msg f k n rest = Some (msg, e).
Proof.
  revert k m. induction n as [|n IH]; intros k m H Hm He; [lia|]. simpl.
  destruct m as [|m].
  - rewrite Nat.add_0_r in He. now rewrite He.
  - pose proof (H 0%nat ltac:(lia)) as H0. rewrite Nat.add_0_r in H0.
    destruct (f k); [|discriminate]. simpl. apply (IH (S k) m); [|lia|].
    + intros j Hj. replace (S k + j)%nat with (k + S j)%nat by lia. apply H. lia.
    + now replace (S k + m)%nat with (k + S m)%nat by lia.
Qed.

Lemma succeeds_intro :
  (forall k, (k < 7)%nat -> is_ok (os_fopen env k "/proc/meminfo") = true) ->
  is_ok (os_mmap env) = true -> is_ok (os_mprotect env) = true ->
  (forall k, (k < 16)%nat -> is_ok (os_fork env k) = true) ->
  (forall k, (k < 16)%nat -> is_ok (os_wait env k) = true) ->
  succeeds env = true.
Proof.
  intros H1 H2 H3 H4 H5. unfold succeeds.
  rewrite !andb_true_iff, !forallb_forall.
  repeat split; try done; intros k Hk%in_seq; auto with lia.
Qed.

Lemma exit_fail s ks t0 f msg e :
  st_trace s = t0 ++ fatal env f msg e -> failure_of f = Some (msg, e) ->
  first_failure env = Some (msg, e) ->
  nforks t0 = List.length ks -> (List.length ks <= 16)%nat ->
  Forall heir ks -> exit_kids (Exited EXIT_FAILURE) s ks.
Proof.
  intros Htr Hf Hff H1 H2 H3. exists EXIT_FAILURE. split; [done|]. split.
  { rewrite Htr, nforks_app, H1, nforks_none; [lia|]. unfold fatal.
    destruct f; try discriminate Hf; destruct res; try discriminate Hf;
      now repeat constructor. }
  split; [done|]. split; [done|]. split; [intros H; discriminate H|].
  intros _. now exists t0, f, msg, e.
Qed.

Lemma exit_fail_report s s' ks e :
  st_trace s' = st_trace s ++ pmc_failure env e ->
  first_failure env = Some ("file open", e) ->
  nforks (st_trace s) = List.length ks -> (List.length ks <= 16)%nat ->
  Forall heir ks -> exit_kids (Exited EXIT_FAILURE) s' ks.
Proof.
  intros Htr. now apply (exit_fail s' ks (st_trace s) (EvFopen "/proc/meminfo" "r" (Err e))).
Qed.

(** [handle_error] right after the call [f] has failed. *)
Lemma exit_fail_call s ks f msg e :
  failure_of f = Some (msg, e) -> first_failure env = Some (msg, e) ->
  nforks (st_trace s) = List.length ks -> (List.length ks <= 16)%nat ->
  Forall heir ks ->
  exit_kids (Exited EXIT_FAILURE)
    (log (EvExit EXIT_FAILURE)
       (log (EvWrite STDERR
               (perror_text env msg (st_errno (log f (set_errno e s)))))
          (log f (set_errno e s)))) ks.
Proof.
  intros Hf Hff Hn Hlen Hall. apply (exit_fail _ ks (st_trace s) f msg e); try done.
  simpl. now rewrite <- !app_assoc.
Qed.

Lemma succeeds_no_failure : succeeds env = true -> first_failure env = None.
Proof.
  intros (Hopen & Hmap & Hprot & Hfork & Hwait)%succeeds_spec. unfold first_failure.
  cbv zeta.
  rewrite (check_all_ok "fork") by (intros j Hj; apply Hfork; lia).
  rewrite (check_all_ok "wait") by (intros j Hj; apply Hwait; lia).
  pose proof (Hopen 0%nat ltac:(lia)). pose proof (Hopen 1%nat ltac:(lia)).
  pose proof (Hopen 2%nat ltac:(lia)). pose proof (Hopen 3%nat ltac:(lia)).
  pose proof (Hopen 4%nat ltac:(lia)). pose proof (Hopen 5%nat ltac:(lia)).
  pose proof (Hopen 6%nat ltac:(lia)).
  destruct (os_fopen env 0 "/proc/meminfo"); [|discriminate].
  destruct (os_mmap env); [|discriminate].
  destruct (os_fopen env 1 "/proc/meminfo"); [|discriminate].
  destruct (os_fopen env 2 "/proc/meminfo"); [|discriminate].
  destruct (os_mprotect env); [|discriminate].
  destruct (os_fopen env 3 "/proc/meminfo"); [|discriminate].
  destruct (os_fopen env 4 "/proc/meminfo"); [|discriminate].
  destruct (os_fopen env 5 "/proc/meminfo"); [|discriminate].
  destruct (os_fopen env 6 "/proc/meminfo"); [|discriminate].
  reflexivity.
Qed.

End Heirs.

Section WalkKids.

Variable env : os_env.
Variable shared : bool.

Local Abbreviation exit_kids := (exit_kids env shared).
Local Abbreviation heir := (heir env shared).

Ltac nf :=
  simpl;
  rewrite ?nforks_app, ?nforks_cons, ?nforks_nil, ?nforks_pmc_events,
    ?nforks_init_stores, ?nforks_forks, ?nforks_waits;
  repeat match goal with
         | H : nforks _ = _ |- _ => rewrite H
         end;
  simpl; try reflexivity; try lia.

(* The requests granted so far, and the one refused. *)
Ltac ff :=
  unfold first_failure; cbv zeta;
  repeat match goal with
         | H : os_fopen env _ _ = _ |- _ => rewrite H
         | H : os_mmap env = _ |- _ => rewrite H
         | H : os_mprotect env = _ |- _ => rewrite H
         end;
  cbn [check];
  try (rewrite (check_all_ok "fork") by assumption; cbn [check]);
  try (rewrite (check_all_ok "wait") by assumption; cbn [check]);
  try reflexivity.

(** Every accepted invocation ends as [exit_kids] says. *)
Lemma main_kids prog a :
  parse_mode a = Some shared ->
  wpk (main env [prog; a]) (fun _ _ _ => False) exit_kids (start_state env).
Proof.
  intros Hmode. unfold main.
  apply wpk_bind_wp, wp_when; [intros H%bool_decide_eq_true; simpl in H; lia|]. intros _.
  apply wpk_bind_wp, wp_ret. apply wpk_bind_wp.
  eapply wp_mono with
    (Q := fun v s' => s' = start_state env /\ bool_decide (v <> 0) = shared)
    (E := fun _ _ => False) (Qc := never) (Ec := never); [| |intros ? ? []|auto|auto].
  { unfold parse_mode in Hmode. case_bool_decide as H1.
    - injection Hmode as <-. now apply wp_ret.
    - apply wp_bind, wp_ret. case_bool_decide as H2; [|done].
      injection Hmode as <-. now apply wp_ret. }
  intros sh s0 [-> Hsh]. rewrite Hsh.
  apply wpk_bind_wp, wp_fprintf. apply wpk_bind_wp, wp_fprintf.
  match goal with |- wpk _ _ _ ?s => set (s1 := s) end.
  assert (nforks (st_trace s1) = 0%nat) as Hn1 by reflexivity.
  (* initial state *)
  apply wpk_bind_wp, wp_checkpoint.
  { intros e s' He Htr. change (st_nopen s1) with 0%nat in He.
    apply (exit_fail_report env shared s1 s' [] e Htr); [ff | nf | simpl; lia | constructor]. }
  intros c0 s2 Ho0 Hfr2 Hno2 Htr2 _. change (st_nopen s1) with 0%nat in Ho0.
  assert (nforks (st_trace s2) = 0%nat) as Hn2 by (rewrite Htr2; nf).
  destruct Hfr2 as [_ Hch2 Hd2 Hnf2 Hnw2]. subst s1. simpl in *. clear Hn1 Htr2.
  (* mmap *)
  apply wpk_bind_wp, wp_mmap.
  2:{ intros e He. apply wpk_bind_wp, wp_when; [|intros H%bool_decide_eq_false; done].
      intros _. apply wp_handle_error.
      apply exit_fail_call; [reflexivity | ff | nf | simpl; lia | constructor]. }
  intros pg Hpg.
  assert (env_addr env = Z.of_N pg * PAGE_SIZE) as Haddr
    by (unfold env_addr; now rewrite Hpg).
  rewrite <- Haddr.
  match goal with |- wpk _ _ _ ?s => set (s3 := s) end.
  assert (nforks (st_trace s3) = 0%nat) as Hn3 by (subst s3; nf).
  assert (region_rw (env_addr env) s3) as Hrw3.
  { eexists. split; [reflexivity|]. simpl. done. }
  assert (st_region s3
          = Some {| rg_base := env_addr env; rg_len := main_length;
                    rg_prot := Z.lor PROT_READ PROT_WRITE;
                    rg_flags := Z.lor MAP_ANONYMOUS (mode_flag shared) |}) as Hrg3.
  { subst s3. simpl. unfold mode_flag. now destruct shared. }
  assert (st_nopen s3 = 1%nat) as Hno3 by exact Hno2.
  apply wpk_bind_wp, wp_when.
  { intros H%bool_decide_eq_true. unfold MAP_FAILED, PAGE_SIZE in *. lia. }
  intros _.
  (* parent mem allocated *)
  apply wpk_bind_wp, wp_checkpoint.
  { intros e s' He Htr. rewrite Hno3 in He.
    apply (exit_fail_report env shared s3 s' [] e Htr); [ff | nf | simpl; lia | constructor]. }
  intros c1 s4 Ho1 Hfr4 Hno4 Htr4 _. rewrite Hno3 in Ho1, Hno4.
  assert (nforks (st_trace s4) = 0%nat) as Hn4 by (rewrite Htr4; nf).
  pose proof (region_rw_frame _ _ _ Hfr4 Hrw3) as Hrw4.
  destruct Hfr4 as [Hrg4 Hch4 Hd4 Hnf4 Hnw4]. rewrite Hrg3 in Hrg4.
  subst s3. simpl in *. clear Hn3 Htr4 Hrw3 Hrg3 Hno3 Hno2.
  (* initialisation *)
  apply wpk_bind_wp, wp_init_loop; [exact Hrw4|].
  intros s5 Hfr5 Hno5 Htr5 Hmem5. rewrite Hno4 in Hno5.
  assert (nforks (st_trace s5) = 0%nat) as Hn5 by (rewrite Htr5; nf).
  destruct Hfr5 as [Hrg5 Hch5 Hd5 Hnf5 Hnw5]. clear Htr5 Hn4 Hrw4 Hno4.
  (* parent mem initialized *)
  apply wpk_bind_wp, wp_checkpoint.
  { intros e s' He Htr. rewrite Hno5 in He.
    apply (exit_fail_report env shared s5 s' [] e Htr); [ff | nf | simpl; lia | constructor]. }
  intros c2 s6 Ho2 Hfr6 Hno6 Htr6 Hmem6. rewrite Hno5 in Ho2, Hno6.
  assert (nforks (st_trace s6) = 0%nat) as Hn6 by (rewrite Htr6; nf).
  destruct Hfr6 as [Hrg6 Hch6 Hd6 Hnf6 Hnw6]. clear Htr6 Hn5 Hno5.
  (* mprotect *)
  apply wpk_bind_wp, wp_mprotect.
  2:{ intros e He. apply wpk_bind_wp, wp_when; [|intros H%bool_decide_eq_false; done].
      intros _. apply wp_handle_error.
      apply exit_fail_call; [reflexivity | ff | nf | simpl; lia | constructor]. }
  intros Hpr. apply wpk_bind_wp, wp_when; [intros H%bool_decide_eq_true; done|]. intros _.
  match goal with |- wpk _ _ _ ?s => set (s7 := s) end.
  assert (nforks (st_trace s7) = 0%nat) as Hn7 by (subst s7; nf).
  assert (st_region s7 = Some (heir_region env shared)) as Hrg7.
  { subst s7. simpl. rewrite Hrg6, Hrg5, Hrg4. unfold protect_region. simpl.
    now rewrite bool_decide_eq_true_2. }
  assert (st_nopen s7 = 3%nat) as Hno7 by exact Hno6.
  (* parent mem set-readonly *)
  apply wpk_bind_wp, wp_checkpoint.
  { intros e s' He Htr. rewrite Hno7 in He.
    apply (exit_fail_report env shared s7 s' [] e Htr); [ff | nf | simpl; lia | constructor]. }
  intros c3 s8 Ho3 Hfr8 Hno8 Htr8 Hmem8. rewrite Hno7 in Ho3, Hno8.
  assert (nforks (st_trace s8) = 0%nat) as Hn8 by (rewrite Htr8; nf).
  destruct Hfr8 as [Hrg8 Hch8 Hd8 Hnf8 Hnw8]. rewrite Hrg7 in Hrg8.
  subst s7. simpl in *. clear Htr8 Hn7 Hn6 Hrg7 Hrg6 Hrg5 Hrg4 Hno7 Hno6.
  assert (st_nfork s8 = 0%nat) as Hnf by congruence.
  assert (st_nwait s8 = 0%nat) as Hnw by congruence.
  assert (st_depth s8 = 0%nat) as Hd by congruence.
  assert (st_children s8 = os_children env) as Hch by congruence.
  assert (exists m, st_mem s8 = init_mem (env_addr env) main_slots m) as Hmem
    by (exists (st_mem s4); congruence).
  clear Hch2 Hd2 Hnf2 Hnw2 Hch4 Hd4 Hnf4 Hnw4 Hch5 Hd5 Hnf5 Hnw5
        Hch6 Hd6 Hnf6 Hnw6 Hch8 Hd8 Hnf8 Hnw8 Hmem5 Hmem6 Hmem8.
  (* the children *)
  apply wpk_bind, wpk_fork_loop.
  { intros pids e s' ks Hlen Hpids He Htr Hlk Hks. rewrite Hnf in Hpids, He.
    rewrite app_assoc in Htr.
    apply (exit_fail env shared s' ks _ _ _ _ Htr); [reflexivity | | nf | lia |].
    - ff. apply (check_all_fail "fork" (os_fork env) 0 16 (List.length pids) e); [|lia|done].
      intros j Hj. destruct (lookup_lt_is_Some_2 pids j Hj) as [pid Hpid].
      now rewrite (Hpids j pid Hpid).
    - eapply Forall_impl; [exact Hks|]. intros k. now apply born_heir. }
  intros pids s9 ks Hlen Hpids Htr9 Hch9 Hno9 Hnw9 Hlk Hks. cbn beta.
  rewrite Hnf in Hpids. rewrite Hno8 in Hno9. rewrite Hnw in Hnw9. rewrite Hch in Hch9.
  assert (nforks (st_trace s9) = 16%nat) as Hn9 by (rewrite Htr9; nf).
  assert (Forall heir ks) as Hheirs.
  { eapply Forall_impl; [exact Hks|]. intros k. now apply born_heir. }
  assert (forall j, (j < 16)%nat -> is_ok (os_fork env (0 + j)) = true) as Hforks.
  { intros j Hj. destruct (lookup_lt_is_Some_2 pids j ltac:(lia)) as [pid Hpid].
    now rewrite (Hpids j pid Hpid). }
  clear Hks Htr9 Hn8 Hmem Hrg8 Hno8 Hnf Hnw Hd Hch Hpids.
  (* parent forked children *)
  apply wpk_bind_wp, wp_checkpoint.
  { intros e s' He Htr. rewrite Hno9 in He.
    apply (exit_fail_report env shared s9 s' ks e Htr); [ff | nf | simpl; lia | exact Hheirs]. }
  intros c4 s10 Ho4 Hfr10 Hno10 Htr10 _. rewrite Hno9 in Ho4, Hno10.
  assert (nforks (st_trace s10) = 16%nat) as Hn10 by (rewrite Htr10; nf).
  destruct Hfr10 as [_ Hch10 _ _ Hnw10]. rewrite Hnw9 in Hnw10. rewrite Hch9 in Hch10.
  clear Htr10 Hn9 Hno9 Hnw9 Hch9.
  (* reaping *)
  apply wpk_bind_wp, wp_reap.
  { rewrite Hch10, length_app. lia. }
  { intros rs e s' Hlrs Hgr He Htr. rewrite Hnw10 in Hgr, He. rewrite app_assoc in Htr.
    apply (exit_fail env shared s' ks _ _ _ _ Htr); [reflexivity | | nf | simpl; lia | exact Hheirs].
    ff. now apply (check_all_fail "wait" (os_wait env) 0 16 (List.length rs) e). }
  intros rs s11 Hlrs Htr11 Hno11 Hwaits. rewrite Hnw10 in Hwaits. rewrite Hno10 in Hno11.
  assert (nforks (st_trace s11) = 16%nat) as Hn11 by (rewrite Htr11; nf).
  clear Htr11 Hn10 Hno10 Hnw10 Hch10.
  (* parent reaped children *)
  apply wpk_bind_wp, wp_checkpoint.
  { intros e s' He Htr. rewrite Hno11 in He.
    apply (exit_fail_report env shared s11 s' ks e Htr); [ff | nf | simpl; lia | exact Hheirs]. }
  intros c5 s12 Ho5 _ Hno12 Htr12 _. rewrite Hno11 in Ho5, Hno12.
  assert (nforks (st_trace s12) = 16%nat) as Hn12 by (rewrite Htr12; nf).
  clear Htr12 Hn11 Hno11.
  (* munmap: its result is not looked at *)
  assert (forall s13 : state,
            nforks (st_trace s13) = 16%nat -> st_nopen s13 = 6%nat ->
            wpk (bind (print_mem_commit env "parent mem unmapped")
                   (fun _ => exit EXIT_SUCCESS))
                (fun (_ : Z) _ ks' => False)
                (fun h s' ks' => exit_kids h s' (ks' ++ ks)) s13) as Hlast.
  { intros s13 Hn13 Hno13. apply wpk_bind_wp, wp_checkpoint.
    { intros e s' He Htr. rewrite Hno13 in He.
      apply (exit_fail_report env shared s13 s' ks e Htr); [ff | nf | simpl; lia | exact Hheirs]. }
    intros c6 s14 Ho6 _ _ Htr14 _. rewrite Hno13 in Ho6.
    eapply (wpk_of_wp _ (fun _ _ => False) (fun h s' => exit_kids h s' ks));
      [apply wp_exit | intros ? ? [] | intros h s' H; exact H].
    exists EXIT_SUCCESS. split; [done|]. split; [simpl; rewrite Htr14; nf|].
    split; [lia|]. split; [exact Hheirs|]. split; [|intros H; discriminate H].
    intros _. split; [exact Hlk|].
    apply succeeds_intro.
    - intros k Hk.
      destruct k as [|[|[|[|[|[|[|k]]]]]]]; [..|lia];
        match goal with
        | H : os_fopen env ?j _ = Ok _ |- is_ok (os_fopen env ?j _) = true => now rewrite H
        end.
    - now rewrite Hpg.
    - now rewrite Hpr.
    - exact Hforks.
    - exact Hwaits. }
  apply wpk_bind_wp, wp_munmap.
  - intros _. apply Hlast; [nf | done].
  - intros e _. apply Hlast; [nf | done].
Qed.

End WalkKids.

(** An accepted invocation, with its children. *)
Lemma run_kids env prog a shared :
  parse_mode a = Some shared ->
  exists code s ks,
    run env [prog; a] = ((Stop (Exited code), s), stopped <$> ks)
    /\ nforks (st_trace s) = List.length ks
    /\ (List.length ks <= 16)%nat
    /\ Forall (heir env shared) ks
    /\ (code = EXIT_SUCCESS -> List.length ks = 16%nat /\ succeeds env = true)
    /\ (code = EXIT_FAILURE ->
        exists t0 f msg e,
          st_trace s = t0 ++ fatal env f msg e /\ failure_of f = Some (msg, e)
          /\ first_failure env = Some (msg, e)).
Proof.
  intros Hm. destruct (main_kids env shared prog a Hm) as (ks & Hks & Hp).
  unfold run. destruct (main env [prog; a] (start_state env)) as [[[v|h] s] cs]; simpl in *.
  - destruct Hp.
  - destruct Hp as (code & -> & Hn & Hlen & Hall & Hok & Hfail).
    exists code, s, ks. rewrite Hks. done.
Qed.

(** The exit status and the error stream of an accepted invocation, read
    off the answers of the system. *)
Lemma run_diagnosis env prog a shared :
  parse_mode a = Some shared ->
  let r := (run env [prog; a]).1 in
  match first_failure env with
  | None => exit_status r = Some EXIT_SUCCESS /\ writes STDERR (trace_of r) = []
  | Some (msg, e) =>
      exit_status r = Some EXIT_FAILURE
      /\ writes STDERR (trace_of r) = [msg +:+ ": " +:+ os_strerror env e +:+ nl]
  end.
Proof.
  intros Hm r.
  destruct (run_kids env prog a shared Hm)
    as (code & s & ks & Hrun & _ & _ & _ & Hok & Hfail).
  destruct (run_accepted env prog a shared Hm) as (code' & s' & cs & Hrun' & Hruns & _).
  rewrite Hrun in Hrun'. injection Hrun' as <- <- _.
  subst r. rewrite Hrun. unfold exit_status, trace_of. cbn [fst snd].
  destruct (runs_status env shared _ _ _ Hruns)
    as [[-> Hw]|(-> & t0' & f' & msg' & n' & Ht & Hf' & Hw)].
  - destruct (Hok eq_refl) as [_ Hs]. now rewrite (succeeds_no_failure env Hs).
  - destruct (Hfail eq_refl) as (t0 & f & msg & e & Ht0 & Hf & ->).
    rewrite Ht in Ht0. apply app_inj_2 in Ht0 as [-> Hfatal]; [|done].
    injection Hfatal as -> _. rewrite Hf in Hf'. injection Hf' as <- <-.
    split; [done|]. rewrite Ht, writes_app, Hw. unfold fatal.
    change (writes STDERR [f; EvWrite STDERR (perror_text env msg e); EvExit EXIT_FAILURE])
      with (match written STDERR f with
            | Some y => [y; perror_text env msg e]
            | None => [perror_text env msg e]
            end).
    rewrite (failure_not_stderr f msg e Hf). simpl.
    now rewrite (perror_text_failure env f msg e Hf).
Qed.

Lemma heir_readonly env shared (k : kid) p :
  heir env shared k -> writable k.2 p = false.
Proof.
  intros (_ & _ & _ & _ & Hrg & _). unfold writable. rewrite Hrg. simpl.
  apply andb_false_r.
Qed.

(** * The claims *)

(** C1, as amended: started with exactly [--shared] or [--private] on a
    machine that grants every request the program checks, the process
    writes to its standard output the banner -- two lines, naming 64 MB,
    the mode word that goes with the argument, and 16 processes -- and
    then the memory-commit lines of seven checkpoints (not eight), each
    one line; it writes nothing on the error stream and exits with
    status 0.  The reporter prints one line per buffer it reads that
    starts with the metric name.  When the accounting source holds no
    NUL byte and its lines are at most 98 characters long, these are, for
    each checkpoint in turn, the lines of the source that start with
    [Committed_AS:], each followed by four spaces and the label of the
    checkpoint in parentheses; and there are exactly seven of them when
    every reading holds one such line. *)
Theorem C1_banner_and_seven_checkpoints (env : os_env) (prog a : string)
    (shared : bool) :
  (a = "--shared" /\ shared = true) \/ (a = "--private" /\ shared = false) ->
  succeeds env = true ->
  let r := (run env [prog; a]).1 in
  exit_status r = Some 0
  /\ writes STDOUT (trace_of r)
     = ["Test dnsmasq OOM: memory allocation and forking" +:+ nl;
        "(allocate 64 MB " +:+ mode_word shared
        +:+ " anonymous, fork 16 processes)" +:+ nl]
       ++ commit_lines env
  /\ writes STDERR (trace_of r) = []
  /\ List.length checkpoints = 7%nat
  /\ Forall one_line (commit_lines env)
  /\ List.length (commit_lines env)
     = sum_list (metric_count ∘ meminfo_at env <$> seq 0 7)
  /\ ((forall k, (k < 7)%nat ->
         nul_free (meminfo_at env k) /\ text_fits (meminfo_at env k)) ->
      commit_lines env
      = mjoin (imap (fun k label =>
                       labelled label <$> metric_lines (meminfo_at env k))
                 checkpoints))
  /\ ((forall k, (k < 7)%nat ->
         text_fits (meminfo_at env k)
         /\ List.length (metric_lines (meminfo_at env k)) = 1%nat) ->
      List.length (commit_lines env) = 7%nat).
Proof.
  intros Ha Hok r.
  assert (parse_mode a = Some shared) as Hm by (destruct Ha as [[-> ->]|[-> ->]]; reflexivity).
  destruct (run_success env prog a shared Hm Hok)
    as (pids & rs & s & cs & Hrun & Htr & _).
  subst r. rewrite Hrun. unfold trace_of, exit_status. simpl. rewrite Htr.
  split; [done|]. split; [now rewrite writes_success_out|].
  split; [apply writes_success_err|]. split; [done|].
  split; [apply commit_lines_one_line|]. split; [apply commit_lines_length|].
  split; [apply commit_lines_by_lines|].
  intros Hone. rewrite commit_lines_length. simpl.
  rewrite !metric_count_lines by (apply Hone; lia).
  pose proof (fun k Hk => proj2 (Hone k Hk)) as Hlen.
  rewrite (Hlen 0%nat), (Hlen 1%nat), (Hlen 2%nat), (Hlen 3%nat), (Hlen 4%nat),
    (Hlen 5%nat), (Hlen 6%nat) by lia.
  reflexivity.
Qed.

Lemma C1_banner_and_seven_checkpoints_witness :
  let r := (run demo_env ["oom_alloc"; "--shared"]).1 in
  exit_status r = Some 0
  /\ writes STDOUT (trace_of r)
     = ["Test dnsmasq OOM: memory allocation and forking" +:+ nl;
        "(allocate 64 MB " +:+ mode_word true
        +:+ " anonymous, fork 16 processes)" +:+ nl]
       ++ commit_lines demo_env
  /\ writes STDERR (trace_of r) = []
  /\ List.length checkpoints = 7%nat
  /\ Forall one_line (commit_lines demo_env)
  /\ List.length (commit_lines demo_env)
     = sum_list (metric_count ∘ meminfo_at demo_env <$> seq 0 7)
  /\ ((forall k, (k < 7)%nat ->
         nul_free (meminfo_at demo_env k) /\ text_fits (meminfo_at demo_env k)) ->
      commit_lines demo_env
      = mjoin (imap (fun k label =>
                       labelled label <$> metric_lines (meminfo_at demo_env k))
                 checkpoints))
  /\ ((forall k, (k < 7)%nat ->
         text_fits (meminfo_at demo_env k)
         /\ List.length (metric_lines (meminfo_at demo_env k)) = 1%nat) ->
      List.length (commit_lines demo_env) = 7%nat).
Proof.
  apply (C1_banner_and_seven_checkpoints demo_env "oom_alloc" "--shared" true).
  - left. split; reflexivity.
  - reflexivity.
Defined.

(** On the machine where everything works the run has seven
    memory-commit lines after the banner, not eight; and an invocation
    with a well-formed argument does not exit with status 0 when the
    machine is out of memory. *)
Lemma C1_eight_checkpoints_counterexample :
  let r := (run demo_env ["oom_alloc"; "--shared"]).1 in
  exit_status r = Some 0
  /\ drop 2 (writes STDOUT (trace_of r))
     = (fun label => "Committed_AS:    9824716 kB    (" +:+ label +:+ ")" +:+ nl)
       <$> ["initial state"; "parent mem allocated"; "parent mem initialized";
            "parent mem set-readonly"; "parent forked children";
            "parent reaped children"; "parent mem unmapped"]
  /\ List.length (drop 2 (writes STDOUT (trace_of r))) = 7%nat
  /\ 7%nat <> 8%nat
  /\ exit_status (run enomem_env ["oom_alloc"; "--shared"]).1 = Some 1.
Proof.
  destruct (run_success demo_env "oom_alloc" "--shared" true eq_refl eq_refl)
    as (pids & rs & s & cs & Hrun & Htr & _).
  intros r. subst r. rewrite Hrun. unfold trace_of, exit_status. simpl fst. simpl snd.
  rewrite Htr, writes_success_out.
  split; [reflexivity|]. split; [vm_compute; reflexivity|].
  split; [vm_compute; reflexivity|]. split; [lia|]. vm_compute. reflexivity.
Qed.

(** C2: run on the freshly mapped, writable region at [addr], the
    initialisation loop returns (no store faults, the loop ends) after
    16777216 stores and nothing else: the [k]-th store, counting from 0,
    writes the value [k] into the [int] slot at [addr + 4 * k].  The
    values are 0, 1, 2, ... in increasing address order, one per slot;
    the slots tile the region: 4 * 16777216 is its length, so every byte
    of it lies in exactly one slot that was written, once.  Read back
    right after the loop, the slots hold 0, 1, 2, ..., 16777215. *)
Theorem C2_initialisation (addr : Z) (s : state) :
  region_rw addr s ->
  let res := init_loop addr s in
  let s' := res.1.2 in
  res.1.1 = Ret (addr + main_length, Z.of_nat main_slots) /\ res.2 = []
  /\ st_trace s' = st_trace s ++ init_stores addr main_slots
  /\ List.length (init_stores addr main_slots) = main_slots
  /\ (forall k, (k < main_slots)%nat ->
        init_stores addr main_slots !! k
        = Some (EvStore (addr + sizeof_int * Z.of_nat k) (Z.of_nat k)))
  /\ Z.of_nat main_slots = 16777216
  /\ sizeof_int * Z.of_nat main_slots = main_length
  /\ (forall b, addr <= b < addr + main_length ->
        exists k, (k < main_slots)%nat
                  /\ slot_addr addr k <= b < slot_addr addr k + sizeof_int
                  /\ forall j, slot_addr addr j <= b < slot_addr addr j + sizeof_int ->
                               j = k)
  /\ read_region s' addr main_slots = Z.of_nat <$> seq 0 main_slots.
Proof.
  intros Hrw res s'.
  assert (wp (init_loop addr)
            (fun v s1 => v = (addr + main_length, Z.of_nat main_slots)
                         /\ st_trace s1 = st_trace s ++ init_stores addr main_slots
                         /\ st_mem s1 = init_mem addr main_slots (st_mem s))
            never never never s) as [Hp Hcs].
  { apply wp_init_loop; [exact Hrw|]. intros s1 _ _ Htr Hmem.
    split; [reflexivity|]. split; assumption. }
  subst res s'. unfold wp, post in Hp, Hcs.
  destruct (init_loop addr s) as [[[v|h] s1] cs]; cbn [fst snd] in *; [|destruct Hp].
  destruct Hp as (-> & Htr & Hmem).
  split; [reflexivity|]. split.
  { destruct cs as [|x cs]; [done|]. apply Forall_cons in Hcs as [Hx _].
    destruct x as [[v|h] sx]; destruct Hx. }
  split; [exact Htr|]. split; [unfold init_stores; now rewrite length_fmap, length_seq|].
  split; [intros k Hk; now apply init_stores_lookup|].
  split; [rewrite <- main_slots_Z; apply main_slots_eq|].
  split; [apply main_slots_cover|]. split.
  - intros b Hb. pose proof main_slots_cover as Hc. unfold slot_addr, sizeof_int in *.
    exists (Z.to_nat ((b - addr) / 4)).
    assert (0 <= (b - addr) / 4) by (apply Z.div_pos; lia).
    assert (4 * ((b - addr) / 4) <= b - addr < 4 * ((b - addr) / 4) + 4) as Hdiv.
    { pose proof (Z.div_mod (b - addr) 4 ltac:(lia)).
      pose proof (Z.mod_pos_bound (b - addr) 4 ltac:(lia)). lia. }
    split; [|split]; [lia | lia | intros j Hj; lia].
  - now apply (read_region_init addr main_slots (st_mem s)).
Qed.

Lemma C2_initialisation_witness :
  let res := init_loop 4096 mapped_state in
  let s' := res.1.2 in
  res.1.1 = Ret (4096 + main_length, Z.of_nat main_slots) /\ res.2 = []
  /\ st_trace s' = st_trace mapped_state ++ init_stores 4096 main_slots
  /\ List.length (init_stores 4096 main_slots) = main_slots
  /\ (forall k, (k < main_slots)%nat ->
        init_stores 4096 main_slots !! k
        = Some (EvStore (4096 + sizeof_int * Z.of_nat k) (Z.of_nat k)))
  /\ Z.of_nat main_slots = 16777216
  /\ sizeof_int * Z.of_nat main_slots = main_length
  /\ (forall b, 4096 <= b < 4096 + main_length ->
        exists k, (k < main_slots)%nat
                  /\ slot_addr 4096 k <= b < slot_addr 4096 k + sizeof_int
                  /\ forall j, slot_addr 4096 j <= b < slot_addr 4096 j + sizeof_int ->
                               j = k)
  /\ read_region s' 4096 main_slots = Z.of_nat <$> seq 0 main_slots.
Proof.
  apply (C2_initialisation 4096 mapped_state).
  eexists. split; [reflexivity|]. split; [reflexivity|]. split; [reflexivity|].
  vm_compute. discriminate.
Defined.

(** C3: an invocation whose argument list is not exactly one argument
    equal to [--shared] or [--private] (no argument, several, or an
    unknown word) writes the usage line, and nothing else, on the error
    stream, exits with the non-zero status [EXIT_FAILURE] and prints no
    memory-commit line: nothing at all goes to the standard output, the
    accounting source is never opened and no process is forked.  The
    usage line is one line whenever the program name holds no newline. *)
Theorem C3_usage_error (env : os_env) (argv : list string) :
  ~ (exists prog a, argv = [prog; a]
                    /\ (c_str a = "--shared" \/ c_str a = "--private")) ->
  let r := run env argv in
  exit_status r.1 = Some EXIT_FAILURE /\ EXIT_FAILURE <> 0
  /\ trace_of r.1
     = [EvWrite STDERR
          (fmt_s (argv_at argv 0) +:+ " [ --shared | --private ]" +:+ nl);
        EvExit EXIT_FAILURE]
  /\ writes STDOUT (trace_of r.1) = []
  /\ count_nl (output STDERR (trace_of r.1))
     = (count_nl (fmt_s (argv_at argv 0)) + 1)%nat
  /\ r.2 = [].
Proof.
  intros Hbad r. subst r. rewrite run_rejected.
  - split; [done|]. split; [done|]. split; [done|]. split; [done|].
    split; [|done]. change (trace_of _) with
      [EvWrite STDERR (usage_text argv); EvExit EXIT_FAILURE].
    unfold output, usage_text. simpl.
    change (foldr String.app "" [?x]) with x.
    rewrite !count_nl_app. simpl. lia.
  - intros prog a -> . apply parse_mode_None. intros H. apply Hbad. eauto.
Qed.

Lemma C3_usage_error_witness :
  let r := run demo_env ["oom_alloc"; "--shared"; "--private"] in
  exit_status r.1 = Some EXIT_FAILURE /\ EXIT_FAILURE <> 0
  /\ trace_of r.1
     = [EvWrite STDERR
          (fmt_s (argv_at ["oom_alloc"; "--shared"; "--private"] 0)
           +:+ " [ --shared | --private ]" +:+ nl);
        EvExit EXIT_FAILURE]
  /\ writes STDOUT (trace_of r.1) = []
  /\ count_nl (output STDERR (trace_of r.1))
     = (count_nl (fmt_s (argv_at ["oom_alloc"; "--shared"; "--private"] 0)) + 1)%nat
  /\ r.2 = [].
Proof.
  apply (C3_usage_error demo_env ["oom_alloc"; "--shared"; "--private"]).
  intros (prog & a & H & _). discriminate H.
Defined.

(** C4: the allocation step is one [mmap] call: with NULL as address,
    the fixed size of 64 MiB, protection [PROT_READ | PROT_WRITE], flags
    [MAP_ANONYMOUS] together with [MAP_SHARED] when the argument is
    [--shared] and with [MAP_PRIVATE] when it is [--private], no file
    (fd -1) and offset 0.  It is made once in a run (never, when the
    first checkpoint cannot open the accounting source), and no child
    makes one.  The mode is parsed once: the mode word of the banner and
    the flag of the mapping go with the same argument. *)
Theorem C4_mmap_request (env : os_env) (prog a : string) (shared : bool) :
  (a = "--shared" /\ shared = true) \/ (a = "--private" /\ shared = false) ->
  let r := run env [prog; a] in
  let flags := Z.lor MAP_ANONYMOUS (if shared then MAP_SHARED else MAP_PRIVATE) in
  ((exists res,
      mmap_calls (trace_of r.1)
      = [EvMmap 0 (64 * 1024 * 1024) (Z.lor PROT_READ PROT_WRITE) flags (-1) 0 res]
      /\ is_ok (os_fopen env 0 "/proc/meminfo") = true)
   \/ (mmap_calls (trace_of r.1) = []
       /\ is_ok (os_fopen env 0 "/proc/meminfo") = false))
  /\ Forall (fun c => mmap_calls (trace_of c) = []) r.2
  /\ take 2 (writes STDOUT (trace_of r.1)) = banner shared
  /\ Z.land flags MAP_ANONYMOUS <> 0
  /\ (Z.land flags MAP_SHARED <> 0 <-> shared = true)
  /\ (Z.land flags MAP_PRIVATE <> 0 <-> shared = false).
Proof.
  intros Ha r flags.
  assert (parse_mode a = Some shared) as Hm by (destruct Ha as [[-> ->]|[-> ->]]; reflexivity).
  destruct (run_accepted env prog a shared Hm) as (code & s & cs & Hrun & Hruns & _ & Hcs).
  subst r. rewrite Hrun. unfold trace_of. simpl fst. simpl snd.
  split; [|split; [|split]].
  - destruct (runs_mmap_calls env shared _ _ Hruns) as [[H1 H2]|(res & H1 & H2)].
    + right. done.
    + left. exists res. split; [|done]. rewrite H1. reflexivity.
  - eapply Forall_impl; [exact Hcs|]. intros c (_ & -> & _). reflexivity.
  - unfold script in Hruns.
    apply runs_cons_inv in Hruns as [(l0 & t0 & Hst0 & _ & ->)|[Hst _]]; [|inversion Hst].
    inversion Hst0; subst. rewrite writes_app, writes_fmap_same. reflexivity.
  - subst flags. destruct shared; vm_compute; repeat split; congruence.
Qed.

Lemma C4_mmap_request_witness :
  let r := run enomem_env ["oom_alloc"; "--private"] in
  let flags := Z.lor MAP_ANONYMOUS MAP_PRIVATE in
  ((exists res,
      mmap_calls (trace_of r.1)
      = [EvMmap 0 (64 * 1024 * 1024) (Z.lor PROT_READ PROT_WRITE) flags (-1) 0 res]
      /\ is_ok (os_fopen enomem_env 0 "/proc/meminfo") = true)
   \/ (mmap_calls (trace_of r.1) = []
       /\ is_ok (os_fopen enomem_env 0 "/proc/meminfo") = false))
  /\ Forall (fun c => mmap_calls (trace_of c) = []) r.2
  /\ take 2 (writes STDOUT (trace_of r.1)) = banner false
  /\ Z.land flags MAP_ANONYMOUS <> 0
  /\ (Z.land flags MAP_SHARED <> 0 <-> false = true)
  /\ (Z.land flags MAP_PRIVATE <> 0 <-> false = false).
Proof.
  apply (C4_mmap_request enomem_env "oom_alloc" "--private" false).
  right. split; reflexivity.
Defined.

(** C5: in an execution that ends with exit status 0, the trace of the
    process holds, in this order, sixteen successful [fork] calls (the
    children [pids]), sixteen successful [wait] calls (the children
    [rs]), and one [munmap] of the region; in between and around them
    there is no other [fork], [wait] or [munmap].  So no [wait] is made
    before all sixteen children were created, and the region is unmapped
    once, after the sixteenth [wait].  Each child collected is a child of
    the process, one it had when [main] started or one of the sixteen
    created, and none is collected twice; the program does not look at
    which.  When the process started without children, the children
    collected are the children created, each once, in whatever order the
    system hands them over. *)
Theorem C5_fork_reap_unmap_order (env : os_env) (prog a : string) (shared : bool) :
  (a = "--shared" /\ shared = true) \/ (a = "--private" /\ shared = false) ->
  exit_status (run env [prog; a]).1 = Some 0 ->
  exists pids rs t0 t1 t2 t3 res,
    trace_of (run env [prog; a]).1
    = t0 ++ (EvFork ∘ Ok <$> pids) ++ t1 ++ (EvWait ∘ Ok <$> rs) ++ t2
         ++ [EvMunmap (env_addr env) main_length res] ++ t3
    /\ Z.of_nat (List.length pids) = NUM_CHLD
    /\ Z.of_nat (List.length rs) = NUM_CHLD
    /\ rs ⊆+ os_children env ++ pids
    /\ (os_children env = [] -> rs ≡ₚ pids)
    /\ Forall (fun e => is_child_call e = false) (t0 ++ t1 ++ t2 ++ t3).
Proof.
  intros Ha Hexit.
  assert (parse_mode a = Some shared) as Hm by (destruct Ha as [[-> ->]|[-> ->]]; reflexivity).
  destruct (run_accepted env prog a shared Hm) as (code & s & cs & Hrun & Hruns & _ & _).
  rewrite Hrun in *. unfold exit_status, trace_of in *. simpl in Hexit. simpl fst. simpl snd.
  injection Hexit as ->.
  destruct (runs_exit0 env shared _ Hruns) as (pids & rs & Hlen & _ & [Hrs Hlrs] & ->).
  assert (rs ⊆+ os_children env ++ pids) as Hsub
    by (rewrite Hrs; apply reaps_submseteq).
  exists pids, rs,
    ((EvWrite STDOUT <$> banner shared)
     ++ checkpoint_events env 0 "initial state"
     ++ [mmap_event shared (Ok (env_addr env))]
     ++ checkpoint_events env 1 "parent mem allocated"
     ++ init_stores (env_addr env) main_slots
     ++ checkpoint_events env 2 "parent mem initialized"
     ++ [mprotect_event env (Ok tt)]
     ++ checkpoint_events env 3 "parent mem set-readonly"),
    (checkpoint_events env 4 "parent forked children"),
    (checkpoint_events env 5 "parent reaped children"),
    (checkpoint_events env 6 "parent mem unmapped" ++ [EvExit EXIT_SUCCESS]),
    (os_munmap env).
  split; [unfold success_trace; rewrite <- !app_assoc; reflexivity|].
  split; [rewrite Hlen; reflexivity|]. split; [rewrite Hlrs; reflexivity|].
  split; [exact Hsub|]. split.
  { intros Hnil. rewrite Hnil in Hsub. simpl in Hsub.
    apply submseteq_length_Permutation; [exact Hsub | lia]. }
  unfold checkpoint_events.
  repeat (apply Forall_app; split);
    try apply pmc_events_no_child_call; try apply init_stores_no_child_call;
    try (apply Forall_fmap, Forall_forall; now intros x _);
    now repeat constructor.
Qed.

Lemma demo_exit_status :
  exit_status (run demo_env ["oom_alloc"; "--shared"]).1 = Some 0.
Proof.
  destruct (run_success demo_env "oom_alloc" "--shared" true eq_refl eq_refl)
    as (pids & rs & s & cs & Hrun & _).
  now rewrite Hrun.
Defined.

Lemma C5_fork_reap_unmap_order_witness :
  exists pids rs t0 t1 t2 t3 res,
    trace_of (run demo_env ["oom_alloc"; "--shared"]).1
    = t0 ++ (EvFork ∘ Ok <$> pids) ++ t1 ++ (EvWait ∘ Ok <$> rs) ++ t2
         ++ [EvMunmap (env_addr demo_env) main_length res] ++ t3
    /\ Z.of_nat (List.length pids) = NUM_CHLD
    /\ Z.of_nat (List.length rs) = NUM_CHLD
    /\ rs ⊆+ os_children demo_env ++ pids
    /\ (os_children demo_env = [] -> rs ≡ₚ pids)
    /\ Forall (fun e => is_child_call e = false) (t0 ++ t1 ++ t2 ++ t3).
Proof.
  apply (C5_fork_reap_unmap_order demo_env "oom_alloc" "--shared" true).
  - left. split; reflexivity.
  - exact demo_exit_status.
Defined.

(** The children of the machine [stepchild_env]. *)
Lemma stepchild_pids :
  forks_ok stepchild_env 0 (Pos.of_nat <$> seq 4000 16).
Proof.
  intros j pid H.
  do 16 (destruct j as [|j]; [injection H as <-; reflexivity|]).
  discriminate H.
Qed.

(** The parent does not always reap one termination per child it
    created, nor unmap the region only after every child it created was
    reaped.  On the machine [stepchild_env] the process starts with a
    child it did not create, pid 77.  The run ends with exit status 0;
    its sixteen [wait] calls collect pid 77 and fifteen of the sixteen
    children created, and the last child created, pid 4015, has not been
    collected when the region is unmapped and the process exits. *)
Lemma C5_inherited_child_counterexample :
  let r := (run stepchild_env ["oom_alloc"; "--shared"]).1 in
  exit_status r = Some 0
  /\ created (trace_of r) = Pos.of_nat <$> seq 4000 16
  /\ collected (trace_of r) = 77%positive :: (Pos.of_nat <$> seq 4000 15)
  /\ 4015%positive ∈ created (trace_of r)
  /\ ~ 4015%positive ∈ collected (trace_of r)
  /\ ~ collected (trace_of r) ≡ₚ created (trace_of r).
Proof.
  destruct (run_success stepchild_env "oom_alloc" "--shared" true eq_refl eq_refl)
    as (pids & rs & s & cs & Hrun & Htr & Hlen & Hpids & Hrs & _).
  assert (pids = Pos.of_nat <$> seq 4000 16) as ->.
  { apply (forks_ok_unique stepchild_env 0); [now rewrite Hlen | done | apply stepchild_pids]. }
  assert (rs = 77%positive :: (Pos.of_nat <$> seq 4000 15)) as ->
    by (rewrite Hrs; vm_compute; reflexivity).
  rewrite Hrun. unfold exit_status, trace_of. cbn [fst snd]. rewrite Htr.
  destruct (success_trace_children stepchild_env true (Pos.of_nat <$> seq 4000 16)
              (77%positive :: (Pos.of_nat <$> seq 4000 15))) as [-> ->].
  assert (~ 77%positive ∈ Pos.of_nat <$> seq 4000 16) as Hnot77.
  { intros H. vm_compute in H.
    repeat (apply elem_of_cons in H as [H|H]; [discriminate H|]). inversion H. }
  split; [reflexivity|]. split; [reflexivity|]. split; [reflexivity|].
  split; [vm_compute; do 15 apply list_elem_of_further; apply list_elem_of_here|].
  split.
  - intros H. vm_compute in H.
    repeat (apply elem_of_cons in H as [H|H]; [discriminate H|]). inversion H.
  - intros Hp. apply Hnot77. rewrite <- Hp. apply list_elem_of_here.
Qed.

(** C6: in every process of every invocation, a failed resource
    acquisition -- [fopen] of the accounting source, [mmap], [mprotect],
    [fork] or [wait] returning an error -- is followed by exactly two
    events: [perror] writes the program's message for that call and the
    description of the [errno] the call set on the error stream, and the
    process exits with [EXIT_FAILURE], which is not 0.  Nothing comes in
    between or after: no retry, no [munmap], [fclose] or [wait] to give
    back what was acquired. *)
Theorem C6_fatal_errors (env : os_env) (argv : list string)
    (r : result Z) (pre post : list event) (e : event) (msg : string) (n : Z) :
  r ∈ procs (run env argv) ->
  trace_of r = pre ++ e :: post ->
  failure_of e = Some (msg, n) ->
  post = [EvWrite STDERR (msg +:+ ": " +:+ os_strerror env n +:+ nl);
          EvExit EXIT_FAILURE]
  /\ r.1 = Stop (Exited EXIT_FAILURE) /\ EXIT_FAILURE <> 0.
Proof.
  intros Hr Htr He.
  destruct (procs_run env argv r Hr)
    as [[-> _]|[(prog & a & shared & code & -> & Hm & _ & Hcode & Hruns)|(_ & Hc & _)]].
  - exfalso. change (trace_of _) with
      [EvWrite STDERR (usage_text argv); EvExit EXIT_FAILURE] in Htr.
    destruct pre as [|x [|y pre]]; simplify_eq/=; now destruct pre.
  - destruct (runs_fatal env shared _ _ _ Hruns pre e post msg n Htr He) as [-> ->].
    rewrite (perror_text_failure env e msg n He). done.
  - exfalso. rewrite Hc in Htr.
    destruct pre as [|x [|y pre]]; simplify_eq/=; now destruct pre.
Qed.

Lemma C6_fatal_errors_witness :
  let r := (run enomem_env ["oom_alloc"; "--private"]).1 in
  drop 6 (trace_of r)
  = [EvWrite STDERR ("mmap" +:+ ": " +:+ os_strerror enomem_env 12 +:+ nl);
     EvExit EXIT_FAILURE]
  /\ r.1 = Stop (Exited EXIT_FAILURE) /\ EXIT_FAILURE <> 0.
Proof.
  apply (C6_fatal_errors enomem_env ["oom_alloc"; "--private"]
           (run enomem_env ["oom_alloc"; "--private"]).1
           (take 5 (trace_of (run enomem_env ["oom_alloc"; "--private"]).1))
           (drop 6 (trace_of (run enomem_env ["oom_alloc"; "--private"]).1))
           (EvMmap 0 main_length 3 34 (-1) 0 (Err 12)) "mmap" 12).
  - apply list_elem_of_here.
  - vm_compute. reflexivity.
  - reflexivity.
Defined.

(** C7, as amended: for every label, and for every content of the
    accounting source that holds no NUL byte and whose lines are at most
    98 characters long (they fit the 100-byte buffer with their newline),
    the reporter returns after these events and no others: it opens the
    source, prints for each line that starts with [Committed_AS:], in
    the order of the source, that line without its newline, four spaces,
    the label in parentheses and a newline, and closes the source.  In
    particular it prints exactly one output line when exactly one line
    of the source starts with the metric name. *)
Theorem C7_reporter_prints_metric_lines (env : os_env) (msg : string)
    (s : state) (c : string) :
  os_fopen env (st_nopen s) "/proc/meminfo" = Ok c ->
  nul_free c -> text_fits c ->
  let res := print_mem_commit env msg s in
  res.1.1 = Ret tt
  /\ st_trace res.1.2
     = st_trace s
       ++ [EvFopen "/proc/meminfo" "r" (Ok (st_nopen s))]
       ++ (EvWrite STDOUT
             <$> ((fun l => l +:+ "    (" +:+ c_str msg +:+ ")" +:+ nl)
                    <$> metric_lines c))
       ++ [EvFclose (st_nopen s)]
  /\ (List.length (metric_lines c) = 1%nat ->
      List.length (writes STDOUT (drop (List.length (st_trace s)) (st_trace res.1.2)))
      = 1%nat).
Proof.
  intros Hc Hnf Hfit res.
  destruct (pmc_returns env msg s c Hc) as (s' & Hrun & Htr & _).
  subst res. rewrite Hrun. simpl fst. simpl snd.
  unfold pmc_events in Htr. rewrite (report_lines msg c Hnf Hfit) in Htr.
  fold (metric_lines c) in Htr. split; [done|]. split; [exact Htr|].
  intros Hone. rewrite Htr, drop_app_length.
  change (?x :: ?l ++ ?r) with ([x] ++ l ++ r).
  rewrite !writes_app, writes_fmap_same. simpl.
  rewrite app_nil_r, length_fmap. exact Hone.
Qed.

Lemma C7_reporter_prints_metric_lines_witness :
  let res := print_mem_commit demo_env "initial state" init_state in
  res.1.1 = Ret tt
  /\ st_trace res.1.2
     = st_trace init_state
       ++ [EvFopen "/proc/meminfo" "r" (Ok (st_nopen init_state))]
       ++ (EvWrite STDOUT
             <$> ((fun l => l +:+ "    (" +:+ c_str "initial state" +:+ ")" +:+ nl)
                    <$> metric_lines demo_meminfo))
       ++ [EvFclose (st_nopen init_state)]
  /\ (List.length (metric_lines demo_meminfo) = 1%nat ->
      List.length
        (writes STDOUT (drop (List.length (st_trace init_state)) (st_trace res.1.2)))
      = 1%nat).
Proof.
  apply (C7_reporter_prints_metric_lines demo_env "initial state" init_state demo_meminfo).
  - reflexivity.
  - apply (bool_decide_unpack (nul_free demo_meminfo)). vm_compute. exact I.
  - apply (bool_decide_unpack (text_fits demo_meminfo)). vm_compute. exact I.
Defined.

(** The reporter reads at most 99 bytes at a time and tests each piece:
    on a source whose only line does not start with the metric name it
    still prints a "line", the tail of that long line; and a metric line
    with a NUL byte in it is printed up to that byte only. *)
Lemma C7_reporter_counterexample :
  let out content :=
    writes STDOUT
      (trace_of (print_mem_commit (file_env content) "initial state" init_state).1) in
  List.length (split_lines long_line_meminfo) = 1%nat
  /\ metric_lines long_line_meminfo = []
  /\ out long_line_meminfo = ["Committed_AS:      512 kB    (initial state)" +:+ nl]
  /\ split_lines nul_meminfo = ["Committed_AS: 12" +:+ String NUL "34 kB"]
  /\ out nul_meminfo = ["Committed_AS: 12    (initial state)" +:+ nl].
Proof. vm_compute. repeat split; reflexivity. Qed.

(** C8, as amended: when the accounting source opens, the call of the
    reporter returns normally, and by then the source is closed: the
    [fclose] of the stream is the last event of the call, and the stream
    is no longer among the open ones.  Between the [fopen] and the
    [fclose] there are only prints on the standard output.  When the
    lines of the source are at most 98 characters long and none starts
    with the metric name, there is none of those either: the call
    produces no output. *)
Theorem C8_missing_metric_and_close (env : os_env) (msg : string)
    (s : state) (c : string) :
  os_fopen env (st_nopen s) "/proc/meminfo" = Ok c ->
  let res := print_mem_commit env msg s in
  res.1.1 = Ret tt /\ res.2 = []
  /\ (exists outs,
        st_trace res.1.2
        = st_trace s ++ [EvFopen "/proc/meminfo" "r" (Ok (st_nopen s))]
            ++ (EvWrite STDOUT <$> outs) ++ [EvFclose (st_nopen s)])
  /\ st_files res.1.2 !! st_nopen s = None
  /\ (text_fits c ->
      Forall (fun l => starts_with memstr l = false) (split_lines c) ->
      st_trace res.1.2
      = st_trace s ++ [EvFopen "/proc/meminfo" "r" (Ok (st_nopen s));
                       EvFclose (st_nopen s)]).
Proof.
  intros Hc res. destruct (pmc_returns env msg s c Hc) as (s' & Hrun & Htr & Hfiles).
  subst res. rewrite Hrun. simpl fst. simpl snd.
  split; [done|]. split; [done|]. split; [now exists (report msg c)|].
  split; [exact Hfiles|]. intros Hfit Hnone. rewrite Htr. unfold pmc_events, report.
  rewrite no_metric_bufs; [done|]. now rewrite text_fits_bufs.
Qed.

Lemma C8_missing_metric_and_close_witness :
  let res := print_mem_commit (file_env no_metric_meminfo) "initial state" init_state in
  res.1.1 = Ret tt /\ res.2 = []
  /\ st_files res.1.2 !! st_nopen init_state = None
  /\ st_trace res.1.2
     = [EvFopen "/proc/meminfo" "r" (Ok 0%nat); EvFclose 0%nat].
Proof.
  destruct (C8_missing_metric_and_close (file_env no_metric_meminfo) "initial state"
              init_state no_metric_meminfo eq_refl) as (H1 & H2 & _ & H3 & H4).
  split; [exact H1|]. split; [exact H2|]. split; [exact H3|].
  apply H4.
  - apply (bool_decide_unpack (text_fits no_metric_meminfo)). vm_compute. exact I.
  - apply (bool_decide_unpack
             (Forall (fun l => starts_with memstr l = false)
                (split_lines no_metric_meminfo))).
    vm_compute. exact I.
Defined.

(** The source opens and none of its lines (there is one) starts with
    the metric name; the call prints a line all the same. *)
Lemma C8_wide_line_counterexample :
  os_fopen (file_env wide_meminfo) 0 "/proc/meminfo" = Ok wide_meminfo
  /\ List.length (split_lines wide_meminfo) = 1%nat
  /\ Forall (fun l => starts_with memstr l = false) (split_lines wide_meminfo)
  /\ writes STDOUT
       (trace_of (print_mem_commit (file_env wide_meminfo) "initial state" init_state).1)
     = ["Committed_AS: 0 kB    (initial state)" +:+ nl].
Proof.
  split; [reflexivity|]. split; [reflexivity|]. split.
  - apply (bool_decide_unpack
             (Forall (fun l => starts_with memstr l = false) (split_lines wide_meminfo))).
    vm_compute. exact I.
  - vm_compute. reflexivity.
Qed.

(** C9: in every process of every invocation, whatever comes after a
    protection change that took effect -- it is the change of the whole
    region to [PROT_READ] -- is no store into the region and no new
    mapping.  Every child does two things, [sleep(3)] and
    [exit(EXIT_SUCCESS)]: it stores nothing and maps nothing.  (A run
    that ends with status 0 does hold such a protection change.) *)
Theorem C9_no_write_after_protect (env : os_env) (argv : list string)
    (r : result Z) :
  r ∈ procs (run env argv) ->
  (forall pre e post,
     trace_of r = pre ++ e :: post -> is_protect_ok e = true ->
     e = EvMprotect (env_addr env) main_length PROT_READ (Ok tt)
     /\ Forall (fun e' => is_store e' = false /\ is_mmap e' = false) post)
  /\ (r ∈ (run env argv).2 ->
      r.1 = Stop (Exited EXIT_SUCCESS)
      /\ trace_of r = [EvSleep 3; EvExit EXIT_SUCCESS])
  /\ (r = (run env argv).1 -> exit_status r = Some 0 ->
      exists pre post,
        trace_of r
        = pre ++ EvMprotect (env_addr env) main_length PROT_READ (Ok tt) :: post).
Proof.
  intros Hr. destruct (argv_cases argv) as [(prog & a & shared & -> & Hm)|Hbad].
  - destruct (run_accepted env prog a shared Hm) as (code & s & cs & Hrun & Hruns & _ & Hcs).
    rewrite Hrun in *. unfold procs in Hr. simpl fst in *. simpl snd in *.
    rewrite Forall_forall in Hcs. split; [|split].
    + apply elem_of_cons in Hr as [->|Hr].
      * intros pre e post. apply (runs_protect env shared _ _ Hruns).
      * destruct (Hcs r Hr) as (_ & Htr & _). unfold trace_of. rewrite Htr.
        intros pre e post Heq He. exfalso.
        destruct pre as [|x [|y pre]]; simplify_eq/=. now destruct pre.
    + intros Hc. destruct (Hcs r Hc) as (? & ? & _). done.
    + intros -> Hexit. unfold exit_status, trace_of in *. simpl in *.
      injection Hexit as ->.
      destruct (runs_exit0 env shared _ Hruns) as (pids & rs & _ & _ & _ & ->).
      unfold success_trace.
      exists ((EvWrite STDOUT <$> banner shared)
              ++ checkpoint_events env 0 "initial state"
              ++ [mmap_event shared (Ok (env_addr env))]
              ++ checkpoint_events env 1 "parent mem allocated"
              ++ init_stores (env_addr env) main_slots
              ++ checkpoint_events env 2 "parent mem initialized").
      eexists. rewrite <- !app_assoc. reflexivity.
  - rewrite (run_rejected env argv Hbad) in *. unfold procs in Hr. simpl in Hr.
    apply elem_of_cons in Hr as [->|Hr]; [|inversion Hr].
    split; [|split].
    + intros pre e post Heq He. exfalso.
      change (trace_of _) with
        [EvWrite STDERR (usage_text argv); EvExit EXIT_FAILURE] in Heq.
      destruct pre as [|x [|y pre]]; simplify_eq/=. now destruct pre.
    + simpl. intros Hc. inversion Hc.
    + intros _ Hexit. discriminate Hexit.
Qed.

Lemma C9_no_write_after_protect_witness :
  let r := (run demo_env ["oom_alloc"; "--shared"]).1 in
  (forall pre e post,
     trace_of r = pre ++ e :: post -> is_protect_ok e = true ->
     e = EvMprotect (env_addr demo_env) main_length PROT_READ (Ok tt)
     /\ Forall (fun e' => is_store e' = false /\ is_mmap e' = false) post)
  /\ (r ∈ (run demo_env ["oom_alloc"; "--shared"]).2 ->
      r.1 = Stop (Exited EXIT_SUCCESS)
      /\ trace_of r = [EvSleep 3; EvExit EXIT_SUCCESS])
  /\ (r = (run demo_env ["oom_alloc"; "--shared"]).1 -> exit_status r = Some 0 ->
      exists pre post,
        trace_of r
        = pre ++ EvMprotect (env_addr demo_env) main_length PROT_READ (Ok tt) :: post).
Proof.
  apply (C9_no_write_after_protect demo_env ["oom_alloc"; "--shared"]
           (run demo_env ["oom_alloc"; "--shared"]).1).
  apply list_elem_of_here.
Defined.

(** C10: the result of [munmap] is not looked at.  When [munmap] fails
    (and every checked request is granted) the failed call is directly
    followed by the last checkpoint -- the accounting source is opened,
    its memory-commit lines are printed, it is closed -- and by
    [exit(EXIT_SUCCESS)]: the process exits with status 0, nothing is
    written on the error stream, and the standard output is what it is
    in a run where [munmap] succeeds. *)
Theorem C10_munmap_result_ignored (env : os_env) (prog a : string)
    (shared : bool) (e : Z) :
  (a = "--shared" /\ shared = true) \/ (a = "--private" /\ shared = false) ->
  succeeds env = true ->
  os_munmap env = Err e ->
  let r := (run env [prog; a]).1 in
  exit_status r = Some 0
  /\ (exists pre,
        trace_of r
        = pre ++ [EvMunmap (env_addr env) main_length (Err e)]
              ++ checkpoint_events env 6 "parent mem unmapped"
              ++ [EvExit EXIT_SUCCESS])
  /\ writes STDERR (trace_of r) = []
  /\ writes STDOUT (trace_of r) = banner shared ++ commit_lines env.
Proof.
  intros Ha Hok Hun r.
  assert (parse_mode a = Some shared) as Hm by (destruct Ha as [[-> ->]|[-> ->]]; reflexivity).
  destruct (run_success env prog a shared Hm Hok)
    as (pids & rs & s & cs & Hrun & Htr & _).
  subst r. rewrite Hrun. unfold trace_of, exit_status. simpl fst. simpl snd.
  rewrite Htr. split; [done|]. split.
  - unfold success_trace. rewrite Hun.
    exists ((EvWrite STDOUT <$> banner shared)
            ++ checkpoint_events env 0 "initial state"
            ++ [mmap_event shared (Ok (env_addr env))]
            ++ checkpoint_events env 1 "parent mem allocated"
            ++ init_stores (env_addr env) main_slots
            ++ checkpoint_events env 2 "parent mem initialized"
            ++ [mprotect_event env (Ok tt)]
            ++ checkpoint_events env 3 "parent mem set-readonly"
            ++ (EvFork ∘ Ok <$> pids)
            ++ checkpoint_events env 4 "parent forked children"
            ++ (EvWait ∘ Ok <$> rs)
            ++ checkpoint_events env 5 "parent reaped children").
    rewrite <- !app_assoc. reflexivity.
  - split; [apply writes_success_err | apply writes_success_out].
Qed.

Lemma C10_munmap_result_ignored_witness :
  let r := (run einval_unmap_env ["oom_alloc"; "--private"]).1 in
  exit_status r = Some 0
  /\ (exists pre,
        trace_of r
        = pre ++ [EvMunmap (env_addr einval_unmap_env) main_length (Err 22)]
              ++ checkpoint_events einval_unmap_env 6 "parent mem unmapped"
              ++ [EvExit EXIT_SUCCESS])
  /\ writes STDERR (trace_of r) = []
  /\ writes STDOUT (trace_of r) = banner false ++ commit_lines einval_unmap_env.
Proof.
  apply (C10_munmap_result_ignored einval_unmap_env "oom_alloc" "--private" false 22).
  - right. split; reflexivity.
  - reflexivity.
  - reflexivity.
Defined.

(** * Further properties *)

(** X1: every process of every invocation -- the process started by the
    shell and each child -- ends by calling [exit], with status 0 or 1.
    None is ended by a signal (no NULL or stray pointer is used, no store
    goes to memory that is not writable), no loop runs past its bound,
    and the [exit] is the last thing the process does and its only
    [exit]. *)
Theorem X1_every_process_exits (env : os_env) (argv : list string) :
  Forall (fun r =>
            exists code t,
              r.1 = Stop (Exited code)
              /\ (code = EXIT_SUCCESS \/ code = EXIT_FAILURE)
              /\ trace_of r = t ++ [EvExit code]
              /\ Forall (fun e => is_exit e = false) t)
    (procs (run env argv)).
Proof.
  apply Forall_forall. intros r Hr.
  destruct (procs_run env argv r Hr)
    as [[-> _]|[(prog & a & shared & code & -> & Hm & _ & Hcode & Hruns)|(Hc & Htr & _)]].
  - exists EXIT_FAILURE, [EvWrite STDERR (usage_text argv)].
    split; [done|]. split; [now right|]. split; [done|]. now repeat constructor.
  - destruct (runs_exit_last env shared _ _ _ Hruns) as (t' & Ht & Hall & Hc).
    exists code, t'. done.
  - exists EXIT_SUCCESS, [EvSleep 3]. split; [done|]. split; [now left|].
    split; [done|]. now repeat constructor.
Qed.

(** X2: the exit status and the error stream go together.  A process
    that exits with status 0 has written nothing on the error stream.  A
    process that exits with status 1 has written exactly one text there,
    right before exiting: the usage line, when the arguments were
    rejected, or else the line of [perror] for a resource-acquisition
    call that had just failed, with the description of that call's
    [errno]. *)
Theorem X2_status_and_diagnostic (env : os_env) (argv : list string) :
  Forall (fun r =>
            (exit_status r = Some EXIT_SUCCESS /\ writes STDERR (trace_of r) = [])
            \/ (exit_status r = Some EXIT_FAILURE
                /\ exists t d,
                     trace_of r = t ++ [EvWrite STDERR d; EvExit EXIT_FAILURE]
                     /\ writes STDERR t = []
                     /\ ((d = fmt_s (argv_at argv 0) +:+ " [ --shared | --private ]" +:+ nl
                          /\ t = [])
                         \/ exists t0 f msg n,
                              t = t0 ++ [f] /\ failure_of f = Some (msg, n)
                              /\ d = msg +:+ ": " +:+ os_strerror env n +:+ nl)))
    (procs (run env argv)).
Proof.
  apply Forall_forall. intros r Hr.
  destruct (procs_run env argv r Hr)
    as [[-> _]|[(prog & a & shared & code & -> & Hm & _ & Hcode & Hruns)|(Hc & Htr & _)]].
  - right. split; [done|]. exists [], (usage_text argv).
    split; [done|]. split; [done|]. now left.
  - unfold exit_status. rewrite Hcode.
    destruct (runs_status env shared _ _ _ Hruns)
      as [[-> Hw]|(-> & t0 & f & msg & n & Ht & Hf & Hw)]; [now left|].
    right. split; [done|]. exists (t0 ++ [f]), (perror_text env msg n).
    split; [rewrite Ht; unfold fatal; now rewrite <- app_assoc|].
    split; [rewrite writes_app, Hw; apply writes_none; repeat constructor;
            now apply failure_not_stderr with msg n|].
    right. exists t0, f, msg, n. split; [done|]. split; [done|].
    now apply perror_text_failure with f.
  - left. unfold exit_status. rewrite Hc, Htr. done.
Qed.

(** X3: whatever fails, the texts that the process started by the shell
    hands to [fprintf(stdout, ...)] in an accepted invocation -- its own
    calls, in their order; what a child may write of a buffer it got
    from its parent is not among them -- are the banner followed by the
    complete reports of the first [j] checkpoints, in the order of the
    program, where [j] is the number of checkpoints that process
    completed (streams closed), at most seven.  So they are always a
    prefix of the texts that process prints in the run that succeeds, and
    the process exits with status 0 exactly when it reported all seven
    checkpoints. *)
Theorem X3_partial_output (env : os_env) (prog a : string) (shared : bool) :
  (a = "--shared" /\ shared = true) \/ (a = "--private" /\ shared = false) ->
  let r := (run env [prog; a]).1 in
  let j := completed (trace_of r) in
  (j <= 7)%nat
  /\ writes STDOUT (trace_of r) = banner shared ++ mjoin (take j (reports env))
  /\ (exists rest, banner shared ++ commit_lines env = writes STDOUT (trace_of r) ++ rest)
  /\ (exit_status r = Some 0 <-> j = 7%nat).
Proof.
  intros Ha r j.
  assert (parse_mode a = Some shared) as Hm by (destruct Ha as [[-> ->]|[-> ->]]; reflexivity).
  destruct (run_accepted env prog a shared Hm) as (code & s & cs & Hrun & Hruns & _ & _).
  subst j r. rewrite Hrun. unfold trace_of, exit_status. cbn [fst snd].
  destruct (runs_outputs env shared _ _ Hruns) as (j & o & Hj & Hstr & Hout & H0 & H7).
  assert (completed (st_trace s) = j) as ->.
  { rewrite <- completed_streams, Hstr. apply completed_stream_calls. }
  split; [exact Hj|]. split; [exact Hout|]. split.
  - exists (mjoin (drop j (reports env))). rewrite Hout, <- app_assoc. f_equal.
    unfold commit_lines. fold (reports env).
    rewrite <- (take_drop j (reports env)) at 1. apply join_app.
  - split.
    + intros [= ->]. now apply H0.
    + intros ->. now rewrite H7.
Qed.

Lemma X3_partial_output_witness :
  let r := (run enomem_env ["oom_alloc"; "--private"]).1 in
  let j := completed (trace_of r) in
  (j <= 7)%nat
  /\ writes STDOUT (trace_of r) = banner false ++ mjoin (take j (reports enomem_env))
  /\ (exists rest, banner false ++ commit_lines enomem_env
                   = writes STDOUT (trace_of r) ++ rest)
  /\ (exit_status r = Some 0 <-> j = 7%nat).
Proof.
  apply (X3_partial_output enomem_env "oom_alloc" "--private" false).
  right. split; reflexivity.
Defined.

(** X4: in every process of every invocation, the calls that open and
    close streams are [fopen] of [/proc/meminfo] for reading and the
    [fclose] of the stream just opened, in turns: never two streams open
    at once, at most seven in all, and each one closed before the next is
    opened.  No stream is open when the process exits; the only [fopen]
    without its [fclose] is one that failed, and then the process exits
    with status 1. *)
Theorem X4_one_stream_at_a_time (env : os_env) (argv : list string) :
  Forall (fun r =>
            exists j o,
              (j <= 7)%nat
              /\ filter (fun e => is_stream_call e = true) (trace_of r)
                 = stream_calls j ++ failed_open o
              /\ (is_Some o -> exit_status r = Some EXIT_FAILURE))
    (procs (run env argv)).
Proof.
  apply Forall_forall. intros r Hr.
  destruct (procs_run env argv r Hr)
    as [[-> _]|[(prog & a & shared & code & -> & Hm & _ & Hcode & Hruns)|(Hc & Htr & _)]].
  - exists 0%nat, None. split; [lia|]. split; [reflexivity|]. now intros [? [=]].
  - destruct (runs_outputs env shared _ _ Hruns) as (j & o & Hj & Hstr & _ & H0 & _).
    exists j, o. split; [done|]. split; [done|].
    intros [e ->]. unfold exit_status. rewrite Hcode.
    destruct (runs_exit_last env shared _ _ _ Hruns) as (_ & _ & _ & [->| ->]); [|done].
    now destruct H0.
  - exists 0%nat, None. split; [lia|]. rewrite Htr. split; [reflexivity|]. now intros [? [=]].
Qed.

(** X5: whatever the accounting source holds -- lines of any length,
    NUL bytes -- every text that a call of the reporter prints is one
    line of this shape: the metric name [Committed_AS:], at most 86 more
    bytes with neither a newline nor a NUL among them, four spaces, the
    label in parentheses, a newline.  In particular [strtok] never hands
    NULL to [%s]. *)
Theorem X5_reporter_line_shape (env : os_env) (msg : string) (s : state) (c : string) :
  os_fopen env (st_nopen s) "/proc/meminfo" = Ok c ->
  let res := print_mem_commit env msg s in
  Forall (fun d =>
            exists r,
              d = "Committed_AS:" +:+ r +:+ "    (" +:+ c_str msg +:+ ")" +:+ nl
              /\ count_nl r = 0%nat /\ nul_free r /\ (String.length r <= 86)%nat)
    (writes STDOUT (drop (List.length (st_trace s)) (st_trace res.1.2))).
Proof.
  intros Hc res. subst res. rewrite (pmc_writes env msg s c Hc).
  unfold report. apply Forall_fmap, Forall_forall. intros buf Hbuf.
  apply list_elem_of_filter in Hbuf as [Hm Hin].
  destruct (file_bufs_pieces c) as (_ & Hall & _).
  rewrite Forall_forall in Hall. destruct (Hall buf Hin) as [[_ Hlen] _].
  apply (report_line_shape msg buf Hm Hlen).
Qed.

Lemma X5_reporter_line_shape_witness :
  let res := print_mem_commit (file_env nul_meminfo) "initial state" init_state in
  Forall (fun d =>
            exists r,
              d = "Committed_AS:" +:+ r +:+ "    (" +:+ c_str "initial state" +:+ ")" +:+ nl
              /\ count_nl r = 0%nat /\ nul_free r /\ (String.length r <= 86)%nat)
    (writes STDOUT (drop (List.length (st_trace init_state)) (st_trace res.1.2))).
Proof.
  apply (X5_reporter_line_shape (file_env nul_meminfo) "initial state" init_state nul_meminfo).
  reflexivity.
Defined.

(** X6: the loop of the reporter reads the whole accounting source once,
    in pieces: put end to end, in order, the pieces are the source; each
    piece has 1 to 99 bytes and no newline except, possibly, as its last
    byte; and each piece but the last ends with a newline or has 99
    bytes.  The lines printed are those of the pieces that start with the
    metric name, in order. *)
Theorem X6_reads_partition (env : os_env) (msg : string) (s : state) (c : string) :
  os_fopen env (st_nopen s) "/proc/meminfo" = Ok c ->
  let res := print_mem_commit env msg s in
  let pieces := file_bufs c in
  writes STDOUT (drop (List.length (st_trace s)) (st_trace res.1.2))
  = report_line msg <$> filter (fun b => is_metric b = true) pieces
  /\ foldr String.app EmptyString pieces = c
  /\ Forall piece pieces
  /\ (forall i b, pieces !! i = Some b -> (S i < List.length pieces)%nat -> full_piece b).
Proof.
  intros Hc res pieces. split; [apply (pmc_writes env msg s c Hc)|].
  apply file_bufs_pieces.
Qed.

Lemma X6_reads_partition_witness :
  let res := print_mem_commit (file_env wide_meminfo) "initial state" init_state in
  let pieces := file_bufs wide_meminfo in
  writes STDOUT (drop (List.length (st_trace init_state)) (st_trace res.1.2))
  = report_line "initial state" <$> filter (fun b => is_metric b = true) pieces
  /\ foldr String.app EmptyString pieces = wide_meminfo
  /\ Forall piece pieces
  /\ (forall i b, pieces !! i = Some b -> (S i < List.length pieces)%nat -> full_piece b).
Proof.
  apply (X6_reads_partition (file_env wide_meminfo) "initial state" init_state wide_meminfo).
  reflexivity.
Defined.

(** X7: the processes of an accepted invocation are the process started
    by the shell and one child for each [fork] that succeeded in it: at
    most sixteen, and sixteen when the process exits with status 0.  No
    child forks: the children have no children. *)
Theorem X7_one_child_per_fork (env : os_env) (prog a : string) (shared : bool) :
  (a = "--shared" /\ shared = true) \/ (a = "--private" /\ shared = false) ->
  let r := run env [prog; a] in
  List.length r.2 = nforks (trace_of r.1)
  /\ (List.length r.2 <= 16)%nat
  /\ (exit_status r.1 = Some 0 -> List.length r.2 = 16%nat)
  /\ Forall (fun c => nforks (trace_of c) = 0%nat /\ st_children c.2 = []
                      /\ st_depth c.2 = 1%nat) r.2.
Proof.
  intros Ha r.
  assert (parse_mode a = Some shared) as Hm by (destruct Ha as [[-> ->]|[-> ->]]; reflexivity).
  destruct (run_kids env prog a shared Hm)
    as (code & s & ks & Hrun & Hn & Hlen & Hall & Hok & _).
  subst r. rewrite Hrun. unfold trace_of, exit_status. cbn [fst snd].
  rewrite length_fmap. split; [done|]. split; [done|]. split.
  - intros [= ->]. now apply Hok.
  - apply Forall_fmap. eapply Forall_impl; [exact Hall|].
    intros k (_ & Htr & Hd & Hch & _). simpl. rewrite Htr. done.
Qed.

Lemma X7_one_child_per_fork_witness :
  let r := run enomem_env ["oom_alloc"; "--shared"] in
  List.length r.2 = nforks (trace_of r.1)
  /\ (List.length r.2 <= 16)%nat
  /\ (exit_status r.1 = Some 0 -> List.length r.2 = 16%nat)
  /\ Forall (fun c => nforks (trace_of c) = 0%nat /\ st_children c.2 = []
                      /\ st_depth c.2 = 1%nat) r.2.
Proof.
  apply (X7_one_child_per_fork enomem_env "oom_alloc" "--shared" true).
  left. split; reflexivity.
Defined.

(** X8: every child of an accepted invocation starts with the region of
    its parent as it was when the child was forked: mapped at the
    address that [mmap] returned, with the length and the flags of the
    request, read-only, and holding 0, 1, 2, ... in its slots.  The child
    can write nowhere. *)
Theorem X8_children_inherit_region (env : os_env) (prog a : string) (shared : bool) :
  (a = "--shared" /\ shared = true) \/ (a = "--private" /\ shared = false) ->
  Forall (fun c =>
            st_region c.2
            = Some {| rg_base := env_addr env; rg_len := main_length;
                      rg_prot := PROT_READ;
                      rg_flags := Z.lor MAP_ANONYMOUS
                                    (if shared then MAP_SHARED else MAP_PRIVATE) |}
            /\ read_region c.2 (env_addr env) main_slots = Z.of_nat <$> seq 0 main_slots
            /\ forall p, writable c.2 p = false)
    (run env [prog; a]).2.
Proof.
  intros Ha.
  assert (parse_mode a = Some shared) as Hm by (destruct Ha as [[-> ->]|[-> ->]]; reflexivity).
  destruct (run_kids env prog a shared Hm) as (code & s & ks & Hrun & _ & _ & Hall & _).
  rewrite Hrun. cbn [snd]. apply Forall_fmap. eapply Forall_impl; [exact Hall|].
  intros k Hk. split; [|split].
  - destruct Hk as (_ & _ & _ & _ & Hrg & _). exact Hrg.
  - destruct Hk as (_ & _ & _ & _ & _ & m & Hmem).
    now apply (read_region_init _ _ m).
  - intros p. now apply (heir_readonly env shared k p).
Qed.

Lemma X8_children_inherit_region_witness :
  Forall (fun c =>
            st_region c.2
            = Some {| rg_base := env_addr demo_env; rg_len := main_length;
                      rg_prot := PROT_READ;
                      rg_flags := Z.lor MAP_ANONYMOUS MAP_PRIVATE |}
            /\ read_region c.2 (env_addr demo_env) main_slots = Z.of_nat <$> seq 0 main_slots
            /\ forall p, writable c.2 p = false)
    (run demo_env ["oom_alloc"; "--private"]).2.
Proof.
  apply (X8_children_inherit_region demo_env "oom_alloc" "--private" false).
  right. split; reflexivity.
Defined.

(** X9: an accepted invocation exits with status 0 if and only if the
    system grants every request that the program checks: the seven
    [fopen], [mmap], [mprotect], the sixteen [fork] and the sixteen
    [wait]. *)
Theorem X9_exit_status_zero_iff_granted (env : os_env) (prog a : string) (shared : bool) :
  (a = "--shared" /\ shared = true) \/ (a = "--private" /\ shared = false) ->
  exit_status (run env [prog; a]).1 = Some 0 <-> succeeds env = true.
Proof.
  intros Ha.
  assert (parse_mode a = Some shared) as Hm by (destruct Ha as [[-> ->]|[-> ->]]; reflexivity).
  split.
  - destruct (run_kids env prog a shared Hm) as (code & s & ks & Hrun & _ & _ & _ & Hok & _).
    rewrite Hrun. unfold exit_status. cbn [fst]. intros [= ->]. now apply Hok.
  - intros Hok. destruct (run_success env prog a shared Hm Hok) as (pids & rs & s & cs & Hrun & _).
    now rewrite Hrun.
Qed.

Lemma X9_exit_status_zero_iff_granted_witness :
  exit_status (run enomem_env ["oom_alloc"; "--private"]).1 = Some 0
  <-> succeeds enomem_env = true.
Proof.
  apply (X9_exit_status_zero_iff_granted enomem_env "oom_alloc" "--private" false).
  right. split; reflexivity.
Defined.

(** X10: the first refusal decides.  Take the requests that the program
    checks in the order in which [main] makes them.  When none is
    refused, the process exits with status 0 and writes nothing on the
    error stream.  Otherwise it exits with status 1 and the error stream
    holds one line, for the first request refused: the message of the
    program for that call ([file open], [mmap], [mprotect], [fork] or
    [wait]), a colon, and the description of the [errno] of that
    refusal. *)
Theorem X10_first_refusal_decides (env : os_env) (prog a : string) (shared : bool) :
  (a = "--shared" /\ shared = true) \/ (a = "--private" /\ shared = false) ->
  let r := (run env [prog; a]).1 in
  match first_failure env with
  | None => exit_status r = Some EXIT_SUCCESS /\ writes STDERR (trace_of r) = []
  | Some (msg, e) =>
      exit_status r = Some EXIT_FAILURE
      /\ writes STDERR (trace_of r) = [msg +:+ ": " +:+ os_strerror env e +:+ nl]
  end.
Proof.
  intros Ha.
  assert (parse_mode a = Some shared) as Hm by (destruct Ha as [[-> ->]|[-> ->]]; reflexivity).
  exact (run_diagnosis env prog a shared Hm).
Qed.

Lemma X10_first_refusal_decides_witness :
  let r := (run enomem_env ["oom_alloc"; "--shared"]).1 in
  match first_failure enomem_env with
  | None => exit_status r = Some EXIT_SUCCESS /\ writes STDERR (trace_of r) = []
  | Some (msg, e) =>
      exit_status r = Some EXIT_FAILURE
      /\ writes STDERR (trace_of r) = [msg +:+ ": " +:+ os_strerror enomem_env e +:+ nl]
  end.
Proof.
  apply (X10_first_refusal_decides enomem_env "oom_alloc" "--shared" true).
  left. split; reflexivity.
Defined.
